(** * docgaps: the docstring-insertion engine of [docsgen.py]

    A shallow embedding of [src/docgaps/docsgen.py]: the [Target] record and
    its [signature] property, the extractor [find_missing_docstrings], the
    insertion helper [_insert_docstring] with the bottom-up loop of [main],
    and the interactive session with its editing helpers.

    Python values are modelled as follows.
    - [str] is [string]; a character is its code point, so the embedding
      covers text whose code points are below 256.  The character classes
      ([str.isspace], the line boundaries of [str.splitlines], the [\s] and
      [\w] classes of [re]) are CPython's, restricted to that range.
    - [int] is [Z]; [list] is [list], with Python's rules for negative and
      out-of-range indices written out in [PyList].
    - A raised exception is the [Raise] case of [result].
    - [ast.parse], [inspect.cleandoc], standard input, [$EDITOR], the
      language model and the file system are collaborators outside the
      repository: the first two are parameters, the next three are streams
      of responses in [World], and what becomes of a writing to a file is
      the parameter [disk]. *)

From Stdlib Require Import List ZArith Lia Bool Arith Ascii String Sorted Permutation.
From Equations Require Import Equations.
Import ListNotations.

Local Open Scope string_scope.
Local Open Scope Z_scope.
Local Open Scope list_scope.

Infix "+s+" := String.append (at level 60, right associativity).

(* ===================================================================== *)
(** * Exceptions and results *)
(* ===================================================================== *)

(** The exceptions of the program: the classes it raises or names, any
    other subclass of [Exception], and the exceptions that are no instance of
    [Exception] ([KeyboardInterrupt], and the other direct subclasses of
    [BaseException]). *)
Inductive exn : Type :=
| IndexError
| ValueError (msg : string)
| RuntimeError (msg : string)
| EOFError
| SyntaxError
| OtherException (msg : string)
| KeyboardInterrupt
| OtherBaseException (name : string).

(** [isinstance(e, Exception)]: what [except Exception] catches. *)
Definition is_Exception (e : exn) : bool :=
  match e with
  | KeyboardInterrupt | OtherBaseException _ => false
  | _ => true
  end.

Inductive result (A : Type) : Type :=
| Ok (a : A)
| Raise (e : exn).
Arguments Ok {A} a.
Arguments Raise {A} e.

Definition rbind {A B} (r : result A) (k : A -> result B) : result B :=
  match r with
  | Ok a => k a
  | Raise e => Raise e
  end.

Notation "x <- r ;; k" := (rbind r (fun x => k))
  (at level 61, r at next level, right associativity).

(* ===================================================================== *)
(** * Python's [str] methods used by the program *)
(* ===================================================================== *)

Module PyStr.

Definition code (c : ascii) : nat := nat_of_ascii c.

Definition between (lo hi n : nat) : bool := (lo <=? n)%nat && (n <=? hi)%nat.

(** [str.isspace] on one character; also the class [\s] of [re]. *)
Definition is_space (c : ascii) : bool :=
  let n := code c in
  between 9 13 n || between 28 32 n || (n =? 133)%nat || (n =? 160)%nat.

(** The line boundaries of [str.splitlines]. *)
Definition is_linebreak (c : ascii) : bool :=
  let n := code c in
  between 10 13 n || between 28 30 n || (n =? 133)%nat.

(** The class [\w] of [re] on [str] patterns: alphanumeric or underscore. *)
Definition is_word (c : ascii) : bool :=
  let n := code c in
  between 48 57 n || between 65 90 n || (n =? 95)%nat || between 97 122 n
  || (n =? 170)%nat || between 178 179 n || (n =? 181)%nat
  || between 185 186 n || between 188 190 n
  || between 192 214 n || between 216 246 n || between 248 255 n.

Definition LF : ascii := ascii_of_nat 10.
Definition CR : ascii := ascii_of_nat 13.
Definition NL : string := String LF "".

(** [str.splitlines()]: [after_cr] records that the previous character was a
    carriage return, so that a line feed right after it belongs to the same
    boundary.  No empty string is produced after a final boundary. *)
Fixpoint splitlines_from (after_cr : bool) (s : string) : list string :=
  match s with
  | EmptyString => []
  | String c rest =>
      if after_cr && Ascii.eqb c LF then splitlines_from false rest
      else if is_linebreak c then "" :: splitlines_from (Ascii.eqb c CR) rest
      else match splitlines_from false rest with
           | [] => [String c ""]
           | l :: ls => String c l :: ls
           end
  end.

Definition splitlines (s : string) : list string := splitlines_from false s.

(** [str.lstrip()], [str.rstrip()], [str.strip()] with no argument. *)
Fixpoint lstrip (s : string) : string :=
  match s with
  | EmptyString => ""
  | String c rest => if is_space c then lstrip rest else s
  end.

Fixpoint rstrip (s : string) : string :=
  match s with
  | EmptyString => ""
  | String c rest =>
      match rstrip rest with
      | EmptyString => if is_space c then "" else String c ""
      | r => String c r
      end
  end.

Definition strip (s : string) : string := lstrip (rstrip s).

Definition len (s : string) : Z := Z.of_nat (String.length s).

(** [s.startswith(p)] and [s.endswith(p)]. *)
Definition startswith (s p : string) : bool := String.prefix p s.

Fixpoint endswith (s p : string) : bool :=
  if String.eqb s p then true
  else match s with
       | EmptyString => false
       | String _ rest => endswith rest p
       end.

(** [sep.join(ls)]. *)
Definition join (sep : string) (ls : list string) : string := String.concat sep ls.

(** [s * n]. *)
Fixpoint repeat (s : string) (n : nat) : string :=
  match n with
  | O => ""
  | S n' => s +s+ repeat s n'
  end.

Definition mul (s : string) (n : Z) : string := repeat s (Z.to_nat n).

(** A slice bound of Python: negative bounds count from the end, and the
    result is clipped to [0 .. n]. *)
Definition clip (n : nat) (i : Z) : nat :=
  if i <? 0 then Z.to_nat (Z.max 0 (i + Z.of_nat n))
  else Nat.min (Z.to_nat i) n.

(** [s[:k]]. *)
Definition slice_to (s : string) (k : Z) : string :=
  String.substring 0 (clip (String.length s) k) s.

(** [str.lower()] on one character. *)
Definition lower_char (c : ascii) : ascii :=
  let n := code c in
  if between 65 90 n || between 192 214 n || between 216 222 n
  then ascii_of_nat (n + 32) else c.

Fixpoint lower (s : string) : string :=
  match s with
  | EmptyString => ""
  | String c rest => String (lower_char c) (lower rest)
  end.

End PyStr.

(* ===================================================================== *)
(** * Python's [list] indexing and slicing *)
(* ===================================================================== *)

Module PyList.

Section Ops.
Context {A : Type}.

(** [l[i]]: a negative index counts from the end; out of range raises. *)
Definition getitem (l : list A) (i : Z) : result A :=
  let n := Z.of_nat (List.length l) in
  let j := if i <? 0 then i + n else i in
  if (0 <=? j) && (j <? n)
  then match nth_error l (Z.to_nat j) with
       | Some x => Ok x
       | None => Raise IndexError
       end
  else Raise IndexError.

(** [l[i:j]]. *)
Definition getslice (l : list A) (i j : Z) : list A :=
  let lo := PyStr.clip (List.length l) i in
  let hi := PyStr.clip (List.length l) j in
  firstn (hi - lo) (skipn lo l).

(** [l[i:j] = new]: never raises; when the upper bound is below the lower
    one the slice is empty at the lower bound. *)
Definition setslice (l : list A) (i j : Z) (new : list A) : list A :=
  let lo := PyStr.clip (List.length l) i in
  let hi := Nat.max lo (PyStr.clip (List.length l) j) in
  firstn lo l ++ new ++ skipn hi l.

End Ops.

(** [sorted(l, key=key, reverse=reverse)] for integer keys.  The sort is
    stable, also with [reverse=True]: among equal keys the input order is
    kept. *)
Section Sorted.
Context {A : Type} (key : A -> Z) (reverse : bool).

Definition goes_before (x y : A) : bool :=
  if reverse then key y <=? key x else key x <=? key y.

Fixpoint insert_sorted (x : A) (l : list A) : list A :=
  match l with
  | [] => [x]
  | y :: l' => if goes_before x y then x :: l else y :: insert_sorted x l'
  end.

Definition sorted (l : list A) : list A := fold_right insert_sorted [] l.

End Sorted.

End PyList.

(* ===================================================================== *)
(** * Core datatypes *)
(* ===================================================================== *)

(** [class Target(NamedTuple)]. *)
Record Target : Type := mkTarget {
  filepath : string;
  lineno : Z;
  name : string;
  src : string
}.

(* ===================================================================== *)
(** * Docstring insertion helper *)
(* ===================================================================== *)

(** [def_line[: len(def_line) - len(def_line.lstrip())]]. *)
Definition base_indent_of (def_line : string) : string :=
  PyStr.slice_to def_line (PyStr.len def_line - PyStr.len (PyStr.lstrip def_line)).

(** [base_indent + " " * 4]. *)
Definition indent_spaces_of (def_line : string) : string :=
  base_indent_of def_line +s+ PyStr.mul " " 4.

(** [_insert_docstring(lines, tgt, doc)].  The Python function mutates
    [lines] and returns nothing; here the buffer after the call is returned.
    The only statement that can raise, [lines[tgt.lineno - 1]], comes before
    the mutation, so a raised exception leaves the buffer as it was. *)
Definition _insert_docstring (lines : list string) (tgt : Target) (doc : string)
  : result (list string) :=
  def_line <- PyList.getitem lines (lineno tgt - 1) ;;
  let indent_spaces := indent_spaces_of def_line in
  let indented := map (fun ln => indent_spaces +s+ ln) (PyStr.splitlines doc) in
  let insert_at := lineno tgt in
  Ok (PyList.setslice lines insert_at insert_at (indented ++ [""])).

(** The inner loop of [main]:
    [for tgt, doc in ...: _insert_docstring(src_lines, tgt, doc)]. *)
Fixpoint insert_each (src_lines : list string) (tds : list (Target * string))
  : result (list string) :=
  match tds with
  | [] => Ok src_lines
  | (tgt, doc) :: rest =>
      src_lines' <- _insert_docstring src_lines tgt doc ;;
      insert_each src_lines' rest
  end.

(** [sorted(td_list, key=lambda p: p[0].lineno, reverse=True)]. *)
Definition bottom_up (td_list : list (Target * string)) : list (Target * string) :=
  PyList.sorted (fun p => lineno (fst p)) true td_list.

(** The body of [for path, td_list in grouped.items()] in [main], from the
    text read from [path] to the text written back to it. *)
Definition update_file (text : string) (td_list : list (Target * string))
  : result string :=
  let src_lines := PyStr.splitlines text in
  src_lines' <- insert_each src_lines (bottom_up td_list) ;;
  Ok (PyStr.join PyStr.NL src_lines' +s+ PyStr.NL).

(* ===================================================================== *)
(** * [Target.signature] *)
(* ===================================================================== *)

Module Re.

(** The fragment of [re] patterns that the program uses.  [Cls] is a
    character class, [Star], [Plus] and [Opt] are the greedy [*], [+] and
    [?], and [WordB] is the word boundary [\b]. *)
Inductive regex : Type :=
| Lit (c : ascii)
| Cls (p : ascii -> bool)
| Seq (r1 r2 : regex)
| Star (r : regex)
| Plus (r : regex)
| Opt (r : regex)
| WordB.

Definition is_word_opt (c : option ascii) : bool :=
  match c with
  | Some c => PyStr.is_word c
  | None => false
  end.

Definition head (s : string) : option ascii :=
  match s with
  | EmptyString => None
  | String c _ => Some c
  end.

(** [matches r prev s prev' s']: starting with [s] left to read and [prev]
    the character just before it, [r] can consume a prefix of [s] and leave
    [s'], with [prev'] the character just before [s'].  A backtracking
    matcher finds a match exactly when one exists, so the truth value of
    [re.match(r, s)] is [exists prev' s', matches r None s prev' s']. *)
Inductive matches : regex -> option ascii -> string -> option ascii -> string -> Prop :=
| M_Lit c prev s : matches (Lit c) prev (String c s) (Some c) s
| M_Cls p c prev s : p c = true -> matches (Cls p) prev (String c s) (Some c) s
| M_Seq r1 r2 p0 s0 p1 s1 p2 s2 :
    matches r1 p0 s0 p1 s1 -> matches r2 p1 s1 p2 s2 ->
    matches (Seq r1 r2) p0 s0 p2 s2
| M_Star_stop r prev s : matches (Star r) prev s prev s
| M_Star_more r p0 s0 p1 s1 p2 s2 :
    matches r p0 s0 p1 s1 -> matches (Star r) p1 s1 p2 s2 ->
    matches (Star r) p0 s0 p2 s2
| M_Plus r p0 s0 p1 s1 p2 s2 :
    matches r p0 s0 p1 s1 -> matches (Star r) p1 s1 p2 s2 ->
    matches (Plus r) p0 s0 p2 s2
| M_Opt_skip r prev s : matches (Opt r) prev s prev s
| M_Opt_take r p0 s0 p1 s1 :
    matches r p0 s0 p1 s1 -> matches (Opt r) p0 s0 p1 s1
| M_WordB prev s :
    xorb (is_word_opt prev) (is_word_opt (head s)) = true ->
    matches WordB prev s prev s.

Fixpoint lits (s : string) : regex -> regex :=
  match s with
  | EmptyString => fun k => k
  | String c rest => fun k => Seq (Lit c) (lits rest k)
  end.

(** The pattern of [Target.signature]: [\s*(async\s+)?def\b]. *)
Definition def_pattern : regex :=
  Seq (Star (Cls PyStr.is_space))
      (Seq (Opt (lits "async" (Plus (Cls PyStr.is_space))))
           (lits "def" WordB)).

Definition re_match (r : regex) (s : string) : Prop :=
  exists prev' s', matches r None s prev' s'.

(** What remains of [s] after the literal [p], when [s] starts with it. *)
Fixpoint after_prefix (p s : string) : option string :=
  match p, s with
  | EmptyString, _ => Some s
  | String a p', String b s' => if Ascii.eqb a b then after_prefix p' s' else None
  | String _ _, EmptyString => None
  end.

(** [def\b] at the start of [s]. *)
Definition at_def (s : string) : bool :=
  match after_prefix "def" s with
  | Some rest => negb (is_word_opt (head rest))
  | None => false
  end.

(** [re.match(r"\s*(async\s+)?def\b", line)] as a truth value.  A white
    space character is neither [a] nor [d], so each run of white space is
    consumed whole. *)
Definition match_def (line : string) : bool :=
  let s := PyStr.lstrip line in
  at_def s ||
  match after_prefix "async" s with
  | Some rest =>
      match rest with
      | String c _ => PyStr.is_space c && at_def (PyStr.lstrip rest)
      | EmptyString => false
      end
  | None => false
  end.

End Re.

(** The first loop of [signature]: advance the iterator to the first line
    that matches, and return the header line found (if any) with what is
    left of the iterator. *)
Fixpoint find_def_line (it : list string) : list string * list string :=
  match it with
  | [] => ([], [])
  | line :: it' =>
      if Re.match_def line then ([PyStr.rstrip line], it')
      else find_def_line it'
  end.

(** The second loop of [signature], on the same iterator. *)
Fixpoint grab_until_colon (it : list string) : list string :=
  match it with
  | [] => []
  | line :: it' =>
      PyStr.rstrip line ::
      (if PyStr.endswith (PyStr.rstrip line) ":" then [] else grab_until_colon it')
  end.

Definition signature (tgt : Target) : result string :=
  let lines := PyStr.splitlines (src tgt) in
  let '(sig_lines, it) := find_def_line lines in
  let sig_lines := sig_lines ++ grab_until_colon it in
  match sig_lines with
  | [] => Raise (ValueError "No function header found in src")
  | _ => Ok (PyStr.join PyStr.NL sig_lines)
  end.

(* ===================================================================== *)
(** * The syntax tree of [ast] and the extractor *)
(* ===================================================================== *)

Module Ast.

Inductive constant : Type :=
| CStr (s : string)
| CNotStr.

(** The nodes of [ast] that the extractor tells apart; every other node
    class is [Other] with its child nodes in field order.  A function
    definition keeps the fields through which [ast.iter_child_nodes]
    passes, in the order of [_fields]. *)
#[local] Unset Elimination Schemes.
Inductive node : Type :=
| Module (body : list node)
| FunctionDef (name : string) (args : node) (body : list node)
    (decorator_list : list node) (returns : option node)
    (lineno end_lineno : Z)
| AsyncFunctionDef (name : string) (args : node) (body : list node)
    (decorator_list : list node) (returns : option node)
    (lineno end_lineno : Z)
| ClassDef (name : string) (bases keywords body decorator_list : list node)
    (lineno end_lineno : Z)
| Expr (value : node)
| Constant (value : constant)
| Other (children : list node).
#[local] Set Elimination Schemes.

Definition opt_list {A} (o : option A) : list A :=
  match o with
  | Some a => [a]
  | None => []
  end.

(** [ast.iter_child_nodes(node)]. *)
Definition iter_child_nodes (n : node) : list node :=
  match n with
  | Module body => body
  | FunctionDef _ args body decorator_list returns _ _
  | AsyncFunctionDef _ args body decorator_list returns _ _ =>
      args :: body ++ decorator_list ++ opt_list returns
  | ClassDef _ bases keywords body decorator_list _ _ =>
      bases ++ keywords ++ body ++ decorator_list
  | Expr value => [value]
  | Constant _ => []
  | Other children => children
  end.

Fixpoint size (n : node) : nat :=
  match n with
  | Module body => S (list_sum (map size body))
  | FunctionDef _ args body decorator_list returns _ _
  | AsyncFunctionDef _ args body decorator_list returns _ _ =>
      S (size args + list_sum (map size body) + list_sum (map size decorator_list)
         + match returns with Some r => size r | None => O end)
  | ClassDef _ bases keywords body decorator_list _ _ =>
      S (list_sum (map size bases) + list_sum (map size keywords)
         + list_sum (map size body) + list_sum (map size decorator_list))
  | Expr value => S (size value)
  | Constant _ => 1%nat
  | Other children => S (list_sum (map size children))
  end.

Definition sizes (l : list node) : nat := list_sum (map size l).

(** [ast.walk]: breadth first, from a queue of nodes still to visit.
[[
    todo = deque([node])
    while todo:
        node = todo.popleft()
        todo.extend(iter_child_nodes(node))
        yield node
]] *)
Equations? walk_queue (todo : list node) : list node by wf (sizes todo) lt :=
  walk_queue [] := [];
  walk_queue (n :: todo) := n :: walk_queue (todo ++ iter_child_nodes n).
Proof.
  unfold sizes. rewrite map_app, list_sum_app. cbn [map list_sum].
  assert (Hn : size n = S (list_sum (map size (iter_child_nodes n)))).
  { destruct n as [body|nm a body decos rt ln eln|nm a body decos rt ln eln
                   |nm bases kws body decos ln eln|v|c|cs];
      cbn [size iter_child_nodes map]; rewrite ?map_app;
      try (destruct rt; cbn [opt_list map]);
      repeat (rewrite list_sum_app || change (list_sum []) with O
              || match goal with
                 | |- context [list_sum (?x :: ?l)] =>
                     change (list_sum (x :: l)) with (x + list_sum l)%nat
                 end);
      lia. }
  change (list_sum (size n :: map size todo))
    with (size n + list_sum (map size todo))%nat.
  lia.
Qed.

Definition walk (n : node) : list node := walk_queue [n].

Section Docstring.
(** [inspect.cleandoc]. *)
Variable cleandoc : string -> string.

(** [ast.get_docstring(node)], with [clean=True]: [None] when the body is
    empty or does not start with an expression statement holding a string
    constant; [TypeError] on a node that cannot have a docstring. *)
Definition get_docstring (n : node) : result (option string) :=
  let of_body (body : list node) : option string :=
    match body with
    | Expr (Constant (CStr text)) :: _ => Some (cleandoc text)
    | _ => None
    end in
  match n with
  | Module body
  | FunctionDef _ _ body _ _ _ _
  | AsyncFunctionDef _ _ body _ _ _ _
  | ClassDef _ _ _ body _ _ _ => Ok (of_body body)
  | _ => Raise (OtherException "TypeError")
  end.

End Docstring.

End Ast.

Definition is_None {A} (o : option A) : bool :=
  match o with
  | None => true
  | Some _ => false
  end.

(** [_extract_function_src(lines, node)], with the two attributes of [node]
    that it reads. *)
Definition _extract_function_src (lines : list string) (node_lineno node_end_lineno : Z)
  : string :=
  PyStr.join PyStr.NL (PyList.getslice lines (node_lineno - 1) node_end_lineno).

Section Extractor.

(** [ast.parse]: the tree, or the exception raised; a [SyntaxError] (with its
    subclasses) is [Raise SyntaxError]. *)
Variable ast_parse : string -> result Ast.node.
Variable cleandoc : string -> string.

(** The loop of [find_missing_docstrings] over the nodes that [ast.walk]
    yields. *)
Fixpoint collect_targets (lines : list string) (file_path : string)
    (nodes : list Ast.node) : result (list Target) :=
  match nodes with
  | [] => Ok []
  | node :: nodes' =>
      hit <- match node with
             | Ast.FunctionDef name _ _ _ _ lineno end_lineno =>
                 doc <- Ast.get_docstring cleandoc node ;;
                 Ok (if is_None doc
                     then [mkTarget file_path lineno name
                                    (_extract_function_src lines lineno end_lineno)]
                     else [])
             | _ => Ok []
             end ;;
      targets <- collect_targets lines file_path nodes' ;;
      Ok (hit ++ targets)
  end.

Definition find_missing_docstrings (source : string) (file_path : string)
  : result (list Target) :=
  match ast_parse source with
  | Raise SyntaxError => Ok []
  | Raise e => Raise e
  | Ok tree =>
      let lines := PyStr.splitlines source in
      targets <- collect_targets lines file_path (Ast.walk tree) ;;
      Ok (PyList.sorted lineno false targets)
  end.

(** The scan loop of [main], over the files already read:
[[
    for file in py_files:
        src_text = file.read_text(encoding="utf-8")
        missing.extend(find_missing_docstrings(src_text, file))
]] *)
Fixpoint scan_files (py_files : list (string * string)) : result (list Target) :=
  match py_files with
  | [] => Ok []
  | (file, src_text) :: rest =>
      found <- find_missing_docstrings src_text file ;;
      missing <- scan_files rest ;;
      Ok (found ++ missing)
  end.

End Extractor.

(* ===================================================================== *)
(** * The operator, the editor and the language model *)
(* ===================================================================== *)

(** What the session reads from outside, in the order it will arrive:
    - [stdin]: the lines that [input()] returns; at the end, [EOFError];
    - [editor]: one entry per call of [_edit_with_editor]: [Ok None] when
      [$EDITOR] is unset or the launch raises an [Exception], [Ok (Some c)]
      with the content [c] of the temporary file after the editor has
      closed, and [Raise e] when the call raises [e]: the temporary file
      cannot be made, written, read back or removed, or the launch raises
      what is no [Exception];
    - [llm]: one entry per call of the agent: its output, or the exception
      it raises.  An empty stream is the variant of [_generate_docstring]
      defined when [pydantic_ai] is missing.
    Printing is not modelled. *)
Record World : Type := mkWorld {
  stdin : list string;
  editor : list (result (option string));
  llm : list (result string)
}.

Definition with_stdin (w : World) (l : list string) : World :=
  mkWorld l (editor w) (llm w).
Definition with_editor (w : World) (l : list (result (option string))) : World :=
  mkWorld (stdin w) l (llm w).
Definition with_llm (w : World) (l : list (result string)) : World :=
  mkWorld (stdin w) (editor w) l.

(** The outcome of an interactive computation: a value and the world left,
    an exception, or the exhaustion of the bound put on a [while True]. *)
Inductive outcome (A : Type) : Type :=
| Done (a : A) (w : World)
| Raised (e : exn)
| OutOfFuel.
Arguments Done {A} a w.
Arguments Raised {A} e.
Arguments OutOfFuel {A}.

Definition IO (A : Type) : Type := World -> outcome A.

Definition ret {A} (a : A) : IO A := fun w => Done a w.

Definition bind {A B} (m : IO A) (k : A -> IO B) : IO B :=
  fun w => match m w with
           | Done a w' => k a w'
           | Raised e => Raised e
           | OutOfFuel => OutOfFuel
           end.

Definition lift {A} (r : result A) : IO A :=
  fun w => match r with
           | Ok a => Done a w
           | Raise e => Raised e
           end.

Notation "x <~ m ;; k" := (bind m (fun x => k))
  (at level 61, m at next level, right associativity).

Definition DQ : ascii := ascii_of_nat 34.

(** The docstring delimiter: three double quotes. *)
Definition TQ : string := String DQ (String DQ (String DQ "")).

(** The loop of [_prompt] on the lines still to be read: the first line whose
    stripped, lower-cased text starts with a key of [valid] answers the
    prompt; the lines before it are consumed. *)
Fixpoint prompt_lines (valid : list ascii) (lines : list string)
  : result (ascii * list string) :=
  match lines with
  | [] => Raise EOFError
  | line :: rest =>
      match PyStr.lower (PyStr.strip line) with
      | String c _ =>
          if existsb (Ascii.eqb c) valid then Ok (c, rest)
          else prompt_lines valid rest
      | EmptyString => prompt_lines valid rest
      end
  end.

(** [_prompt(msg, valid)]. *)
Definition _prompt (valid : list ascii) : IO ascii :=
  fun w => match prompt_lines valid (stdin w) with
           | Ok (c, rest) => Done c (with_stdin w rest)
           | Raise e => Raised e
           end.

(** [_edit_with_editor(initial)]. *)
Definition _edit_with_editor (initial : string) : IO (option string) :=
  fun w => match editor w with
           | [] => Done None w
           | Ok None :: rest => Done None (with_editor w rest)
           | Ok (Some content) :: rest =>
               Done (Some (PyStr.strip content)) (with_editor w rest)
           | Raise e :: _ => Raised e
           end.

(** The loop of [_inline_multiline]: the lines up to the first blank one,
    and the lines after it. *)
Fixpoint read_until_blank (lines : list string) : result (list string * list string) :=
  match lines with
  | [] => Raise EOFError
  | ln :: rest =>
      if String.eqb (PyStr.strip ln) "" then Ok ([], rest)
      else p <- read_until_blank rest ;; Ok (ln :: fst p, snd p)
  end.

(** [_inline_multiline(prompt_msg, initial)]. *)
Definition _inline_multiline (initial : string) : IO string :=
  fun w => match read_until_blank (stdin w) with
           | Ok (lines, rest) =>
               Done (PyStr.strip (PyStr.join PyStr.NL lines)) (with_stdin w rest)
           | Raise e => Raised e
           end.

Definition delimited (s : string) : bool :=
  PyStr.startswith s TQ && PyStr.endswith s TQ.

(** [_edit_docstring(initial)]. *)
Definition _edit_docstring (initial : string) : IO string :=
  edited <~ _edit_with_editor initial ;;
  edited <~ match edited with
            | None => _inline_multiline initial
            | Some e => ret e
            end ;;
  ret (if negb (delimited edited)
       then TQ +s+ PyStr.NL +s+ edited +s+ PyStr.NL +s+ TQ
       else edited).

(** [_generate_docstring(fn_src)]: the value is what the call returns or
    raises; the handler around the call in the session decides what becomes
    of an exception. *)
Definition _generate_docstring (fn_src : string) : IO (result string) :=
  fun w => match llm w with
           | [] => Done (Raise (RuntimeError
                     "LLM generation requested but pydantic_ai not installed")) w
           | Ok output :: rest => Done (Ok (PyStr.strip output)) (with_llm w rest)
           | Raise e :: rest => Done (Raise e) (with_llm w rest)
           end.

(* ===================================================================== *)
(** * Interactive workflow *)
(* ===================================================================== *)

Definition Target_eqb (a b : Target) : bool :=
  String.eqb (filepath a) (filepath b) && (lineno a =? lineno b)
  && String.eqb (name a) (name b) && String.eqb (src a) (src b).

(** A Python [dict], in insertion order. *)
Module PyDict.
Section Dict.
Context {K V : Type} (eqb : K -> K -> bool).

Definition dict : Type := list (K * V).

Fixpoint get (d : dict) (k : K) : option V :=
  match d with
  | [] => None
  | (k', v) :: d' => if eqb k' k then Some v else get d' k
  end.

(** [d[k] = v]: a key already present keeps its place. *)
Fixpoint set (d : dict) (k : K) (v : V) : dict :=
  match d with
  | [] => [(k, v)]
  | (k', v') :: d' => if eqb k' k then (k', v) :: d' else (k', v') :: set d' k v
  end.

End Dict.
End PyDict.

Definition results_t : Type := list (Target * option string).

(** How the body of the [for] loop over the targets ends: with the next
    target, or with the session ([break], or [return results]). *)
Inductive flow : Type := NextTarget | EndSession.

Definition is_key (a b : ascii) : bool := Ascii.eqb a b.

(** The [while True] loop of the generate action.  [fuel] bounds the number
    of iterations; every iteration reads at least one line of [stdin], so
    the bound chosen in [negotiate] is never reached.  The handler is
    [except Exception]: what the generator raises is caught when it is an
    instance of [Exception], and leaves the loop otherwise. *)
Fixpoint review_loop (fuel : nat) (tgt : Target) (results : results_t)
  : IO (flow * results_t) :=
  match fuel with
  | O => fun _ => OutOfFuel
  | S fuel' =>
      generated <~ _generate_docstring (src tgt) ;;
      match generated with
      | Raise e =>
          if is_Exception e then
            retry <~ _prompt ["r"; "s"; "q"]%char ;;
            if is_key retry "r" then review_loop fuel' tgt results
            else if is_key retry "s" then ret (NextTarget, results)
            else ret (EndSession, results)
          else fun _ => Raised e
      | Ok suggestion =>
          choice <~ _prompt ["a"; "r"; "e"; "s"; "q"]%char ;;
          if is_key choice "a" then
            ret (NextTarget, PyDict.set Target_eqb results tgt (Some suggestion))
          else if is_key choice "e" then
            edited <~ _edit_docstring suggestion ;;
            ret (NextTarget, PyDict.set Target_eqb results tgt (Some edited))
          else if is_key choice "s" then
            ret (NextTarget, PyDict.set Target_eqb results tgt None)
          else if is_key choice "q" then ret (EndSession, results)
          else review_loop fuel' tgt results
      end
  end.

(** The body of [for idx, tgt in enumerate(targets, 1)]. *)
Definition negotiate (show_body : bool) (tgt : Target) (results : results_t)
  : IO (flow * results_t) :=
  snippet <~ lift (if show_body then Ok (src tgt) else signature tgt) ;;
  action <~ _prompt ["g"; "m"; "s"; "q"]%char ;;
  if is_key action "q" then ret (EndSession, results)
  else if is_key action "s" then
    ret (NextTarget, PyDict.set Target_eqb results tgt None)
  else if is_key action "m" then
    doc <~ _edit_docstring "" ;;
    ret (NextTarget, PyDict.set Target_eqb results tgt (Some doc))
  else fun w => review_loop (S (List.length (stdin w))) tgt results w.

Fixpoint session_from (show_body : bool) (targets : list Target)
    (results : results_t) : IO results_t :=
  match targets with
  | [] => ret results
  | tgt :: targets' =>
      step <~ negotiate show_body tgt results ;;
      match fst step with
      | EndSession => ret (snd step)
      | NextTarget => session_from show_body targets' (snd step)
      end
  end.

(** [_interactive_session(targets, show_body)]. *)
Definition _interactive_session (targets : list Target) (show_body : bool)
  : IO results_t :=
  session_from show_body targets [].

(* ===================================================================== *)
(** * Writing the accepted docstrings back *)
(* ===================================================================== *)

(** [grouped.setdefault(tgt.filepath, []).append((tgt, doc))]. *)
Fixpoint group_add (grouped : list (string * list (Target * string)))
    (tgt : Target) (doc : string) : list (string * list (Target * string)) :=
  match grouped with
  | [] => [(filepath tgt, [(tgt, doc)])]
  | (path, td_list) :: grouped' =>
      if String.eqb path (filepath tgt)
      then (path, td_list ++ [(tgt, doc)]) :: grouped'
      else (path, td_list) :: group_add grouped' tgt doc
  end.

(** The grouping loop of [main] over [accepted_map.items()]. *)
Definition group_by_file (accepted_map : results_t)
  : list (string * list (Target * string)) :=
  fold_left (fun grouped item =>
               match snd item with
               | None => grouped
               | Some doc => group_add grouped (fst item) doc
               end) accepted_map [].

(* ===================================================================== *)
(** * Definitions used to state the properties *)
(* ===================================================================== *)

(** The start line of [tgt] is a line of the buffer (lines count from 1). *)
Definition valid_in (lines : list string) (tgt : Target) : Prop :=
  1 <= lineno tgt <= Z.of_nat (List.length lines).

(** The longest prefix of white space of a line. *)
Fixpoint leading_whitespace (s : string) : string :=
  match s with
  | EmptyString => ""
  | String c rest => if PyStr.is_space c then String c (leading_whitespace rest) else ""
  end.

(** One standard indentation unit. *)
Definition indent_unit : string := "    ".

(** The buffer [lines] with [block] spliced in after its first [k] lines. *)
Definition spliced (lines : list string) (k : nat) (block : list string) : list string :=
  firstn k lines ++ block ++ skipn k lines.

(** The lines of [doc], each behind [prefix], and one empty line. *)
Definition doc_block (prefix doc : string) : list string :=
  map (fun ln => prefix +s+ ln) (PyStr.splitlines doc) ++ [""].

(** The text made of the given lines, with a line feed between them. *)
Definition lines_text (ls : list string) : string := PyStr.join PyStr.NL ls.

(** The pairs come in strictly descending order of start line. *)
Definition descending (tds : list (Target * string)) : Prop :=
  StronglySorted (fun a b => lineno (fst b) < lineno (fst a)) tds.

(** The character before the position reached after reading [p]. *)
Fixpoint last_of (p : string) (prev : option ascii) : option ascii :=
  match p with
  | EmptyString => prev
  | String c p' => last_of p' (Some c)
  end.

(** [drops f s s']: [s'] is [s] without some of its first characters, all of
    them in the class [f]. *)
Inductive drops (f : ascii -> bool) : string -> string -> Prop :=
| drops_here s : drops f s s
| drops_next c s s' : f c = true -> drops f s s' -> drops f (String c s) s'.

Definition starts_outside (f : ascii -> bool) (s : string) : Prop :=
  match s with
  | EmptyString => True
  | String c _ => f c = false
  end.

(** [reach n m]: [m] is [n] or a node below it. *)
Inductive reach : Ast.node -> Ast.node -> Prop :=
| reach_self n : reach n n
| reach_child n c m : In c (Ast.iter_child_nodes n) -> reach c m -> reach n m.

Definition in_order {A : Type} (key : A -> Z) (reverse : bool) (x y : A) : Prop :=
  if reverse then key y <= key x else key x <= key y.

(** The target that the loop makes of one node, if any. *)
Definition target_of (lines : list string) (file_path : string) (n : Ast.node)
  : list Target :=
  match n with
  | Ast.FunctionDef name _ (Ast.Expr (Ast.Constant (Ast.CStr _)) :: _) _ _ _ _ => []
  | Ast.FunctionDef name _ _ _ _ lineno end_lineno =>
      [mkTarget file_path lineno name (_extract_function_src lines lineno end_lineno)]
  | _ => []
  end.

(** What [_edit_docstring] makes of the text that the operator entered. *)
Definition normalized (text : string) : string :=
  if delimited text then text else TQ +s+ PyStr.NL +s+ text +s+ PyStr.NL +s+ TQ.

(** The text that the operator enters when [_edit_docstring] runs in [w]:
    what the editor leaves, stripped, or else the lines typed up to the first
    blank one, joined and stripped. *)
Definition entered_text (w : World) : result string :=
  match editor w with
  | Ok (Some content) :: _ => Ok (PyStr.strip content)
  | Raise e :: _ => Raise e
  | _ => p <- read_until_blank (stdin w) ;; Ok (PyStr.strip (PyStr.join PyStr.NL (fst p)))
  end.

(* ===================================================================== *)
(** * Sample inputs *)
(* ===================================================================== *)

Definition two_defs : list string :=
  ["def f(x):"; "    return x"; ""; "class A:"; "    def g(self):"; "        return 1"].

Definition tgt_f : Target := mkTarget "m.py" 1 "f" "def f(x):".
Definition tgt_g : Target := mkTarget "m.py" 5 "g" "    def g(self):".

Definition stale_tgt : Target := mkTarget "m.py" 7 "h" "def h(): pass".

Definition one_line_header : Target :=
  mkTarget "m.py" 1 "f" (lines_text ["def f(x):"; "    y = x + 1"; "    return y"]).

Definition wrapped_header : Target :=
  mkTarget "m.py" 1 "f"
    (lines_text ["def f("; "    a,"; "    b,"; "):"; "    return a + b"]).

Definition header_without_colon : Target :=
  mkTarget "m.py" 1 "f" "def f(x): return x".

Definition no_header : Target :=
  mkTarget "m.py" 1 "f" (lines_text ["@decorator"; "define = 1"; "x = lambda: 0"]).

Definition broken_source : string := "def f(:".

Definition good_source : string := lines_text ["def f():"; "    return 1"].

Definition good_tree : Ast.node :=
  Ast.Module
    [Ast.FunctionDef "f" (Ast.Other []) [Ast.Other [Ast.Constant Ast.CNotStr]]
       [] None 1 2].

(** A parser fixed on the two texts above: the first is refused, the second
    has [good_tree] as its tree. *)
Definition sample_parse (source : string) : result Ast.node :=
  if String.eqb source good_source then Ok good_tree else Raise SyntaxError.

Definition async_source : string :=
  lines_text ["async def fetch(url):"; "    return url"].

(** The tree of [async_source]: one [AsyncFunctionDef] whose body is a
    [Return] statement. *)
Definition async_tree : Ast.node :=
  Ast.Module
    [Ast.AsyncFunctionDef "fetch" (Ast.Other [Ast.Other []])
       [Ast.Other [Ast.Other []]] [] None 1 2].

Definition async_parse (source : string) : result Ast.node :=
  if String.eqb source async_source then Ok async_tree else Raise SyntaxError.

(** A form feed, the page break of a source file. *)
Definition FF : string := String (ascii_of_nat 12) "".

(** A module with a page break on a line of its own before a class.  The
    parser counts four lines up to the [def]; [str.splitlines] ends a line
    at the form feed too and counts five. *)
Definition page_break_source : string :=
  lines_text ["import os"; FF; "class A:"; "    def f(self):"; "        return 1"]
  +s+ PyStr.NL.

(** The tree of [page_break_source]: an [Import], and a [ClassDef] on lines
    3 to 5 whose body is the [FunctionDef] of [f] on lines 4 to 5. *)
Definition page_break_tree : Ast.node :=
  Ast.Module
    [Ast.Other [Ast.Other []];
     Ast.ClassDef "A" [] []
       [Ast.FunctionDef "f" (Ast.Other [Ast.Other []])
          [Ast.Other [Ast.Constant Ast.CNotStr]] [] None 4 5]
       [] 3 5].

Definition page_break_doc : string := TQ +s+ "Return one." +s+ TQ.

(** The text written back after the insertion for [f]. *)
Definition page_break_written : string :=
  lines_text ["import os"; ""; ""; "class A:"; "    " +s+ page_break_doc; "";
              "    def f(self):"; "        return 1"]
  +s+ PyStr.NL.

(** The tree of [page_break_written]: the class, now on lines 4 to 8, starts
    with the string as an expression statement, and the [FunctionDef] of [f]
    follows on lines 7 to 8. *)
Definition page_break_written_tree : Ast.node :=
  Ast.Module
    [Ast.Other [Ast.Other []];
     Ast.ClassDef "A" [] []
       [Ast.Expr (Ast.Constant (Ast.CStr "Return one."));
        Ast.FunctionDef "f" (Ast.Other [Ast.Other []])
          [Ast.Other [Ast.Constant Ast.CNotStr]] [] None 7 8]
       [] 4 8].

Definition page_break_parse (source : string) : result Ast.node :=
  if String.eqb source page_break_source then Ok page_break_tree
  else if String.eqb source page_break_written then Ok page_break_written_tree
  else Raise SyntaxError.


Definition accepting_world : World :=
  mkWorld ["g"; "a"] [] [Ok "  Add one to x.  "].

(* ===================================================================== *)
(** * More definitions used to state properties *)
(* ===================================================================== *)

(** The number of lines that the insertion of [doc] adds to a buffer. *)
Definition added_lines (doc : string) : nat :=
  S (List.length (PyStr.splitlines doc)).

(** The number of lines that a run of insertions adds. *)
Definition growth (tds : list (Target * string)) : nat :=
  list_sum (map (fun p => added_lines (snd p)) tds).

(** No character of [s] is a line boundary of [str.splitlines]. *)
Fixpoint no_linebreak (s : string) : bool :=
  match s with
  | EmptyString => true
  | String c rest => negb (PyStr.is_linebreak c) && no_linebreak rest
  end.

(* ===================================================================== *)
(** * The files that [main] reads and writes *)
(* ===================================================================== *)

(** The files on disk: paths with their text. *)
Definition files : Type := list (string * string).

(** [Path(path).read_text(encoding="utf-8")]; a path that is not there
    raises. *)
Fixpoint read_file (fs : files) (path : string) : result string :=
  match fs with
  | [] => Raise (OtherException "FileNotFoundError")
  | (p, text) :: fs' => if String.eqb p path then Ok text else read_file fs' path
  end.

(** The files with [text] stored under [path]. *)
Fixpoint store (fs : files) (path text : string) : files :=
  match fs with
  | [] => [(path, text)]
  | (p, old) :: fs' =>
      if String.eqb p path then (p, text) :: fs'
      else (p, old) :: store fs' path text
  end.

(** How a call of [Path(path).write_text(text, encoding="utf-8")] ends.  The
    call opens the file for writing, which empties it, writes and closes.
    It returns with the whole text in the file; or the opening raises and
    the file is as it was; or the writing or closing raises, and the file
    holds what had reached it by then. *)
Inductive write_end : Type :=
| Written
| OpenRaises (e : exn)
| WriteRaises (e : exn) (reached : string).

Section Disk.
(** What the file system makes of the writing of a text to a path. *)
Variable disk : string -> string -> write_end.

(** [Path(path).write_text(text, encoding="utf-8")]: the files afterwards,
    and how the call ended. *)
Definition write_file (fs : files) (path text : string) : files * result unit :=
  match disk path text with
  | Written => (store fs path text, Ok tt)
  | OpenRaises e => (fs, Raise e)
  | WriteRaises e reached => (store fs path reached, Raise e)
  end.

(** The loop of [main] over [grouped.items()] with the files as state: the
    files after the loop, and how the loop ended.  An exception ends the
    loop and leaves the files as they are then. *)
Fixpoint flush_grouped (fs : files) (grouped : list (string * list (Target * string)))
  : files * result unit :=
  match grouped with
  | [] => (fs, Ok tt)
  | (path, td_list) :: grouped' =>
      match read_file fs path with
      | Raise e => (fs, Raise e)
      | Ok text =>
          match update_file text td_list with
          | Raise e => (fs, Raise e)
          | Ok text' =>
              match write_file fs path text' with
              | (fs', Raise e) => (fs', Raise e)
              | (fs', Ok _) => flush_grouped fs' grouped'
              end
          end
      end
  end.

(** The end of the interactive branch of [main], from the map that the
    session returned: nothing to do on an empty map, else group and write. *)
Definition apply_accepted (fs : files) (accepted_map : results_t)
  : files * result unit :=
  match accepted_map with
  | [] => (fs, Ok tt)
  | _ => flush_grouped fs (group_by_file accepted_map)
  end.

End Disk.


(** The pairs of the map that hold a documentation string. *)
Definition accepted_pairs (accepted_map : results_t) : list (Target * string) :=
  flat_map (fun item => match snd item with
                        | Some doc => [(fst item, doc)]
                        | None => []
                        end) accepted_map.

(** Every group is for one file, holds only targets of that file, and is
    not empty; no file has two groups. *)
Definition well_grouped (grouped : list (string * list (Target * string))) : Prop :=
  NoDup (map fst grouped) /\
  Forall (fun g => snd g <> [] /\
                   Forall (fun p => filepath (fst p) = fst g) (snd g)) grouped.

Definition some_files : files :=
  [("a.py", lines_text two_defs); ("b.py", lines_text ["def h():"; "    pass"])].

Definition tgt_h : Target := mkTarget "b.py" 1 "h" "def h():".

Definition tgt_a : Target := mkTarget "a.py" 1 "f" "def f(x):".

Definition tgt_c : Target := mkTarget "c.py" 1 "k" "def k():".

Definition three_files : files :=
  [("a.py", lines_text ["def f(x):"; "    return x"]);
   ("b.py", lines_text ["def h():"; "    pass"]);
   ("c.py", lines_text ["def k():"; "    pass"])].

(** A file system on which the writing of [b.py] raises once the file has
    been opened and nothing has reached it; every other writing succeeds. *)
Definition full_disk (path text : string) : write_end :=
  if String.eqb path "b.py" then WriteRaises (OtherException "OSError") ""
  else Written.

(* ===================================================================== *)
(** * Definitions used to state properties of the session *)
(* ===================================================================== *)

(** The key that [line] gives to a prompt with the keys [valid], if any:
    the first character of the stripped, lower-cased line. *)
Definition answer_of (valid : list ascii) (line : string) : option ascii :=
  match PyStr.lower (PyStr.strip line) with
  | String c _ => if existsb (Ascii.eqb c) valid then Some c else None
  | EmptyString => None
  end.

(** The line ends an inline entry. *)
Definition is_blank (line : string) : bool := String.eqb (PyStr.strip line) "".

Definition first_keys : list ascii := ["g"; "m"; "s"; "q"]%char.
Definition retry_keys : list ascii := ["r"; "s"; "q"]%char.
Definition review_keys : list ascii := ["a"; "r"; "e"; "s"; "q"]%char.

(** [doc] is the stripped output of one of the answers of the model. *)
Definition from_generator (answers : list (result string)) (doc : string) : Prop :=
  exists output, In (Ok output) answers /\ doc = PyStr.strip output.

(** What the session may record for a target: nothing, a delimited text, or
    a suggestion of the model as it came. *)
Definition recorded_ok (answers : list (result string)) (v : option string) : Prop :=
  match v with
  | None => True
  | Some doc => delimited doc = true \/ from_generator answers doc
  end.

(** The snippet shown for [tgt] can be computed. *)
Definition showable (show_body : bool) (tgt : Target) : Prop :=
  show_body = true \/ exists header, signature tgt = Ok header.

Definition failing_world : World :=
  mkWorld ["g"; "r"; "a"] [] [Raise (OtherException "timeout"); Ok " Second try. "].

Definition skipping_world : World := mkWorld ["s"; "S "; "skip"] [] [].

(** [session_from] with the way its loop ended: by the end of the targets
    ([NextTarget]) or by a quit ([EndSession]). *)
Fixpoint session_steps (show_body : bool) (targets : list Target)
    (results : results_t) : IO (flow * results_t) :=
  match targets with
  | [] => ret (NextTarget, results)
  | tgt :: targets' =>
      step <~ negotiate show_body tgt results ;;
      match fst step with
      | EndSession => ret step
      | NextTarget => session_steps show_body targets' (snd step)
      end
  end.

(** The part of [answers] still to come is [rest]. *)
Definition tail_of {A} (answers rest : list A) : Prop :=
  exists used, answers = used ++ rest.

(** The first call of the generator times out; the operator asks for
    another and interrupts it. *)
Definition interrupted_world : World :=
  mkWorld ["r"; "a"] []
    [Raise (OtherException "timeout"); Raise KeyboardInterrupt; Ok "Never asked."].

(** Two calls of the generator fail; the operator asks for the second and
    gives up after it. *)
Definition giving_up_world : World :=
  mkWorld [" R"; "skip"; "q"] []
    [Raise (OtherException "timeout"); Raise (RuntimeError "no model"); Ok "Late."].

(** An entry of the map is for one of [targets] and holds what the session
    may record. *)
Definition entry_ok (targets : list Target) (answers : list (result string))
    (entry : Target * option string) : Prop :=
  In (fst entry) targets /\ recorded_ok answers (snd entry).

(* ===================================================================== *)
(** * The earlier scripts: [add_docstrings.py] and [in_place.py] *)
(* ===================================================================== *)

(** [enumerate(l)]. *)
Definition enumerate {A} (l : list A) : list (Z * A) :=
  combine (map Z.of_nat (seq 0 (List.length l))) l.

Module AddDocstrings.

(** [Target.signature] of [add_docstrings.py]:
    [self.src.splitlines()[0].rstrip()]. *)
Definition signature (tgt : Target) : result string :=
  line <- PyList.getitem (PyStr.splitlines (src tgt)) 0 ;;
  Ok (PyStr.rstrip line).

(** [_insert_docstring] of [add_docstrings.py].  The two branches of the
    conditional expression are the same. *)
Definition _insert_docstring (lines : list string) (tgt : Target) (doc : string)
  : list string :=
  let indent_spaces := PyStr.mul " " 4 in
  let indented :=
    map (fun p => if negb (fst p =? 0) then indent_spaces +s+ snd p
                  else indent_spaces +s+ snd p)
        (enumerate (PyStr.splitlines doc)) in
  let insert_at := lineno tgt in
  PyList.setslice lines insert_at insert_at (indented ++ [""]).

End AddDocstrings.

Module InPlace.

(** [class Target(NamedTuple)] of [in_place.py]. *)
Record Target : Type := mkTarget {
  lineno : Z;
  col : Z;
  src : string;
  name : string
}.

(** [insert_docstring] of [in_place.py]. *)
Definition insert_docstring (lines : list string) (tgt : Target) (doc : string)
  : list string :=
  let indent := PyStr.mul " " (col tgt + 4) in
  let indented_doc :=
    map (fun p => if 0 <? fst p then indent +s+ snd p else indent +s+ snd p)
        (enumerate (PyStr.splitlines doc)) in
  let insert_at := lineno tgt in
  PyList.setslice lines insert_at insert_at (indented_doc ++ [""]).

End InPlace.

(** The elements of [l] up to and including the first one that satisfies
    [p]; all of [l] when none does. *)
Fixpoint take_through {A} (p : A -> bool) (l : list A) : list A :=
  match l with
  | [] => []
  | x :: l' => x :: (if p x then [] else take_through p l')
  end.

(** The line, stripped on the right, ends with a colon. *)
Definition ends_with_colon (line : string) : bool :=
  PyStr.endswith (PyStr.rstrip line) ":".

Definition nested_lines : list string :=
  ["class A:"; "    def g(self):"; "        return 1"].

Definition tgt_nested : Target := mkTarget "m.py" 2 "g" "    def g(self):".

Definition tgt_nested_col : InPlace.Target := InPlace.mkTarget 2 4 "    def g(self):" "g".

Definition decorated : Target :=
  mkTarget "m.py" 2 "f"
    (lines_text ["@cache"; "def f(a,"; "      b):   "; "    if a:"; "        pass"]).




(* ===================================================================== *)
(** * Facts about the Python primitives *)
(* ===================================================================== *)

Module PyFacts.

Lemma clip_inside (n : nat) (i : Z) :
  0 <= i <= Z.of_nat n -> PyStr.clip n i = Z.to_nat i.
Proof.
  intros H. unfold PyStr.clip.
  destruct (Z.ltb_spec i 0); lia.
Qed.

Lemma clip_le (n : nat) (i : Z) : (PyStr.clip n i <= n)%nat.
Proof.
  unfold PyStr.clip. destruct (Z.ltb_spec i 0); lia.
Qed.

Lemma getitem_inside {A} (l : list A) (i : Z) :
  0 <= i < Z.of_nat (List.length l) ->
  exists x, nth_error l (Z.to_nat i) = Some x /\ PyList.getitem l i = Ok x.
Proof.
  intros H. unfold PyList.getitem.
  destruct (Z.ltb_spec i 0) as [Hneg|_]; [lia|].
  destruct (Z.leb_spec 0 i) as [_|Hneg]; [|lia].
  destruct (Z.ltb_spec i (Z.of_nat (List.length l))) as [_|Hbig]; [|lia].
  cbn [andb].
  destruct (nth_error l (Z.to_nat i)) as [x|] eqn:E.
  - exists x. split; reflexivity.
  - apply nth_error_None in E. lia.
Qed.

Lemma getitem_beyond {A} (l : list A) (i : Z) :
  Z.of_nat (List.length l) <= i -> PyList.getitem l i = Raise IndexError.
Proof.
  intros H. unfold PyList.getitem.
  destruct (Z.ltb_spec i 0) as [Hneg|_]; [lia|].
  destruct (Z.ltb_spec i (Z.of_nat (List.length l))) as [Hin|_]; [lia|].
  rewrite andb_false_r. reflexivity.
Qed.

Lemma setslice_inside {A} (l : list A) (k : Z) (new : list A) :
  0 <= k <= Z.of_nat (List.length l) ->
  PyList.setslice l k k new
  = firstn (Z.to_nat k) l ++ new ++ skipn (Z.to_nat k) l.
Proof.
  intros H. unfold PyList.setslice.
  rewrite (clip_inside _ _ H), Nat.max_id. reflexivity.
Qed.

Lemma length_lstrip (s : string) :
  (String.length (PyStr.lstrip s) <= String.length s)%nat.
Proof.
  induction s as [|c s IH]; simpl; [lia|].
  destruct (PyStr.is_space c); simpl; lia.
Qed.

Lemma lstrip_split (s : string) : s = leading_whitespace s +s+ PyStr.lstrip s.
Proof.
  induction s as [|c s IH]; simpl; [reflexivity|].
  destruct (PyStr.is_space c); simpl; [f_equal; exact IH | reflexivity].
Qed.

Lemma substring_prefix (a b : string) :
  String.substring 0 (String.length a) (a +s+ b) = a.
Proof.
  induction a as [|c a IH]; simpl.
  - destruct b; reflexivity.
  - f_equal. exact IH.
Qed.

Lemma length_append (a b : string) :
  String.length (a +s+ b) = (String.length a + String.length b)%nat.
Proof.
  induction a as [|c a IH]; simpl; [reflexivity | f_equal; exact IH].
Qed.

(** The slice that the program takes from the [def] line is its leading
    white space. *)
Lemma base_indent_is_leading_whitespace (def_line : string) :
  base_indent_of def_line = leading_whitespace def_line.
Proof.
  unfold base_indent_of, PyStr.slice_to, PyStr.len.
  pose proof (length_lstrip def_line) as Hle.
  pose proof (lstrip_split def_line) as Hsplit.
  assert (Hlen : String.length def_line
                 = (String.length (leading_whitespace def_line)
                    + String.length (PyStr.lstrip def_line))%nat).
  { rewrite Hsplit at 1. apply length_append. }
  rewrite clip_inside by lia.
  replace (Z.to_nat (Z.of_nat (String.length def_line)
                     - Z.of_nat (String.length (PyStr.lstrip def_line))))
    with (String.length (leading_whitespace def_line)) by lia.
  rewrite Hsplit at 2. apply substring_prefix.
Qed.

Lemma indent_spaces_spec (def_line : string) :
  indent_spaces_of def_line = leading_whitespace def_line +s+ indent_unit.
Proof.
  unfold indent_spaces_of. rewrite base_indent_is_leading_whitespace. reflexivity.
Qed.

End PyFacts.

(* ===================================================================== *)
(** * The insertion engine *)
(* ===================================================================== *)

(** On a valid target the insertion returns the buffer with the indented
    documentation and one empty line spliced in after the [def] line. *)
Lemma insert_docstring_valid (lines : list string) (tgt : Target) (doc : string) :
  valid_in lines tgt ->
  exists def_line,
    nth_error lines (Z.to_nat (lineno tgt - 1)) = Some def_line /\
    _insert_docstring lines tgt doc
    = Ok (spliced lines (Z.to_nat (lineno tgt))
            (doc_block (leading_whitespace def_line +s+ indent_unit) doc)).
Proof.
  intros [Hlo Hhi].
  destruct (PyFacts.getitem_inside lines (lineno tgt - 1)) as [def_line [Hnth Hget]];
    [lia|].
  exists def_line. split; [exact Hnth|].
  unfold _insert_docstring. rewrite Hget. cbn [rbind].
  rewrite PyFacts.setslice_inside by lia.
  rewrite PyFacts.indent_spaces_spec. reflexivity.
Qed.

Lemma spliced_length (lines : list string) (k : nat) (block : list string) :
  List.length (spliced lines k block) = (List.length lines + List.length block)%nat.
Proof.
  unfold spliced. rewrite !length_app.
  rewrite <- (firstn_skipn k lines) at 3. rewrite length_app. lia.
Qed.

Lemma spliced_firstn (lines : list string) (k j : nat) (block : list string) :
  (j <= k <= List.length lines)%nat ->
  firstn j (spliced lines k block) = firstn j lines.
Proof.
  intros H. unfold spliced.
  rewrite firstn_app, length_firstn, Nat.min_l by lia.
  replace (j - k)%nat with O by lia. cbn [firstn]. rewrite app_nil_r.
  rewrite firstn_firstn, Nat.min_l by lia. reflexivity.
Qed.

Lemma spliced_nth_before (lines : list string) (k i : nat) (block : list string) :
  (i < k <= List.length lines)%nat ->
  nth_error (spliced lines k block) i = nth_error lines i.
Proof.
  intros H. unfold spliced.
  rewrite nth_error_app1 by (rewrite length_firstn; lia).
  rewrite nth_error_firstn.
  destruct (Nat.ltb_spec i k); [reflexivity | lia].
Qed.

Lemma valid_in_longer (buf buf' : list string) (tgt : Target) :
  (List.length buf <= List.length buf')%nat -> valid_in buf tgt -> valid_in buf' tgt.
Proof.
  unfold valid_in. lia.
Qed.

(** A run of insertions on targets that are all valid succeeds, and keeps
    the first [j] lines of the buffer when [j] is at most every start line
    of the run. *)
Lemma insert_each_keeps_head (tds : list (Target * string)) :
  forall buf,
    Forall (fun p => valid_in buf (fst p)) tds ->
    exists buf',
      insert_each buf tds = Ok buf' /\
      (List.length buf <= List.length buf')%nat /\
      forall j, Forall (fun p => (j <= Z.to_nat (lineno (fst p)))%nat) tds ->
                firstn j buf' = firstn j buf.
Proof.
  induction tds as [|[tgt doc] rest IH]; intros buf Hvalid.
  - exists buf. repeat split; auto.
  - apply Forall_cons_iff in Hvalid. destruct Hvalid as [Hv Hrest].
    cbn [fst] in Hv.
    destruct (insert_docstring_valid buf tgt doc Hv) as [def_line [_ Hins]].
    set (buf1 := spliced buf (Z.to_nat (lineno tgt))
                   (doc_block (leading_whitespace def_line +s+ indent_unit) doc)) in *.
    assert (Hlen : (List.length buf <= List.length buf1)%nat).
    { unfold buf1. rewrite spliced_length. lia. }
    destruct (IH buf1) as [buf' [Hrun [Hlen' Hhead]]].
    { eapply Forall_impl; [|exact Hrest].
      intros p Hp. eapply valid_in_longer; eauto. }
    exists buf'. split; [|split].
    + cbn [insert_each]. rewrite Hins. cbn [rbind]. exact Hrun.
    + lia.
    + intros j Hj. apply Forall_cons_iff in Hj. destruct Hj as [Hjt Hjrest].
      cbn [fst] in Hjt. rewrite (Hhead j Hjrest).
      unfold buf1. apply spliced_firstn. unfold valid_in in Hv. lia.
Qed.

Lemma descending_app_lt (done pending : list (Target * string)) :
  descending (done ++ pending) ->
  forall q p, In q done -> In p pending -> lineno (fst p) < lineno (fst q).
Proof.
  unfold descending. induction done as [|d done IH]; intros Hs q p Hq Hp.
  - destruct Hq.
  - cbn [app] in Hs. apply StronglySorted_inv in Hs. destruct Hs as [Hs Hall].
    destruct Hq as [<-|Hq].
    + rewrite Forall_forall in Hall. apply Hall. apply in_or_app. right. exact Hp.
    + eapply IH; eauto.
Qed.

Lemma firstn_nth_error {A} (l l' : list A) (j i : nat) :
  firstn j l' = firstn j l -> (i < j)%nat -> nth_error l' i = nth_error l i.
Proof.
  intros Heq Hi.
  assert (H1 : nth_error (firstn j l') i = nth_error l' i).
  { rewrite nth_error_firstn. destruct (Nat.ltb_spec i j); [reflexivity|lia]. }
  assert (H2 : nth_error (firstn j l) i = nth_error l i).
  { rewrite nth_error_firstn. destruct (Nat.ltb_spec i j); [reflexivity|lia]. }
  rewrite <- H1, <- H2, Heq. reflexivity.
Qed.

(** ** C1 *)

(** C1.  Inserting the documentation for a target whose start line is valid
    in the buffer succeeds and leaves every line at an index below the start
    line as it was, the [def] line included.  Hence, when the pairs of one
    file are inserted in strictly descending order of start line, after any
    part [done] of the run every pair still [pending] has its start line
    valid in the buffer, and the lines up to and including its [def] line
    are those of the buffer before the run: its insertion point has not
    moved. *)
Theorem insertion_keeps_earlier_lines
    (lines : list string) (tgt : Target) (doc : string)
    (done pending : list (Target * string)) :
  valid_in lines tgt ->
  descending (done ++ pending) ->
  Forall (fun p => valid_in lines (fst p)) (done ++ pending) ->
  (exists lines',
      _insert_docstring lines tgt doc = Ok lines' /\
      forall i, (i < Z.to_nat (lineno tgt))%nat ->
                nth_error lines' i = nth_error lines i)
  /\
  (exists buf,
      insert_each lines done = Ok buf /\
      Forall (fun p =>
                valid_in buf (fst p) /\
                forall i, (i < Z.to_nat (lineno (fst p)))%nat ->
                          nth_error buf i = nth_error lines i) pending).
Proof.
  intros Hv Hdesc Hall. split.
  - destruct (insert_docstring_valid lines tgt doc Hv) as [def_line [_ Hins]].
    eexists. split; [exact Hins|].
    intros i Hi. apply spliced_nth_before. unfold valid_in in Hv. lia.
  - apply Forall_app in Hall. destruct Hall as [Hdone Hpend].
    destruct (insert_each_keeps_head done lines Hdone) as [buf [Hrun [Hlen Hhead]]].
    exists buf. split; [exact Hrun|].
    rewrite Forall_forall in *. intros p Hp. split.
    + eapply valid_in_longer; eauto.
    + intros i Hi. apply (firstn_nth_error _ _ (Z.to_nat (lineno (fst p)))); [|exact Hi].
      apply Hhead. rewrite Forall_forall. intros q Hq.
      pose proof (descending_app_lt done pending Hdesc q p Hq Hp).
      pose proof (Hpend p Hp) as Hvp. unfold valid_in in Hvp. lia.
Qed.

Lemma insertion_keeps_earlier_lines_witness :
  valid_in two_defs tgt_g /\
  descending ([(tgt_g, "G")] ++ [(tgt_f, "F")]) /\
  (exists buf,
      insert_each two_defs [(tgt_g, "G")] = Ok buf /\
      Forall (fun p =>
                valid_in buf (fst p) /\
                forall i, (i < Z.to_nat (lineno (fst p)))%nat ->
                          nth_error buf i = nth_error two_defs i) [(tgt_f, "F")]).
Proof.
  assert (Hv : valid_in two_defs tgt_g) by (unfold valid_in; simpl; lia).
  assert (Hd : descending ([(tgt_g, "G")] ++ [(tgt_f, "F")])).
  { unfold descending. simpl. repeat constructor. }
  split; [exact Hv|]. split; [exact Hd|].
  apply (insertion_keeps_earlier_lines two_defs tgt_g "G" [(tgt_g, "G")] [(tgt_f, "F")] Hv Hd).
  repeat constructor; unfold valid_in; simpl; lia.
Defined.

(** ** C2 *)

(** C2, as stated, fails: a target whose start line lies beyond the buffer
    makes [lines[tgt.lineno - 1]] raise [IndexError], and the buffer does not
    grow. *)
Lemma insert_docstring_beyond_buffer_raises :
  _insert_docstring two_defs stale_tgt "doc" = Raise IndexError /\
  ~ (exists lines',
        _insert_docstring two_defs stale_tgt "doc" = Ok lines' /\
        List.length lines'
        = (List.length two_defs + List.length (PyStr.splitlines "doc") + 1)%nat).
Proof.
  assert (H : _insert_docstring two_defs stale_tgt "doc" = Raise IndexError)
    by reflexivity.
  split; [exact H|].
  intros [lines' [Hok _]]. rewrite H in Hok. discriminate Hok.
Qed.

(** C2, amended.  For a target whose start line is valid in the buffer, the
    insertion returns the first [tgt.lineno] lines unchanged, then the lines
    of [doc], each behind the indentation computed from the [def] line, then
    one empty line, then the remaining lines unchanged; the buffer grows by
    the number of lines of [doc] plus one. *)
Theorem insert_docstring_splices
    (lines : list string) (tgt : Target) (doc : string) :
  valid_in lines tgt ->
  exists def_line lines',
    PyList.getitem lines (lineno tgt - 1) = Ok def_line /\
    _insert_docstring lines tgt doc = Ok lines' /\
    lines' = firstn (Z.to_nat (lineno tgt)) lines
             ++ map (fun ln => indent_spaces_of def_line +s+ ln) (PyStr.splitlines doc)
             ++ [""]
             ++ skipn (Z.to_nat (lineno tgt)) lines /\
    List.length lines'
    = (List.length lines + List.length (PyStr.splitlines doc) + 1)%nat.
Proof.
  intros Hv. pose proof Hv as [Hlo Hhi].
  destruct (PyFacts.getitem_inside lines (lineno tgt - 1)) as [def_line [_ Hget]];
    [lia|].
  exists def_line. eexists. split; [exact Hget|].
  split; [|split; [reflexivity|]].
  - unfold _insert_docstring. rewrite Hget. cbn [rbind].
    rewrite PyFacts.setslice_inside by lia.
    rewrite <- app_assoc. reflexivity.
  - rewrite !length_app, length_map. cbn [List.length].
    rewrite <- (firstn_skipn (Z.to_nat (lineno tgt)) lines) at 3.
    rewrite length_app. lia.
Qed.

Lemma insert_docstring_splices_witness :
  valid_in two_defs tgt_g /\
  exists def_line lines',
    PyList.getitem two_defs (lineno tgt_g - 1) = Ok def_line /\
    _insert_docstring two_defs tgt_g "doc" = Ok lines' /\
    lines' = firstn (Z.to_nat (lineno tgt_g)) two_defs
             ++ map (fun ln => indent_spaces_of def_line +s+ ln) (PyStr.splitlines "doc")
             ++ [""]
             ++ skipn (Z.to_nat (lineno tgt_g)) two_defs /\
    List.length lines'
    = (List.length two_defs + List.length (PyStr.splitlines "doc") + 1)%nat.
Proof.
  assert (Hv : valid_in two_defs tgt_g) by (unfold valid_in; simpl; lia).
  split; [exact Hv|].
  apply (insert_docstring_splices two_defs tgt_g "doc" Hv).
Defined.

(** ** C3 *)

(** C3.  Whenever the insertion puts documentation into the buffer, the
    prefix of every documentation line is the leading white space of the line
    that [lines[tgt.lineno - 1]] reads from the buffer as it is when the
    insertion runs, followed by four spaces.  For a target whose start line
    is a line of the buffer, that line is the one at the start line, the
    insertion succeeds, each line of the documentation stands behind this
    same prefix, and nothing else of the target enters: two targets with the
    same start line (whatever their recorded source text, name and file)
    give the same buffer. *)
Theorem indentation_from_current_line
    (lines : list string) (tgt : Target) (doc : string) :
  (forall lines',
      _insert_docstring lines tgt doc = Ok lines' ->
      exists def_line,
        PyList.getitem lines (lineno tgt - 1) = Ok def_line /\
        lines' = PyList.setslice lines (lineno tgt) (lineno tgt)
                   (map (fun ln => (leading_whitespace def_line +s+ "    ") +s+ ln)
                        (PyStr.splitlines doc) ++ [""]))
  /\
  (valid_in lines tgt ->
   exists def_line lines',
     nth_error lines (Z.to_nat (lineno tgt - 1)) = Some def_line /\
     _insert_docstring lines tgt doc = Ok lines' /\
     let prefix := leading_whitespace def_line +s+ "    " in
     (forall i ln,
         nth_error (PyStr.splitlines doc) i = Some ln ->
         nth_error lines' (Z.to_nat (lineno tgt) + i) = Some (prefix +s+ ln)) /\
     lines' = spliced lines (Z.to_nat (lineno tgt))
                (map (fun ln => prefix +s+ ln) (PyStr.splitlines doc) ++ [""]) /\
     (forall tgt',
         lineno tgt' = lineno tgt ->
         _insert_docstring lines tgt' doc = Ok lines')).
Proof.
  split.
  - intros lines' Hins. unfold _insert_docstring in Hins.
    destruct (PyList.getitem lines (lineno tgt - 1)) as [def_line|e];
      [|discriminate].
    cbn [rbind] in Hins. injection Hins as <-.
    exists def_line. split; [reflexivity|].
    rewrite PyFacts.indent_spaces_spec. reflexivity.
  - intros Hv. pose proof Hv as [Hlo Hhi].
    destruct (insert_docstring_valid lines tgt doc Hv) as [def_line [Hnth Hins]].
    exists def_line. eexists. split; [exact Hnth|]. split; [exact Hins|].
    cbv zeta. split; [|split; [reflexivity|]].
    + intros i ln Hi. unfold spliced, doc_block.
      rewrite nth_error_app2 by (rewrite length_firstn; lia).
      rewrite length_firstn, Nat.min_l by lia.
      replace (Z.to_nat (lineno tgt) + i - Z.to_nat (lineno tgt))%nat with i by lia.
      assert (Hlt : (i < List.length (PyStr.splitlines doc))%nat)
        by (apply nth_error_Some; congruence).
      rewrite <- app_assoc.
      rewrite nth_error_app1 by (rewrite length_map; exact Hlt).
      rewrite nth_error_map, Hi. reflexivity.
    + intros tgt' Heq. rewrite <- Hins.
      unfold _insert_docstring. rewrite Heq. reflexivity.
Qed.

Lemma indentation_from_current_line_witness :
  valid_in two_defs tgt_g /\
  exists lines',
    _insert_docstring two_defs tgt_g "doc" = Ok lines' /\
    nth_error lines' 5 = Some "        doc".
Proof.
  assert (Hv : valid_in two_defs tgt_g) by (unfold valid_in; simpl; lia).
  split; [exact Hv|].
  destruct (proj2 (indentation_from_current_line two_defs tgt_g "doc") Hv)
    as [def_line [lines' [Hnth [Hins [Hpre _]]]]].
  exists lines'. split; [exact Hins|].
  injection Hnth as <-.
  apply (Hpre O "doc"). reflexivity.
Defined.

(* ===================================================================== *)
(** * The pattern of [signature] *)
(* ===================================================================== *)

Module ReFacts.
Import Re.

Lemma lits_intro (p : string) (k : regex) :
  forall s rest prev p2 s2,
    after_prefix p s = Some rest ->
    matches k (last_of p prev) rest p2 s2 ->
    matches (lits p k) prev s p2 s2.
Proof.
  induction p as [|c p IH]; intros s rest prev p2 s2 Hpre Hk.
  - cbn in Hpre. injection Hpre as ->. exact Hk.
  - destruct s as [|b s]; cbn in Hpre; [discriminate|].
    destruct (Ascii.eqb_spec c b) as [<-|]; [|discriminate].
    cbn [lits]. eapply M_Seq; [apply M_Lit|].
    eapply IH; eauto.
Qed.

Lemma lits_inv (p : string) (k : regex) :
  forall s prev p2 s2,
    matches (lits p k) prev s p2 s2 ->
    exists rest,
      after_prefix p s = Some rest /\ matches k (last_of p prev) rest p2 s2.
Proof.
  induction p as [|c p IH]; intros s prev p2 s2 Hm.
  - exists s. split; [reflexivity | exact Hm].
  - cbn [lits] in Hm. inversion Hm as [| |r1 r2 q0 t0 q1 t1 q2 t2 H1 H2| | | | | |]; subst.
    inversion H1; subst.
    destruct (IH _ _ _ _ H2) as [rest [Hpre Hk]].
    exists rest. split; [|exact Hk].
    cbn [after_prefix]. rewrite Ascii.eqb_refl. exact Hpre.
Qed.

Lemma star_cls_intro (s : string) :
  forall prev, exists prev',
    matches (Star (Cls PyStr.is_space)) prev s prev' (PyStr.lstrip s).
Proof.
  induction s as [|c s IH]; intros prev.
  - exists prev. apply M_Star_stop.
  - cbn [PyStr.lstrip]. destruct (PyStr.is_space c) eqn:Ec.
    + destruct (IH (Some c)) as [prev' Hm]. exists prev'.
      eapply M_Star_more; [apply M_Cls; exact Ec | exact Hm].
    + exists prev. apply M_Star_stop.
Qed.

Lemma star_cls_inv (f : ascii -> bool) (r : regex) prev s prev' s' :
  matches r prev s prev' s' -> r = Star (Cls f) -> drops f s s'.
Proof.
  induction 1 as [| | |r0 q t|r0 q0 t0 q1 t1 q2 t2 H1 _ H2 IH2| | | |];
    intros Hr; try discriminate.
  - apply drops_here.
  - injection Hr as ->. inversion H1; subst.
    apply drops_next; [assumption|]. apply IH2. reflexivity.
Qed.

Lemma drops_lstrip (s s' : string) :
  drops PyStr.is_space s s' -> starts_outside PyStr.is_space s' ->
  PyStr.lstrip s = s'.
Proof.
  induction 1 as [s|c s s' Hc _ IH]; intros Hout.
  - destruct s as [|c s]; [reflexivity|].
    cbn in Hout. cbn [PyStr.lstrip]. rewrite Hout. reflexivity.
  - cbn [PyStr.lstrip]. rewrite Hc. apply IH. exact Hout.
Qed.

Lemma after_prefix_starts (p s rest : string) (c : ascii) (p' : string) :
  p = String c p' -> after_prefix p s = Some rest ->
  exists s', s = String c s'.
Proof.
  intros -> H. destruct s as [|b s]; cbn in H; [discriminate|].
  destruct (Ascii.eqb_spec c b) as [<-|]; [|discriminate].
  eexists. reflexivity.
Qed.

Lemma def_at_intro (s : string) (prev : option ascii) :
  at_def s = true -> exists p2 s2, matches (lits "def" WordB) prev s p2 s2.
Proof.
  unfold at_def. destruct (after_prefix "def" s) as [rest|] eqn:Hpre;
    [|discriminate].
  intros Hb. exists (Some "f"%char), rest.
  eapply lits_intro; [exact Hpre|].
  cbn [last_of]. apply M_WordB.
  apply negb_true_iff in Hb. rewrite Hb. reflexivity.
Qed.

Lemma def_at_inv (s : string) (prev p2 : option ascii) (s2 : string) :
  matches (lits "def" WordB) prev s p2 s2 ->
  at_def s = true /\ exists s', s = String "d" s'.
Proof.
  intros Hm. destruct (lits_inv _ _ _ _ _ _ Hm) as [rest [Hpre Hw]].
  split.
  - unfold at_def. rewrite Hpre. cbn [last_of] in Hw.
    inversion Hw as [| | | | | | | |q t Hx]; subst.
    change (is_word_opt (Some "f"%char)) with true in Hx.
    cbn [xorb] in Hx. exact Hx.
  - eapply after_prefix_starts; [reflexivity | exact Hpre].
Qed.

(** The matcher of the embedding decides the pattern of the source. *)
Lemma match_def_correct (line : string) :
  match_def line = true <-> re_match def_pattern line.
Proof.
  unfold match_def, re_match, def_pattern. split.
  - intros H. destruct (star_cls_intro line None) as [p1 Hstar].
    apply orb_true_iff in H. destruct H as [H|H].
    + destruct (def_at_intro _ p1 H) as [p2 [s2 Hdef]].
      exists p2, s2. eapply M_Seq; [exact Hstar|].
      eapply M_Seq; [apply M_Opt_skip | exact Hdef].
    + destruct (after_prefix "async" (PyStr.lstrip line)) as [rest|] eqn:Hpre;
        [|discriminate].
      destruct rest as [|c rest]; [discriminate|].
      apply andb_true_iff in H. destruct H as [Hc Hdef].
      cbn [PyStr.lstrip] in Hdef. rewrite Hc in Hdef.
      destruct (star_cls_intro rest (Some c)) as [p3 Hstar2].
      destruct (def_at_intro _ p3 Hdef) as [p2 [s2 Hd]].
      exists p2, s2. eapply M_Seq; [exact Hstar|].
      eapply M_Seq; [|exact Hd].
      apply M_Opt_take. eapply lits_intro; [exact Hpre|].
      eapply M_Plus; [apply M_Cls; exact Hc | exact Hstar2].
  - intros [p2 [s2 Hm]].
    inversion Hm as [| |r1 r2 q0 t0 q1 t1 q2 t2 Hstar Hrest| | | | | |]; subst.
    pose proof (star_cls_inv _ _ _ _ _ _ Hstar eq_refl) as Hdrops.
    inversion Hrest as [| |r1 r2 q0 t0 q3 t3 q4 t4 Hopt Hdef| | | | | |]; subst.
    inversion Hopt as [| | | | | |r q t|r q0 t0 q5 t5 Hasync|]; subst.
    + destruct (def_at_inv _ _ _ _ Hdef) as [Hat [s' ->]].
      rewrite (drops_lstrip _ _ Hdrops) by reflexivity.
      rewrite Hat. reflexivity.
    + destruct (lits_inv "async" (Plus (Cls PyStr.is_space)) _ _ _ _ Hasync)
        as [rest [Hpre Hplus]].
      destruct (after_prefix_starts _ _ _ _ _ eq_refl Hpre) as [s' ->].
      rewrite (drops_lstrip _ _ Hdrops) by reflexivity.
      rewrite Hpre. apply orb_true_iff. right.
      inversion Hplus as [| | | | |r q0 t0 q6 t6 q7 t7 Hcls Hstar2| | |]; subst.
      inversion Hcls as [|f c q t Hc| | | | | | |]; subst.
      rewrite Hc. cbn [andb PyStr.lstrip]. rewrite Hc.
      pose proof (star_cls_inv _ _ _ _ _ _ Hstar2 eq_refl) as Hdrops2.
      destruct (def_at_inv _ _ _ _ Hdef) as [Hat [s'' ->]].
      rewrite (drops_lstrip _ _ Hdrops2) by reflexivity.
      exact Hat.
Qed.

Lemma match_def_false (line : string) :
  match_def line = false <-> ~ re_match def_pattern line.
Proof.
  split; intros H.
  - intros Hm. apply match_def_correct in Hm. congruence.
  - destruct (match_def line) eqn:E; [|reflexivity].
    exfalso. apply H. apply match_def_correct. exact E.
Qed.

End ReFacts.

(* ===================================================================== *)
(** * Signature derivation *)
(* ===================================================================== *)

Lemma find_def_line_none (lines : list string) :
  Forall (fun line => Re.match_def line = false) lines ->
  find_def_line lines = ([], []).
Proof.
  induction 1 as [|line lines Hline _ IH]; cbn [find_def_line].
  - reflexivity.
  - rewrite Hline. exact IH.
Qed.

Lemma find_def_line_some (lines : list string) :
  Exists (fun line => Re.match_def line = true) lines ->
  exists skipped line it,
    lines = skipped ++ line :: it /\
    Forall (fun l => Re.match_def l = false) skipped /\
    Re.match_def line = true /\
    find_def_line lines = ([PyStr.rstrip line], it).
Proof.
  induction lines as [|l lines IH]; intros Hex.
  - inversion Hex.
  - cbn [find_def_line]. destruct (Re.match_def l) eqn:El.
    + exists [], l, lines. repeat split; auto.
    + assert (Hex' : Exists (fun line => Re.match_def line = true) lines).
      { inversion Hex as [? ? Hl|? ? Hl]; subst; [congruence | exact Hl]. }
      destruct (IH Hex') as [skipped [line [it [Heq [Hsk [Hm Hfind]]]]]].
      exists (l :: skipped), line, it. repeat split; auto.
      cbn [app]. f_equal. exact Heq.
Qed.

(** Once a line matches, [signature] returns: the header line found, then
    whatever the second loop takes from the lines after it. *)
Lemma signature_of_def_line (tgt : Target) (skipped : list string)
    (line : string) (it : list string) :
  PyStr.splitlines (src tgt) = skipped ++ line :: it ->
  Forall (fun l => Re.match_def l = false) skipped ->
  Re.match_def line = true ->
  signature tgt
  = Ok (PyStr.join PyStr.NL (PyStr.rstrip line :: grab_until_colon it)).
Proof.
  intros Hsplit Hsk Hm. unfold signature. rewrite Hsplit.
  assert (Hfind : find_def_line (skipped ++ line :: it) = ([PyStr.rstrip line], it)).
  { clear Hsplit. induction Hsk as [|l skipped Hl _ IH]; cbn [app find_def_line].
    - rewrite Hm. reflexivity.
    - rewrite Hl. exact IH. }
  rewrite Hfind. reflexivity.
Qed.

(** ** C4 *)

(** C4 fails on the code.  The second loop of [signature] takes the lines
    after the [def] line without looking at whether the [def] line itself
    already ends with a colon: for a header of one line followed by a body
    that has no line ending in a colon, the result is the whole source, body
    included, where the claim (and the docstring of [signature]) promise the
    header alone. *)
Theorem signature_one_line_header_includes_body :
  Re.match_def "def f(x):" = true /\
  PyStr.endswith (PyStr.rstrip "def f(x):") ":" = true /\
  signature one_line_header
  = Ok (lines_text ["def f(x):"; "    y = x + 1"; "    return y"]) /\
  signature one_line_header <> Ok "def f(x):".
Proof.
  repeat split; try reflexivity. discriminate.
Qed.

(** The other half of C4 holds on the same code: a wrapped parameter list
    gives the header lines up to the one that ends with a colon, and no body
    line. *)
Lemma signature_wrapped_header :
  signature wrapped_header = Ok (lines_text ["def f("; "    a,"; "    b,"; "):"]).
Proof. reflexivity. Qed.

(** In general a header of one line is followed in the result by the next
    line of the source, whatever it is. *)
Lemma signature_takes_next_line (tgt : Target) (line next : string) (it : list string) :
  PyStr.splitlines (src tgt) = line :: next :: it ->
  Re.match_def line = true ->
  exists more,
    signature tgt
    = Ok (PyStr.join PyStr.NL (PyStr.rstrip line :: PyStr.rstrip next :: more)).
Proof.
  intros Hsplit Hm.
  rewrite (signature_of_def_line tgt [] line (next :: it) Hsplit (Forall_nil _) Hm).
  cbn [grab_until_colon]. eexists. reflexivity.
Qed.

(** ** C5 *)

(** C5, as stated, fails: a source with a [def] line and no line ending with
    a colon makes [signature] return, not raise. *)
Lemma signature_without_colon_returns :
  Forall (fun line => PyStr.endswith (PyStr.rstrip line) ":" = false)
         (PyStr.splitlines (src header_without_colon)) /\
  signature header_without_colon = Ok "def f(x): return x" /\
  ~ (exists e, signature header_without_colon = Raise e).
Proof.
  split; [|split].
  - repeat constructor.
  - reflexivity.
  - intros [e He]. discriminate He.
Qed.

(** C5, amended.  [signature] raises [ValueError] exactly when no line of the
    source text matches the pattern [\s*(async\s+)?def\b]; as soon as one line
    matches it returns a value, whether or not any line ends with a colon. *)
Theorem signature_raises_iff_no_def_line (tgt : Target) :
  (Forall (fun line => ~ Re.re_match Re.def_pattern line)
          (PyStr.splitlines (src tgt)) ->
   signature tgt = Raise (ValueError "No function header found in src"))
  /\
  (Exists (fun line => Re.re_match Re.def_pattern line)
          (PyStr.splitlines (src tgt)) ->
   exists header, signature tgt = Ok header).
Proof.
  split; intros H.
  - unfold signature. rewrite find_def_line_none; [reflexivity|].
    eapply Forall_impl; [|exact H].
    intros line Hl. apply ReFacts.match_def_false. exact Hl.
  - assert (Hex : Exists (fun line => Re.match_def line = true)
                         (PyStr.splitlines (src tgt))).
    { eapply Exists_impl; [|exact H].
      intros line Hl. apply ReFacts.match_def_correct. exact Hl. }
    destruct (find_def_line_some _ Hex) as [skipped [line [it [Heq [Hsk [Hm _]]]]]].
    rewrite (signature_of_def_line tgt skipped line it Heq Hsk Hm).
    eexists. reflexivity.
Qed.

Lemma signature_raises_iff_no_def_line_witness :
  signature no_header = Raise (ValueError "No function header found in src") /\
  exists header, signature header_without_colon = Ok header.
Proof.
  split.
  - apply (proj1 (signature_raises_iff_no_def_line no_header)).
    assert (Hs : PyStr.splitlines (src no_header)
                 = ["@decorator"; "define = 1"; "x = lambda: 0"])
      by (vm_compute; reflexivity).
    rewrite Hs.
    repeat constructor; apply ReFacts.match_def_false; vm_compute; reflexivity.
  - apply (proj2 (signature_raises_iff_no_def_line header_without_colon)).
    assert (Hs : PyStr.splitlines (src header_without_colon)
                 = ["def f(x): return x"]) by (vm_compute; reflexivity).
    rewrite Hs.
    constructor. apply ReFacts.match_def_correct. vm_compute. reflexivity.
Defined.

(* ===================================================================== *)
(** * The extractor *)
(* ===================================================================== *)

Section ExtractorFacts.
Variable ast_parse : string -> result Ast.node.
Variable cleandoc : string -> string.

Lemma find_syntax_error (source file_path : string) :
  ast_parse source = Raise SyntaxError ->
  find_missing_docstrings ast_parse cleandoc source file_path = Ok [].
Proof.
  intros H. unfold find_missing_docstrings. rewrite H. reflexivity.
Qed.

Lemma scan_files_skips (before after : list (string * string))
    (file source : string) :
  find_missing_docstrings ast_parse cleandoc source file = Ok [] ->
  scan_files ast_parse cleandoc (before ++ (file, source) :: after)
  = scan_files ast_parse cleandoc (before ++ after).
Proof.
  intros H. induction before as [|[f t] before IH]; cbn [app scan_files].
  - rewrite H. cbn [rbind].
    destruct (scan_files ast_parse cleandoc after); reflexivity.
  - rewrite IH. reflexivity.
Qed.

(** ** C6 *)

(** C6.  When [ast.parse] raises [SyntaxError] on the text of a file, the
    extractor returns the empty list and raises nothing; a scan over many
    files therefore gives what it gives without that file. *)
Theorem syntax_error_yields_no_targets
    (source file : string) (before after : list (string * string)) :
  ast_parse source = Raise SyntaxError ->
  find_missing_docstrings ast_parse cleandoc source file = Ok [] /\
  scan_files ast_parse cleandoc (before ++ (file, source) :: after)
  = scan_files ast_parse cleandoc (before ++ after).
Proof.
  intros H. pose proof (find_syntax_error source file H) as Hfind.
  split; [exact Hfind|]. apply scan_files_skips. exact Hfind.
Qed.

End ExtractorFacts.

Lemma syntax_error_yields_no_targets_witness :
  sample_parse broken_source = Raise SyntaxError /\
  find_missing_docstrings sample_parse (fun s => s) broken_source "bad.py" = Ok [] /\
  scan_files sample_parse (fun s => s)
    ([("a.py", good_source)] ++ ("bad.py", broken_source) :: [("b.py", good_source)])
  = scan_files sample_parse (fun s => s)
      ([("a.py", good_source)] ++ [("b.py", good_source)]).
Proof.
  assert (H : sample_parse broken_source = Raise SyntaxError) by reflexivity.
  split; [exact H|].
  apply (syntax_error_yields_no_targets sample_parse (fun s => s)
           broken_source "bad.py" [("a.py", good_source)] [("b.py", good_source)] H).
Defined.

(** ** C7 *)

(** C7 fails on the code.  A coroutine function definition is an
    [AsyncFunctionDef] node, which is not an instance of [FunctionDef]: the
    extractor returns no target for it, although its body has no docstring
    and although the pattern of [signature] provides for the [async]
    qualifier. *)
Theorem async_function_is_not_extracted
    (ast_parse : string -> result Ast.node) (cleandoc : string -> string)
    (file_path : string) :
  ast_parse async_source = Ok async_tree ->
  Ast.get_docstring cleandoc
    (Ast.AsyncFunctionDef "fetch" (Ast.Other [Ast.Other []])
       [Ast.Other [Ast.Other []]] [] None 1 2) = Ok None /\
  find_missing_docstrings ast_parse cleandoc async_source file_path = Ok [].
Proof.
  intros H. split; [reflexivity|].
  unfold find_missing_docstrings. rewrite H. reflexivity.
Qed.

Lemma async_function_is_not_extracted_witness :
  async_parse async_source = Ok async_tree /\
  find_missing_docstrings async_parse (fun s => s) async_source "m.py" = Ok [].
Proof.
  assert (H : async_parse async_source = Ok async_tree) by reflexivity.
  split; [exact H|].
  apply (async_function_is_not_extracted async_parse (fun s => s) "m.py" H).
Defined.

(** ** C8 *)

(** C8 fails on the code.  The extractor takes the start line of a function
    from the parser, and [main] uses it as an index into the lines of
    [str.splitlines], which ends a line at a form feed too.  In a module with
    a page break before the function the line at that index is not the [def]
    line: the documentation of [f], delimited as it is, is spliced under
    [class A:], the text written back parses, the string is the docstring of
    the class, and scanning that text gives a target for [f] again. *)
Theorem round_trip_fails_after_page_break
    (ast_parse : string -> result Ast.node) (cleandoc : string -> string)
    (file_path : string) :
  ast_parse page_break_source = Ok page_break_tree ->
  ast_parse page_break_written = Ok page_break_written_tree ->
  let tgt := mkTarget file_path 4 "f" (lines_text ["class A:"; "    def f(self):"]) in
  find_missing_docstrings ast_parse cleandoc page_break_source file_path = Ok [tgt] /\
  delimited page_break_doc = true /\
  nth_error (PyStr.splitlines page_break_source) (Z.to_nat (lineno tgt - 1))
  = Some "class A:" /\
  update_file page_break_source [(tgt, page_break_doc)] = Ok page_break_written /\
  Ast.get_docstring cleandoc
    (Ast.ClassDef "A" [] []
       [Ast.Expr (Ast.Constant (Ast.CStr "Return one."));
        Ast.FunctionDef "f" (Ast.Other [Ast.Other []])
          [Ast.Other [Ast.Constant Ast.CNotStr]] [] None 7 8]
       [] 4 8) = Ok (Some (cleandoc "Return one.")) /\
  find_missing_docstrings ast_parse cleandoc page_break_written file_path
  = Ok [mkTarget file_path 7 "f" (lines_text ["    def f(self):"; "        return 1"])].
Proof.
  intros Hsource Hwritten. cbv zeta.
  assert (Hlines : PyStr.splitlines page_break_source
                   = ["import os"; ""; ""; "class A:"; "    def f(self):";
                      "        return 1"])
    by (vm_compute; reflexivity).
  assert (Hlines' : PyStr.splitlines page_break_written
                    = ["import os"; ""; ""; "class A:"; "    " +s+ page_break_doc; "";
                       "    def f(self):"; "        return 1"])
    by (vm_compute; reflexivity).
  split; [|split; [|split; [|split; [|split]]]].
  - unfold find_missing_docstrings. rewrite Hsource, Hlines. reflexivity.
  - vm_compute. reflexivity.
  - rewrite Hlines. reflexivity.
  - unfold update_file. rewrite Hlines. vm_compute. reflexivity.
  - reflexivity.
  - unfold find_missing_docstrings. rewrite Hwritten, Hlines'. reflexivity.
Qed.

Lemma round_trip_fails_after_page_break_witness :
  page_break_parse page_break_source = Ok page_break_tree /\
  page_break_parse page_break_written = Ok page_break_written_tree /\
  exists tgt,
    find_missing_docstrings page_break_parse (fun s => s) page_break_source "m.py"
    = Ok [tgt] /\
    update_file page_break_source [(tgt, page_break_doc)] = Ok page_break_written /\
    find_missing_docstrings page_break_parse (fun s => s) page_break_written "m.py"
    = Ok [mkTarget "m.py" 7 "f" (lines_text ["    def f(self):"; "        return 1"])].
Proof.
  assert (H1 : page_break_parse page_break_source = Ok page_break_tree)
    by (vm_compute; reflexivity).
  assert (H2 : page_break_parse page_break_written = Ok page_break_written_tree)
    by (vm_compute; reflexivity).
  split; [exact H1|]. split; [exact H2|].
  destruct (round_trip_fails_after_page_break page_break_parse (fun s => s) "m.py"
              H1 H2) as [Hscan [_ [_ [Hup [_ Hagain]]]]].
  eexists. split; [exact Hscan|]. split; [exact Hup | exact Hagain].
Defined.

(** What holds of the extractor on [FunctionDef] nodes. *)

Module AstFacts.
Import Ast.

Lemma walk_queue_spec (todo : list node) (m : node) :
  In m (walk_queue todo) <-> exists n, In n todo /\ reach n m.
Proof.
  funelim (walk_queue todo).
  - simp walk_queue. split; [intros [] | intros [n [[] _]]].
  - simp walk_queue. cbn [In]. rewrite H. split.
    + intros [<-|[n' [Hin Hr]]].
      * exists n. split; [left; reflexivity | apply reach_self].
      * apply in_app_or in Hin. destruct Hin as [Hin|Hin].
        -- exists n'. split; [right; exact Hin | exact Hr].
        -- exists n. split; [left; reflexivity|].
           eapply reach_child; eauto.
    + intros [n' [[<-|Hin] Hr]].
      * inversion Hr as [|? c ? Hc Hcm]; subst.
        -- left. reflexivity.
        -- right. exists c. split; [apply in_or_app; right; exact Hc | exact Hcm].
      * right. exists n'. split; [apply in_or_app; left; exact Hin | exact Hr].
Qed.

(** [ast.walk] yields every node of the tree, at any depth. *)
Lemma walk_spec (tree m : node) : In m (walk tree) <-> reach tree m.
Proof.
  unfold walk. rewrite walk_queue_spec. split.
  - intros [n [[<-|[]] Hr]]. exact Hr.
  - intros Hr. exists tree. split; [left; reflexivity | exact Hr].
Qed.

End AstFacts.

Module SortFacts.
Section Sorted.
Context {A : Type} (key : A -> Z) (reverse : bool).

Lemma insert_sorted_perm (x : A) (l : list A) :
  Permutation (PyList.insert_sorted key reverse x l) (x :: l).
Proof.
  induction l as [|y l IH]; cbn [PyList.insert_sorted].
  - apply Permutation_refl.
  - destruct (PyList.goes_before key reverse x y).
    + apply Permutation_refl.
    + eapply Permutation_trans; [apply perm_skip; exact IH | apply perm_swap].
Qed.

Lemma sorted_perm (l : list A) : Permutation (PyList.sorted key reverse l) l.
Proof.
  induction l as [|x l IH]; cbn [PyList.sorted fold_right].
  - apply Permutation_refl.
  - eapply Permutation_trans; [apply insert_sorted_perm|].
    apply perm_skip. exact IH.
Qed.

Lemma goes_before_true (x y : A) :
  PyList.goes_before key reverse x y = true -> in_order key reverse x y.
Proof.
  unfold PyList.goes_before, in_order. destruct reverse; intros H; lia.
Qed.

Lemma goes_before_false (x y : A) :
  PyList.goes_before key reverse x y = false -> in_order key reverse y x.
Proof.
  unfold PyList.goes_before, in_order. destruct reverse; intros H; lia.
Qed.

Lemma in_order_trans (x y z : A) :
  in_order key reverse x y -> in_order key reverse y z -> in_order key reverse x z.
Proof.
  unfold in_order. destruct reverse; lia.
Qed.

Lemma insert_sorted_sorted (x : A) (l : list A) :
  StronglySorted (in_order key reverse) l ->
  StronglySorted (in_order key reverse) (PyList.insert_sorted key reverse x l).
Proof.
  induction 1 as [|y l Hs IH Hall]; cbn [PyList.insert_sorted].
  - repeat constructor.
  - destruct (PyList.goes_before key reverse x y) eqn:E.
    + constructor; [constructor; assumption|].
      apply goes_before_true in E. constructor; [exact E|].
      eapply Forall_impl; [|exact Hall].
      intros z Hz. eapply in_order_trans; eauto.
    + constructor; [exact IH|].
      apply goes_before_false in E.
      eapply Permutation_Forall; [apply Permutation_sym, insert_sorted_perm|].
      constructor; assumption.
Qed.

Lemma sorted_sorted (l : list A) :
  StronglySorted (in_order key reverse) (PyList.sorted key reverse l).
Proof.
  induction l as [|x l IH]; cbn [PyList.sorted fold_right].
  - constructor.
  - apply insert_sorted_sorted. exact IH.
Qed.

End Sorted.
End SortFacts.

(** The loop of [main] sorts the pairs of a file itself, so it runs in
    the order that C1 asks for whenever the start lines are distinct. *)




(** Two undocumented functions, [f] then [g], both answered: each gets its
    documentation right after its header, at its own depth. *)
Example update_file_two_targets :
  update_file (lines_text two_defs) [(tgt_f, "F"); (tgt_g, "G")]
  = Ok (lines_text
          ["def f(x):"; "    F"; ""; "    return x"; "";
           "class A:"; "    def g(self):"; "        G"; ""; "        return 1"]
        +s+ PyStr.NL).
Proof. reflexivity. Qed.

Section ExtractorOnDefs.
Variable ast_parse : string -> result Ast.node.
Variable cleandoc : string -> string.

Lemma collect_targets_spec (lines : list string) (file_path : string)
    (nodes : list Ast.node) :
  collect_targets cleandoc lines file_path nodes
  = Ok (flat_map (target_of lines file_path) nodes).
Proof.
  induction nodes as [|n nodes IH]; cbn [collect_targets flat_map].
  - reflexivity.
  - rewrite IH. destruct n as [body|nm a body decos rt ln eln|nm a body decos rt ln eln
                               |nm bases kws body decos ln eln|v|c|cs];
      try reflexivity.
    cbn [Ast.get_docstring rbind target_of].
    destruct body as [|[| | | |v| |] body']; try reflexivity.
    destruct v as [| | | | |[t|]|]; reflexivity.
Qed.

(** On a text that parses, the extractor raises nothing, its list is in
    ascending order of start line, and it holds one target for every
    [FunctionDef] node of the tree, at any depth, whose body does not start
    with a string constant. *)
Lemma find_missing_docstrings_on_defs (source file_path : string) (tree : Ast.node) :
  ast_parse source = Ok tree ->
  exists targets,
    find_missing_docstrings ast_parse cleandoc source file_path = Ok targets /\
    StronglySorted (fun a b => lineno a <= lineno b) targets /\
    forall n t,
      reach tree n ->
      In t (target_of (PyStr.splitlines source) file_path n) ->
      In t targets.
Proof.
  intros Hparse. unfold find_missing_docstrings. rewrite Hparse.
  rewrite collect_targets_spec. cbn [rbind].
  eexists. split; [reflexivity|]. split.
  - apply (SortFacts.sorted_sorted lineno false).
  - intros n t Hreach Ht.
    eapply Permutation_in; [apply Permutation_sym, SortFacts.sorted_perm|].
    apply in_flat_map. exists n. split; [|exact Ht].
    apply AstFacts.walk_spec. exact Hreach.
Qed.

End ExtractorOnDefs.

(* ===================================================================== *)
(** * The interactive session *)
(* ===================================================================== *)

Module StrFacts.

Lemma append_assoc (a b c : string) : (a +s+ b) +s+ c = a +s+ (b +s+ c).
Proof.
  induction a as [|x a IH]; simpl; [reflexivity | f_equal; exact IH].
Qed.

Lemma prefix_append (p x : string) : String.prefix p (p +s+ x) = true.
Proof.
  induction p as [|c p IH]; simpl.
  - destruct x; reflexivity.
  - destruct (Ascii.ascii_dec c c) as [_|Hne]; [exact IH | congruence].
Qed.

Lemma endswith_append (x p : string) : PyStr.endswith (x +s+ p) p = true.
Proof.
  induction x as [|c x IH].
  - cbn [String.append].
    destruct p; cbn [PyStr.endswith]; rewrite String.eqb_refl; reflexivity.
  - cbn [String.append PyStr.endswith].
    destruct (String.eqb (String c (x +s+ p)) p); [reflexivity | exact IH].
Qed.

(** Wrapping any text in the delimiters gives a delimited text. *)
Lemma delimited_wrap (text : string) :
  delimited (TQ +s+ PyStr.NL +s+ text +s+ PyStr.NL +s+ TQ) = true.
Proof.
  unfold delimited, PyStr.startswith. rewrite prefix_append. cbn [andb].
  rewrite <- !append_assoc. apply endswith_append.
Qed.

End StrFacts.

Lemma normalized_delimited (text : string) : delimited (normalized text) = true.
Proof.
  unfold normalized. destruct (delimited text) eqn:E; [exact E|].
  apply StrFacts.delimited_wrap.
Qed.

Lemma edit_docstring_normalizes (initial : string) (w w' : World) (doc : string) :
  _edit_docstring initial w = Done doc w' ->
  exists text, entered_text w = Ok text /\ doc = normalized text.
Proof.
  unfold _edit_docstring, bind, _edit_with_editor, _inline_multiline, ret,
    entered_text, normalized.
  destruct (editor w) as [|[[content|]|e] more]; cbn.
  - destruct (read_until_blank (stdin w)) as [[lines rest]|e]; cbn; [|discriminate].
    intros H. injection H as <- _. eexists. split; [reflexivity|].
    destruct (delimited _); reflexivity.
  - intros H. injection H as <- _. eexists. split; [reflexivity|].
    destruct (delimited _); reflexivity.
  - destruct (read_until_blank (stdin w)) as [[lines rest]|e]; cbn; [|discriminate].
    intros H. injection H as <- _. eexists. split; [reflexivity|].
    destruct (delimited _); reflexivity.
  - discriminate.
Qed.

Lemma Target_eqb_refl (t : Target) : Target_eqb t t = true.
Proof.
  unfold Target_eqb. rewrite !String.eqb_refl, Z.eqb_refl. reflexivity.
Qed.

Lemma get_set_same (results : results_t) (tgt : Target) (v : option string) :
  PyDict.get Target_eqb (PyDict.set Target_eqb results tgt v) tgt = Some v.
Proof.
  induction results as [|[k v'] results IH]; cbn [PyDict.set PyDict.get].
  - rewrite Target_eqb_refl. reflexivity.
  - destruct (Target_eqb k tgt) eqn:E; cbn [PyDict.get]; rewrite E;
      [reflexivity | exact IH].
Qed.

Lemma prompt_ok (valid : list ascii) (w : World) (c : ascii) (rest : list string) :
  prompt_lines valid (stdin w) = Ok (c, rest) ->
  _prompt valid w = Done c (with_stdin w rest).
Proof.
  intros H. unfold _prompt. rewrite H. reflexivity.
Qed.

(** ** C9 *)



(** ** C10 *)

(** C10.  When the generator returns [output] and the operator answers [a]
    to the review, the loop records [output.strip()] for the target as it
    is, delimited or not, and goes on to the next target; so does the whole
    loop body after the answer [g] to the first prompt.  The insertion later
    splices the lines of that very text, behind the indentation, into the
    buffer. *)
Theorem accepted_suggestion_is_recorded_verbatim
    (show_body : bool) (tgt : Target) (results : results_t) (fuel : nat)
    (w : World) (output : string) (more : list (result string))
    (rest1 rest2 : list string) (snippet : string) (lines : list string) :
  (if show_body then Ok (src tgt) else signature tgt) = Ok snippet ->
  prompt_lines ["g"; "m"; "s"; "q"]%char (stdin w) = Ok ("g"%char, rest1) ->
  llm w = Ok output :: more ->
  prompt_lines ["a"; "r"; "e"; "s"; "q"]%char rest1 = Ok ("a"%char, rest2) ->
  valid_in lines tgt ->
  let recorded := PyStr.strip output in
  let results' := PyDict.set Target_eqb results tgt (Some recorded) in
  review_loop (S fuel) tgt results (with_stdin w rest1)
  = Done (NextTarget, results') (mkWorld rest2 (editor w) more) /\
  negotiate show_body tgt results w
  = Done (NextTarget, results') (mkWorld rest2 (editor w) more) /\
  PyDict.get Target_eqb results' tgt = Some (Some recorded) /\
  exists def_line,
    _insert_docstring lines tgt recorded
    = Ok (spliced lines (Z.to_nat (lineno tgt))
            (map (fun ln => indent_spaces_of def_line +s+ ln)
                 (PyStr.splitlines recorded) ++ [""])).
Proof.
  intros Hsnip Hg Hllm Ha Hv recorded results'.
  assert (Hloop : forall n, review_loop (S n) tgt results (with_stdin w rest1)
                  = Done (NextTarget, results') (mkWorld rest2 (editor w) more)).
  { intros n. cbn [review_loop]. unfold bind, _generate_docstring.
    cbn [llm with_stdin]. rewrite Hllm.
    unfold _prompt. cbn [stdin with_llm with_stdin]. rewrite Ha. reflexivity. }
  split; [apply Hloop|]. split; [|split].
  - unfold negotiate, bind, lift. rewrite Hsnip.
    rewrite (prompt_ok _ _ _ _ Hg). cbn [is_key Ascii.eqb Bool.eqb].
    apply Hloop.
  - apply get_set_same.
  - destruct (insert_docstring_valid lines tgt recorded Hv) as [def_line [_ Hins]].
    exists def_line. rewrite Hins, PyFacts.indent_spaces_spec. reflexivity.
Qed.

Lemma accepted_suggestion_is_recorded_verbatim_witness :
  negotiate true tgt_f [] accepting_world
  = Done (NextTarget, [(tgt_f, Some "Add one to x.")]) (mkWorld [] [] []) /\
  delimited "Add one to x." = false /\
  exists def_line,
    _insert_docstring two_defs tgt_f "Add one to x."
    = Ok (spliced two_defs 1
            (map (fun ln => indent_spaces_of def_line +s+ ln)
                 (PyStr.splitlines "Add one to x.") ++ [""])).
Proof.
  assert (Hv : valid_in two_defs tgt_f) by (unfold valid_in; simpl; lia).
  pose proof (accepted_suggestion_is_recorded_verbatim true tgt_f [] O
                accepting_world "  Add one to x.  " [] ["a"] [] (src tgt_f) two_defs
                eq_refl eq_refl eq_refl eq_refl Hv) as [_ [Hneg [_ Hins]]].
  split; [exact Hneg|]. split; [reflexivity | exact Hins].
Defined.

(** The bound on the [while True] loop is never reached: the session always
    returns or raises. *)
Lemma prompt_lines_shorter (valid : list ascii) (lines : list string)
    (c : ascii) (rest : list string) :
  prompt_lines valid lines = Ok (c, rest) ->
  (List.length rest < List.length lines)%nat.
Proof.
  induction lines as [|line lines IH]; cbn [prompt_lines]; [discriminate|].
  intros H. cbn [List.length].
  destruct (PyStr.lower (PyStr.strip line)) as [|k _].
  - specialize (IH H). lia.
  - destruct (existsb (Ascii.eqb k) valid).
    + injection H as _ <-. lia.
    + specialize (IH H). lia.
Qed.

Lemma edit_docstring_has_fuel (initial : string) (w : World) :
  _edit_docstring initial w <> OutOfFuel.
Proof.
  unfold _edit_docstring, bind, _edit_with_editor, _inline_multiline, ret.
  destruct (editor w) as [|[[content|]|e] more]; cbn; try discriminate;
    destruct (read_until_blank (stdin w)) as [[lines rest]|e]; discriminate.
Qed.

Lemma review_loop_has_fuel (fuel : nat) :
  forall tgt results w,
    (List.length (stdin w) < fuel)%nat ->
    review_loop fuel tgt results w <> OutOfFuel.
Proof.
  induction fuel as [|fuel IH]; intros tgt results w Hlen; [lia|].
  cbn [review_loop]. unfold bind, _generate_docstring.
  assert (Hstep : forall valid w1 c w2,
             stdin w1 = stdin w ->
             _prompt valid w1 = Done c w2 ->
             review_loop fuel tgt results w2 <> OutOfFuel).
  { intros valid w1 c w2 Hs Hp. apply IH. unfold _prompt in Hp.
    destruct (prompt_lines valid (stdin w1)) as [[c' rest]|e] eqn:E;
      [|discriminate].
    injection Hp as _ <-. cbn [stdin with_stdin].
    apply prompt_lines_shorter in E. rewrite Hs in E. lia. }
  destruct (llm w) as [|[output|e] more].
  - cbn [is_Exception].
    destruct (_prompt _ w) as [c w2| |] eqn:Hp; try discriminate.
    + destruct (is_key c "r"); [eapply Hstep; [reflexivity | exact Hp]|].
      destruct (is_key c "s"); discriminate.
    + unfold _prompt in Hp. destruct (prompt_lines _ _) as [[? ?]|]; discriminate.
  - destruct (_prompt _ (with_llm w more)) as [c w2| |] eqn:Hp; try discriminate.
    + destruct (is_key c "a"); [discriminate|].
      destruct (is_key c "e").
      { unfold bind. pose proof (edit_docstring_has_fuel (PyStr.strip output) w2).
        destruct (_edit_docstring (PyStr.strip output) w2); congruence || discriminate. }
      destruct (is_key c "s"); [discriminate|].
      destruct (is_key c "q"); [discriminate|].
      eapply Hstep; [|exact Hp]. reflexivity.
    + unfold _prompt in Hp. destruct (prompt_lines _ _) as [[? ?]|]; discriminate.
  - destruct (is_Exception e); [|discriminate].
    destruct (_prompt _ (with_llm w more)) as [c w2| |] eqn:Hp; try discriminate.
    + destruct (is_key c "r"); [eapply Hstep; [|exact Hp]; reflexivity|].
      destruct (is_key c "s"); discriminate.
    + unfold _prompt in Hp. destruct (prompt_lines _ _) as [[? ?]|]; discriminate.
Qed.

Lemma negotiate_has_fuel (show_body : bool) (tgt : Target) (results : results_t)
    (w : World) :
  negotiate show_body tgt results w <> OutOfFuel.
Proof.
  unfold negotiate, bind, lift.
  destruct (if show_body then Ok (src tgt) else signature tgt); [|discriminate].
  destruct (_prompt _ w) as [c w1| |] eqn:Hp; try discriminate.
  - destruct (is_key c "q"); [discriminate|].
    destruct (is_key c "s"); [discriminate|].
    destruct (is_key c "m").
    + pose proof (edit_docstring_has_fuel "" w1).
      destruct (_edit_docstring "" w1); congruence || discriminate.
    + apply review_loop_has_fuel. lia.
  - unfold _prompt in Hp. destruct (prompt_lines _ _) as [[? ?]|]; discriminate.
Qed.

Lemma interactive_session_returns_or_raises (targets : list Target)
    (show_body : bool) (w : World) :
  _interactive_session targets show_body w <> OutOfFuel.
Proof.
  unfold _interactive_session. generalize (@nil (Target * option string)).
  revert w. induction targets as [|tgt targets IH]; intros w results.
  - discriminate.
  - cbn [session_from]. unfold bind.
    pose proof (negotiate_has_fuel show_body tgt results w) as Hn.
    destruct (negotiate show_body tgt results w) as [[fl results'] w'| |];
      [|discriminate|congruence].
    cbn [fst snd]. destruct fl; [apply IH | discriminate].
Qed.

(* ===================================================================== *)
(** * More on the insertion engine *)
(* ===================================================================== *)

Lemma getitem_from_end {A} (l : list A) (i : Z) :
  - Z.of_nat (List.length l) <= i < 0 ->
  exists x, nth_error l (Z.to_nat (i + Z.of_nat (List.length l))) = Some x /\
            PyList.getitem l i = Ok x.
Proof.
  intros H. unfold PyList.getitem.
  destruct (Z.ltb_spec i 0) as [_|Hpos]; [|lia].
  destruct (Z.leb_spec 0 (i + Z.of_nat (List.length l))) as [_|Hneg]; [|lia].
  destruct (Z.ltb_spec (i + Z.of_nat (List.length l)) (Z.of_nat (List.length l)))
    as [_|Hbig]; [|lia].
  cbn [andb].
  destruct (nth_error l (Z.to_nat (i + Z.of_nat (List.length l)))) as [x|] eqn:E.
  - exists x. split; reflexivity.
  - apply nth_error_None in E. lia.
Qed.

Lemma getitem_below {A} (l : list A) (i : Z) :
  i < - Z.of_nat (List.length l) -> PyList.getitem l i = Raise IndexError.
Proof.
  intros H. unfold PyList.getitem.
  destruct (Z.ltb_spec i 0) as [_|Hpos]; [|lia].
  destruct (Z.leb_spec 0 (i + Z.of_nat (List.length l))) as [Hge|_]; [lia|].
  reflexivity.
Qed.

Lemma setslice_length {A} (l : list A) (k : Z) (new : list A) :
  List.length (PyList.setslice l k k new) = (List.length l + List.length new)%nat.
Proof.
  unfold PyList.setslice. rewrite Nat.max_id, !length_app.
  rewrite length_firstn, length_skipn.
  pose proof (PyFacts.clip_le (List.length l) k). lia.
Qed.

(** X1.  The insertion succeeds exactly when [tgt.lineno - 1] is an index
    that Python accepts for the buffer, that is when
    [1 - len(lines) <= tgt.lineno <= len(lines)]; it then adds the lines of
    [doc] and one more.  Outside this range, and so on every empty buffer,
    it raises [IndexError]. *)
Theorem insert_docstring_succeeds_iff
    (lines : list string) (tgt : Target) (doc : string) :
  (1 - Z.of_nat (List.length lines) <= lineno tgt <= Z.of_nat (List.length lines) ->
   exists lines',
     _insert_docstring lines tgt doc = Ok lines' /\
     List.length lines' = (List.length lines + added_lines doc)%nat)
  /\
  (~ (1 - Z.of_nat (List.length lines) <= lineno tgt <= Z.of_nat (List.length lines)) ->
   _insert_docstring lines tgt doc = Raise IndexError).
Proof.
  split; intros H.
  - assert (Hget : exists def_line,
               PyList.getitem lines (lineno tgt - 1) = Ok def_line).
    { destruct (Z.ltb_spec (lineno tgt - 1) 0) as [Hneg|Hpos].
      - destruct (getitem_from_end lines (lineno tgt - 1)) as [x [_ Hx]]; [lia|].
        exists x. exact Hx.
      - destruct (PyFacts.getitem_inside lines (lineno tgt - 1)) as [x [_ Hx]]; [lia|].
        exists x. exact Hx. }
    destruct Hget as [def_line Hget].
    unfold _insert_docstring. rewrite Hget. cbn [rbind].
    eexists. split; [reflexivity|].
    rewrite setslice_length, length_app, length_map. unfold added_lines.
    cbn [List.length]. lia.
  - unfold _insert_docstring.
    destruct (Z.ltb_spec (lineno tgt - 1) (- Z.of_nat (List.length lines))) as [Hlow|Hnot].
    + rewrite getitem_below by exact Hlow. reflexivity.
    + rewrite PyFacts.getitem_beyond by lia. reflexivity.
Qed.

Lemma insert_docstring_succeeds_iff_witness :
  (exists lines',
      _insert_docstring two_defs tgt_g "doc" = Ok lines' /\
      List.length lines' = (List.length two_defs + added_lines "doc")%nat) /\
  _insert_docstring two_defs stale_tgt "doc" = Raise IndexError.
Proof.
  split.
  - apply (proj1 (insert_docstring_succeeds_iff two_defs tgt_g "doc")).
    simpl. lia.
  - apply (proj2 (insert_docstring_succeeds_iff two_defs stale_tgt "doc")).
    simpl. lia.
Defined.

Lemma spliced_nth_after (lines : list string) (k i : nat) (block : list string) :
  (k <= i)%nat -> (k <= List.length lines)%nat ->
  nth_error (spliced lines k block) (i + List.length block) = nth_error lines i.
Proof.
  intros Hki Hk. unfold spliced.
  rewrite nth_error_app2 by (rewrite length_firstn; lia).
  rewrite length_firstn, Nat.min_l by lia.
  rewrite nth_error_app2 by lia.
  rewrite nth_error_skipn. f_equal. lia.
Qed.

Lemma spliced_skipn_after (lines : list string) (k j : nat) (block : list string) :
  (k <= j)%nat -> (k <= List.length lines)%nat ->
  skipn (j + List.length block) (spliced lines k block) = skipn j lines.
Proof.
  intros Hkj Hk. unfold spliced.
  rewrite skipn_app, length_firstn, Nat.min_l by lia.
  rewrite (skipn_all2 (firstn k lines)) by (rewrite length_firstn; lia).
  cbn [app]. rewrite skipn_app.
  rewrite (skipn_all2 block) by lia. cbn [app].
  rewrite skipn_skipn. f_equal. lia.
Qed.

Lemma doc_block_length (prefix doc : string) :
  List.length (doc_block prefix doc) = added_lines doc.
Proof.
  unfold doc_block, added_lines. rewrite length_app, length_map. cbn. lia.
Qed.

(** X2.  On a valid target the insertion moves every line from the start
    line on down by exactly the number of lines added, and taking the added
    lines out again gives the buffer back: no line of the file is lost,
    repeated or reordered. *)
Theorem insert_docstring_shifts_later_lines
    (lines : list string) (tgt : Target) (doc : string) :
  valid_in lines tgt ->
  exists lines',
    _insert_docstring lines tgt doc = Ok lines' /\
    (forall i, (Z.to_nat (lineno tgt) <= i)%nat ->
               nth_error lines' (i + added_lines doc) = nth_error lines i) /\
    firstn (Z.to_nat (lineno tgt)) lines'
    ++ skipn (Z.to_nat (lineno tgt) + added_lines doc) lines' = lines.
Proof.
  intros Hv. pose proof Hv as [Hlo Hhi].
  destruct (insert_docstring_valid lines tgt doc Hv) as [def_line [_ Hins]].
  eexists. split; [exact Hins|].
  set (block := doc_block (leading_whitespace def_line +s+ indent_unit) doc).
  assert (Hlen : List.length block = added_lines doc) by apply doc_block_length.
  split.
  - intros i Hi. rewrite <- Hlen. apply spliced_nth_after; lia.
  - rewrite <- Hlen, spliced_firstn by lia.
    rewrite spliced_skipn_after by lia. apply firstn_skipn.
Qed.

Lemma insert_docstring_shifts_later_lines_witness :
  valid_in two_defs tgt_g /\
  exists lines',
    _insert_docstring two_defs tgt_g "doc" = Ok lines' /\
    nth_error lines' (5 + added_lines "doc") = Some "        return 1".
Proof.
  assert (Hv : valid_in two_defs tgt_g) by (unfold valid_in; simpl; lia).
  split; [exact Hv|].
  destruct (insert_docstring_shifts_later_lines two_defs tgt_g "doc" Hv)
    as [lines' [Hins [Hshift _]]].
  exists lines'. split; [exact Hins|].
  rewrite (Hshift 5%nat); [reflexivity | simpl; lia].
Defined.

Lemma insert_each_app (tds1 tds2 : list (Target * string)) :
  forall buf,
    insert_each buf (tds1 ++ tds2)
    = (buf1 <- insert_each buf tds1 ;; insert_each buf1 tds2).
Proof.
  induction tds1 as [|[tgt doc] tds1 IH]; intros buf; cbn [app insert_each rbind].
  - reflexivity.
  - destruct (_insert_docstring buf tgt doc) as [buf'|e]; cbn [rbind];
      [apply IH | reflexivity].
Qed.

(** A run of insertions at or above line [j] moves what follows line [j]
    down by the growth of the run, and leaves it otherwise as it was. *)
Lemma insert_each_moves_tail (tds : list (Target * string)) :
  forall buf j,
    Forall (fun p => valid_in buf (fst p)) tds ->
    Forall (fun p => (Z.to_nat (lineno (fst p)) <= j)%nat) tds ->
    exists final,
      insert_each buf tds = Ok final /\
      skipn (j + growth tds) final = skipn j buf.
Proof.
  induction tds as [|[tgt doc] rest IH]; intros buf j Hvalid Hle.
  - exists buf. split; [reflexivity|].
    unfold growth. cbn. rewrite Nat.add_0_r. reflexivity.
  - apply Forall_cons_iff in Hvalid. destruct Hvalid as [Hv Hrest].
    apply Forall_cons_iff in Hle. destruct Hle as [Hj Hjrest].
    cbn [fst] in Hv, Hj. pose proof Hv as [Hlo Hhi].
    destruct (insert_docstring_valid buf tgt doc Hv) as [def_line [_ Hins]].
    set (block := doc_block (leading_whitespace def_line +s+ indent_unit) doc) in *.
    assert (Hblock : List.length block = added_lines doc) by apply doc_block_length.
    destruct (IH (spliced buf (Z.to_nat (lineno tgt)) block) (j + added_lines doc)%nat)
      as [final [Hrun Htail]].
    + eapply Forall_impl; [|exact Hrest].
      intros p Hp. eapply valid_in_longer; [|exact Hp].
      rewrite spliced_length. lia.
    + eapply Forall_impl; [|exact Hjrest]. intros p Hp. cbn beta in *. lia.
    + exists final. split.
      * cbn [insert_each]. rewrite Hins. cbn [rbind]. exact Hrun.
      * change (growth ((tgt, doc) :: rest))
          with (added_lines doc + growth rest)%nat.
        rewrite Nat.add_assoc, Htail, <- Hblock.
        apply spliced_skipn_after; lia.
Qed.

Lemma skipn_last_of_firstn {A} (l : list A) (k : nat) (x : A) :
  nth_error l k = Some x -> skipn k (firstn (S k) l) = [x].
Proof.
  revert k. induction l as [|a l IH]; intros k H.
  - destruct k; discriminate.
  - destruct k as [|k]; cbn in *.
    + injection H as ->. reflexivity.
    + apply IH. exact H.
Qed.

(** Where a run in descending order leaves the block of each pair. *)
Lemma placement_in_descending_run
    (lines : list string) (done pending : list (Target * string))
    (tgt : Target) (doc : string) :
  descending (done ++ (tgt, doc) :: pending) ->
  Forall (fun p => valid_in lines (fst p)) (done ++ (tgt, doc) :: pending) ->
  exists final def_line,
    insert_each lines (done ++ (tgt, doc) :: pending) = Ok final /\
    nth_error lines (Z.to_nat (lineno tgt - 1)) = Some def_line /\
    firstn (S (added_lines doc))
           (skipn (Z.to_nat (lineno tgt - 1) + growth pending) final)
    = def_line :: doc_block (leading_whitespace def_line +s+ indent_unit) doc.
Proof.
  intros Hdesc Hall.
  pose proof Hall as Hall0.
  apply Forall_app in Hall. destruct Hall as [Hdone Hrest].
  apply Forall_cons_iff in Hrest. destruct Hrest as [Hv Hpend]. cbn [fst] in Hv.
  pose proof Hv as [Hlo Hhi].
  destruct (insert_each_keeps_head done lines Hdone) as [buf [Hrun [Hlen Hhead]]].
  assert (Hk : firstn (Z.to_nat (lineno tgt)) buf = firstn (Z.to_nat (lineno tgt)) lines).
  { apply Hhead. rewrite Forall_forall. intros q Hq.
    pose proof (descending_app_lt done ((tgt, doc) :: pending) Hdesc q (tgt, doc) Hq
                  (or_introl eq_refl)) as Hlt.
    cbn [fst] in Hlt. lia. }
  assert (Hvb : valid_in buf tgt) by (eapply valid_in_longer; eauto).
  destruct (insert_docstring_valid buf tgt doc Hvb) as [def_line [Hnth Hins]].
  assert (Hnth0 : nth_error lines (Z.to_nat (lineno tgt - 1)) = Some def_line).
  { rewrite <- Hnth. symmetry.
    apply (firstn_nth_error _ _ (Z.to_nat (lineno tgt))); [exact Hk | lia]. }
  set (block := doc_block (leading_whitespace def_line +s+ indent_unit) doc) in *.
  assert (Hblock : List.length block = added_lines doc) by apply doc_block_length.
  set (buf1 := spliced buf (Z.to_nat (lineno tgt)) block) in *.
  assert (Hdesc' : descending ((done ++ [(tgt, doc)]) ++ pending)).
  { rewrite <- app_assoc. exact Hdesc. }
  destruct (insert_each_moves_tail pending buf1 (Z.to_nat (lineno tgt - 1)))
    as [final [Hrun2 Htail]].
  - eapply Forall_impl; [|exact Hpend].
    intros p Hp. eapply valid_in_longer; [|exact Hp].
    unfold buf1. rewrite spliced_length. lia.
  - rewrite Forall_forall. intros p Hp.
    assert (Hin : In (tgt, doc) (done ++ [(tgt, doc)])).
    { apply in_or_app. right. left. reflexivity. }
    pose proof (descending_app_lt (done ++ [(tgt, doc)]) pending Hdesc' (tgt, doc) p
                  Hin Hp) as Hlt.
    cbn [fst] in Hlt.
    rewrite Forall_forall in Hpend. pose proof (Hpend p Hp) as [Hplo _]. lia.
  - exists final, def_line. split; [|split; [exact Hnth0|]].
    + rewrite insert_each_app, Hrun. cbn [rbind insert_each].
      rewrite Hins. cbn [rbind]. exact Hrun2.
    + rewrite Htail. unfold buf1, spliced.
      replace (Z.to_nat (lineno tgt)) with (S (Z.to_nat (lineno tgt - 1))) by lia.
      rewrite skipn_app.
      rewrite (skipn_last_of_firstn buf _ def_line Hnth).
      rewrite length_firstn.
      replace (Z.to_nat (lineno tgt - 1)
               - Nat.min (S (Z.to_nat (lineno tgt - 1))) (List.length buf))%nat
        with O by (unfold valid_in in Hvb; lia).
      cbn [skipn app firstn]. f_equal.
      rewrite <- Hblock, firstn_app, firstn_all, Nat.sub_diag. cbn [firstn].
      apply app_nil_r.
Qed.

(** X3.  After a whole run in strictly descending order of start line, on
    targets that are valid in the buffer, every documentation stands right
    under its own [def] line, with the indentation of that line: the [def]
    line of a target is found at its original index plus the growth of the
    insertions made above it in the file (those for smaller start lines),
    and is followed by the block of its documentation. *)
Theorem each_docstring_lands_under_its_def
    (lines : list string) (done pending : list (Target * string))
    (tgt : Target) (doc : string) :
  descending (done ++ (tgt, doc) :: pending) ->
  Forall (fun p => valid_in lines (fst p)) (done ++ (tgt, doc) :: pending) ->
  exists final def_line,
    insert_each lines (done ++ (tgt, doc) :: pending) = Ok final /\
    nth_error lines (Z.to_nat (lineno tgt - 1)) = Some def_line /\
    firstn (S (added_lines doc))
           (skipn (Z.to_nat (lineno tgt - 1) + growth pending) final)
    = def_line :: doc_block (leading_whitespace def_line +s+ indent_unit) doc.
Proof.
  apply placement_in_descending_run.
Qed.

Lemma each_docstring_lands_under_its_def_witness :
  exists final,
    insert_each two_defs ([] ++ (tgt_g, "G") :: [(tgt_f, "F")]) = Ok final /\
    firstn (S (added_lines "G")) (skipn (4 + growth [(tgt_f, "F")]) final)
    = ["    def g(self):"; "        G"; ""].
Proof.
  assert (Hd : descending ([] ++ (tgt_g, "G") :: [(tgt_f, "F")])).
  { unfold descending. simpl. repeat constructor. }
  assert (Hv : Forall (fun p => valid_in two_defs (fst p))
                      ([] ++ (tgt_g, "G") :: [(tgt_f, "F")])).
  { repeat constructor; unfold valid_in; simpl; lia. }
  destruct (each_docstring_lands_under_its_def two_defs [] [(tgt_f, "F")] tgt_g "G" Hd Hv)
    as [final [def_line [Hrun [Hnth Hblock]]]].
  exists final. split; [exact Hrun|].
  injection Hnth as <-. exact Hblock.
Defined.

Lemma spliced_nth_block (lines : list string) (k i : nat) (block : list string) :
  (k <= List.length lines)%nat -> (i < List.length block)%nat ->
  nth_error (spliced lines k block) (k + i) = nth_error block i.
Proof.
  intros Hk Hi. unfold spliced.
  rewrite nth_error_app2 by (rewrite length_firstn; lia).
  rewrite length_firstn, Nat.min_l by lia.
  replace (k + i - k)%nat with i by lia.
  apply nth_error_app1. exact Hi.
Qed.

(** X4.  The order matters.  When two targets valid in the buffer are
    inserted in ascending order of start line, the second insertion still
    goes to the recorded start line of its target, while the [def] line of
    that target has moved down by the lines added for the first: the
    documentation of the second target ends up above its [def] line. *)
Theorem ascending_order_misplaces
    (lines : list string) (p q : Target) (dp dq : string) :
  valid_in lines p -> valid_in lines q -> lineno p < lineno q ->
  exists final,
    insert_each lines [(p, dp); (q, dq)] = Ok final /\
    (forall i ln,
        nth_error (PyStr.splitlines dq) i = Some ln ->
        exists prefix,
          nth_error final (Z.to_nat (lineno q) + i) = Some (prefix +s+ ln)) /\
    nth_error final (Z.to_nat (lineno q - 1) + added_lines dp + added_lines dq)
    = nth_error lines (Z.to_nat (lineno q - 1)) /\
    (Z.to_nat (lineno q) + List.length (PyStr.splitlines dq)
     < Z.to_nat (lineno q - 1) + added_lines dp + added_lines dq)%nat.
Proof.
  intros Hp Hq Hlt. pose proof Hp as [Hplo Hphi]. pose proof Hq as [Hqlo Hqhi].
  destruct (insert_docstring_valid lines p dp Hp) as [def_p [_ Hins_p]].
  set (bp := doc_block (leading_whitespace def_p +s+ indent_unit) dp) in *.
  assert (Hbp : List.length bp = added_lines dp) by apply doc_block_length.
  set (b1 := spliced lines (Z.to_nat (lineno p)) bp) in *.
  assert (Hq1 : valid_in b1 q).
  { eapply valid_in_longer; [|exact Hq]. unfold b1. rewrite spliced_length. lia. }
  destruct (insert_docstring_valid b1 q dq Hq1) as [line_q [_ Hins_q]].
  set (bq := doc_block (leading_whitespace line_q +s+ indent_unit) dq) in *.
  assert (Hbq : List.length bq = added_lines dq) by apply doc_block_length.
  exists (spliced b1 (Z.to_nat (lineno q)) bq).
  assert (Hlen1 : (Z.to_nat (lineno q) <= List.length b1)%nat)
    by (unfold valid_in in Hq1; lia).
  split; [|split; [|split]].
  - cbn [insert_each]. rewrite Hins_p. cbn [rbind]. rewrite Hins_q. reflexivity.
  - intros i ln Hi.
    assert (Hi' : (i < List.length (PyStr.splitlines dq))%nat)
      by (apply nth_error_Some; congruence).
    exists (leading_whitespace line_q +s+ indent_unit).
    rewrite spliced_nth_block; [|exact Hlen1|unfold added_lines in Hbq; lia].
    unfold bq, doc_block.
    rewrite nth_error_app1 by (rewrite length_map; exact Hi').
    rewrite nth_error_map, Hi. reflexivity.
  - assert (Hpos : (1 <= added_lines dp)%nat) by (unfold added_lines; lia).
    rewrite <- Hbq, spliced_nth_after by lia.
    rewrite <- Hbp. unfold b1. apply spliced_nth_after; lia.
  - unfold added_lines. lia.
Qed.

Lemma ascending_order_misplaces_witness :
  exists final,
    insert_each two_defs [(tgt_f, "F"); (tgt_g, "G")] = Ok final /\
    nth_error final (4 + added_lines "F" + added_lines "G")
    = Some "    def g(self):" /\
    nth_error final 5 = Some "    G".
Proof.
  assert (Hf : valid_in two_defs tgt_f) by (unfold valid_in; simpl; lia).
  assert (Hg : valid_in two_defs tgt_g) by (unfold valid_in; simpl; lia).
  assert (Hlt : lineno tgt_f < lineno tgt_g) by (simpl; lia).
  destruct (ascending_order_misplaces two_defs tgt_f tgt_g "F" "G" Hf Hg Hlt)
    as [final [Hrun [_ [Hdef _]]]].
  exists final. split; [exact Hrun|]. split; [exact Hdef|].
  assert (Hfinal : insert_each two_defs [(tgt_f, "F"); (tgt_g, "G")]
                   = Ok ["def f(x):"; "    F"; ""; "    return x"; "";
                         "    G"; ""; "class A:"; "    def g(self):";
                         "        return 1"]) by reflexivity.
  rewrite Hfinal in Hrun. injection Hrun as <-. reflexivity.
Defined.

(* ===================================================================== *)
(** * Writing a buffer and reading it again *)
(* ===================================================================== *)

Module LineFacts.

Lemma splitlines_from_no_linebreak (s : string) :
  forall after_cr,
    Forall (fun l => no_linebreak l = true) (PyStr.splitlines_from after_cr s).
Proof.
  induction s as [|c s IH]; intros after_cr; cbn [PyStr.splitlines_from].
  - constructor.
  - destruct (after_cr && Ascii.eqb c PyStr.LF); [apply IH|].
    destruct (PyStr.is_linebreak c) eqn:Ec.
    + constructor; [reflexivity | apply IH].
    + pose proof (IH false) as Hrest.
      destruct (PyStr.splitlines_from false s) as [|l ls].
      * constructor; [|constructor]. cbn. rewrite Ec. reflexivity.
      * apply Forall_cons_iff in Hrest. destruct Hrest as [Hl Hls].
        constructor; [|exact Hls]. cbn [no_linebreak]. rewrite Ec, Hl. reflexivity.
Qed.

Lemma splitlines_no_linebreak (s : string) :
  Forall (fun l => no_linebreak l = true) (PyStr.splitlines s).
Proof. apply splitlines_from_no_linebreak. Qed.

Lemma splitlines_line_then_feed (l rest : string) :
  no_linebreak l = true ->
  PyStr.splitlines_from false (l +s+ String PyStr.LF rest)
  = l :: PyStr.splitlines_from false rest.
Proof.
  induction l as [|c l IH]; intros Hl.
  - reflexivity.
  - cbn [no_linebreak] in Hl. apply andb_true_iff in Hl. destruct Hl as [Hc Hl].
    apply negb_true_iff in Hc.
    cbn [String.append PyStr.splitlines_from andb]. rewrite Hc, (IH Hl).
    reflexivity.
Qed.

(** Lines without line boundaries, joined by line feeds and closed by one,
    split into the same lines again. *)
Lemma splitlines_join (ls : list string) :
  ls <> [] ->
  Forall (fun l => no_linebreak l = true) ls ->
  PyStr.splitlines (PyStr.join PyStr.NL ls +s+ PyStr.NL) = ls.
Proof.
  unfold PyStr.splitlines, PyStr.join, PyStr.NL.
  induction ls as [|x ls IH]; intros Hne Hall; [congruence|].
  apply Forall_cons_iff in Hall. destruct Hall as [Hx Hls].
  destruct ls as [|y ls].
  - cbn [String.concat]. rewrite splitlines_line_then_feed by exact Hx.
    reflexivity.
  - cbn [String.concat]. cbn [String.concat] in IH.
    rewrite StrFacts.append_assoc.
    change (String PyStr.LF "" +s+ ?r) with (String PyStr.LF r).
    cbn [String.append].
    rewrite splitlines_line_then_feed by exact Hx.
    f_equal. apply IH; [discriminate | exact Hls].
Qed.

Lemma no_linebreak_append (a b : string) :
  no_linebreak a = true -> no_linebreak b = true -> no_linebreak (a +s+ b) = true.
Proof.
  induction a as [|c a IH]; intros Ha Hb; cbn [String.append no_linebreak] in *.
  - exact Hb.
  - apply andb_true_iff in Ha. destruct Ha as [Hc Ha].
    rewrite Hc, (IH Ha Hb). reflexivity.
Qed.

Lemma no_linebreak_leading_whitespace (s : string) :
  no_linebreak s = true -> no_linebreak (leading_whitespace s) = true.
Proof.
  induction s as [|c s IH]; intros H; cbn [leading_whitespace no_linebreak] in *.
  - reflexivity.
  - apply andb_true_iff in H. destruct H as [Hc Hs].
    destruct (PyStr.is_space c); [|reflexivity].
    cbn [no_linebreak]. rewrite Hc, (IH Hs). reflexivity.
Qed.

Lemma getitem_in {A} (l : list A) (i : Z) (x : A) :
  PyList.getitem l i = Ok x -> In x l.
Proof.
  unfold PyList.getitem. destruct (_ && _); [|discriminate].
  destruct (nth_error l _) as [y|] eqn:E; [|discriminate].
  intros H. injection H as <-. eapply nth_error_In. exact E.
Qed.

Lemma Forall_firstn {A} (P : A -> Prop) (n : nat) (l : list A) :
  Forall P l -> Forall P (firstn n l).
Proof.
  revert n. induction l as [|a l IH]; intros n H.
  - rewrite firstn_nil. constructor.
  - destruct n as [|n]; [constructor|].
    apply Forall_cons_iff in H. destruct H as [Ha Hl].
    cbn [firstn]. constructor; [exact Ha | apply IH; exact Hl].
Qed.

Lemma Forall_skipn {A} (P : A -> Prop) (n : nat) (l : list A) :
  Forall P l -> Forall P (skipn n l).
Proof.
  revert n. induction l as [|a l IH]; intros n H.
  - rewrite skipn_nil. constructor.
  - destruct n as [|n]; [exact H|].
    apply Forall_cons_iff in H. destruct H as [_ Hl].
    cbn [skipn]. apply IH. exact Hl.
Qed.

Lemma insert_docstring_no_linebreak (lines lines' : list string)
    (tgt : Target) (doc : string) :
  Forall (fun l => no_linebreak l = true) lines ->
  _insert_docstring lines tgt doc = Ok lines' ->
  Forall (fun l => no_linebreak l = true) lines'.
Proof.
  intros Hall Hins. unfold _insert_docstring in Hins.
  destruct (PyList.getitem lines (lineno tgt - 1)) as [def_line|e] eqn:Hget;
    [|discriminate].
  cbn [rbind] in Hins. injection Hins as <-.
  assert (Hdef : no_linebreak def_line = true).
  { rewrite Forall_forall in Hall. apply Hall. eapply getitem_in. exact Hget. }
  unfold PyList.setslice.
  apply Forall_app. split; [apply Forall_firstn; exact Hall|].
  apply Forall_app. split; [|apply Forall_skipn; exact Hall].
  apply Forall_app. split; [|repeat constructor].
  apply Forall_map. eapply Forall_impl; [|apply (splitlines_no_linebreak doc)].
  intros ln Hln. cbn beta. apply no_linebreak_append; [|exact Hln].
  rewrite PyFacts.indent_spaces_spec.
  apply no_linebreak_append; [|reflexivity].
  apply no_linebreak_leading_whitespace. exact Hdef.
Qed.

Lemma insert_each_no_linebreak (tds : list (Target * string)) :
  forall lines lines',
    Forall (fun l => no_linebreak l = true) lines ->
    insert_each lines tds = Ok lines' ->
    Forall (fun l => no_linebreak l = true) lines' /\
    (List.length lines <= List.length lines')%nat /\
    (tds <> [] -> lines' <> []).
Proof.
  induction tds as [|[tgt doc] rest IH]; intros lines lines' Hall Hrun.
  - cbn in Hrun. injection Hrun as <-.
    split; [exact Hall|]. split; [lia|]. intros H. congruence.
  - cbn [insert_each] in Hrun.
    destruct (_insert_docstring lines tgt doc) as [lines1|e] eqn:Hins;
      [|discriminate].
    cbn [rbind] in Hrun.
    pose proof (insert_docstring_no_linebreak _ _ _ _ Hall Hins) as Hall1.
    destruct (IH _ _ Hall1 Hrun) as [Hres [Hlen _]].
    assert (Hgrow : List.length lines1 = (List.length lines + added_lines doc)%nat).
    { unfold _insert_docstring in Hins.
      destruct (PyList.getitem lines (lineno tgt - 1)); [|discriminate].
      cbn [rbind] in Hins. injection Hins as <-.
      rewrite setslice_length, length_app, length_map. unfold added_lines.
      cbn [List.length]. lia. }
    unfold added_lines in Hgrow.
    repeat split; [exact Hres | lia |].
    intros _ ->. cbn [List.length] in Hlen. lia.
Qed.

End LineFacts.

(** X5.  What [main] writes for a file, read and split again, is exactly the
    buffer after the insertions: every line of the file and of the inserted
    documentation comes back as one line.  The text written ends with a line
    feed. *)
Theorem written_text_splits_into_the_buffer
    (text text' : string) (td_list : list (Target * string)) :
  td_list <> [] ->
  update_file text td_list = Ok text' ->
  exists buf,
    insert_each (PyStr.splitlines text) (bottom_up td_list) = Ok buf /\
    PyStr.splitlines text' = buf /\
    PyStr.endswith text' PyStr.NL = true.
Proof.
  intros Hne Hrun. unfold update_file in Hrun.
  destruct (insert_each (PyStr.splitlines text) (bottom_up td_list)) as [buf|e] eqn:E;
    [|discriminate].
  cbn [rbind] in Hrun. injection Hrun as <-.
  exists buf. split; [reflexivity|].
  destruct (LineFacts.insert_each_no_linebreak _ _ _
              (LineFacts.splitlines_no_linebreak text) E) as [Hall [_ Hnonempty]].
  split; [|apply StrFacts.endswith_append].
  apply LineFacts.splitlines_join; [|exact Hall].
  apply Hnonempty. intros Hnil. apply Hne.
  apply Permutation_nil. rewrite <- Hnil.
  apply SortFacts.sorted_perm.
Qed.

Lemma written_text_splits_into_the_buffer_witness :
  exists text',
    update_file (lines_text two_defs) [(tgt_f, "F"); (tgt_g, "G")] = Ok text' /\
    PyStr.splitlines text'
    = ["def f(x):"; "    F"; ""; "    return x"; "";
       "class A:"; "    def g(self):"; "        G"; ""; "        return 1"].
Proof.
  assert (Hne : [(tgt_f, "F"); (tgt_g, "G")] <> []) by discriminate.
  assert (Hrun : update_file (lines_text two_defs) [(tgt_f, "F"); (tgt_g, "G")]
                 = Ok (lines_text
                         ["def f(x):"; "    F"; ""; "    return x"; "";
                          "class A:"; "    def g(self):"; "        G"; "";
                          "        return 1"] +s+ PyStr.NL)) by reflexivity.
  eexists. split; [exact Hrun|].
  destruct (written_text_splits_into_the_buffer _ _ _ Hne Hrun)
    as [buf [Hbuf [Hsplit _]]].
  rewrite Hsplit.
  assert (Hb : insert_each (PyStr.splitlines (lines_text two_defs))
                 (bottom_up [(tgt_f, "F"); (tgt_g, "G")])
               = Ok ["def f(x):"; "    F"; ""; "    return x"; "";
                     "class A:"; "    def g(self):"; "        G"; "";
                     "        return 1"]) by reflexivity.
  rewrite Hb in Hbuf. injection Hbuf as <-. reflexivity.
Defined.

(* ===================================================================== *)
(** * Grouping and writing back *)
(* ===================================================================== *)

Module GroupFacts.

Lemma group_add_paths (grouped : list (string * list (Target * string)))
    (tgt : Target) (doc : string) (path : string) :
  In path (map fst (group_add grouped tgt doc)) <->
  path = filepath tgt \/ In path (map fst grouped).
Proof.
  induction grouped as [|[p tds] grouped IH]; cbn [group_add map fst In].
  - intuition congruence.
  - destruct (String.eqb_spec p (filepath tgt)) as [->|Hne]; cbn [map fst In].
    + intuition congruence.
    + rewrite IH. intuition congruence.
Qed.

Lemma group_add_well (grouped : list (string * list (Target * string)))
    (tgt : Target) (doc : string) :
  well_grouped grouped -> well_grouped (group_add grouped tgt doc).
Proof.
  unfold well_grouped.
  induction grouped as [|[p tds] grouped IH]; intros [Hnd Hall];
    cbn [group_add].
  - split.
    + cbn. constructor; [intros [] | constructor].
    + constructor; [|constructor]. cbn [fst snd].
      split; [discriminate|]. constructor; [reflexivity | constructor].
  - cbn [map fst] in Hnd. apply NoDup_cons_iff in Hnd. destruct Hnd as [Hnotin Hnd].
    apply Forall_cons_iff in Hall. destruct Hall as [[Hne Hsame] Hall].
    cbn [fst snd] in *.
    destruct (String.eqb_spec p (filepath tgt)) as [->|Hneq].
    + split; [cbn [map fst]; constructor; assumption|].
      constructor; [|exact Hall]. cbn [fst snd]. split.
      * intros H. apply app_eq_nil in H. destruct H as [_ H]. discriminate.
      * apply Forall_app. split; [exact Hsame|]. repeat constructor.
    + destruct (IH (conj Hnd Hall)) as [Hnd' Hall'].
      split; [|constructor; [split; assumption | exact Hall']].
      cbn [map fst]. constructor; [|exact Hnd'].
      rewrite group_add_paths. intros [H|H]; [congruence | contradiction].
Qed.

Lemma group_add_perm (grouped : list (string * list (Target * string)))
    (tgt : Target) (doc : string) :
  Permutation (List.concat (map snd (group_add grouped tgt doc)))
              ((tgt, doc) :: List.concat (map snd grouped)).
Proof.
  induction grouped as [|[p tds] grouped IH]; cbn [group_add].
  - apply Permutation_refl.
  - destruct (String.eqb p (filepath tgt)); cbn [map snd List.concat].
    + rewrite <- app_assoc. cbn [app].
      apply Permutation_sym, Permutation_middle.
    + eapply Permutation_trans; [apply Permutation_app_head; exact IH|].
      apply Permutation_sym, Permutation_middle.
Qed.

Lemma group_fold (accepted_map : results_t) :
  forall grouped,
    well_grouped grouped ->
    let grouped' :=
      fold_left (fun grouped item =>
                   match snd item with
                   | None => grouped
                   | Some doc => group_add grouped (fst item) doc
                   end) accepted_map grouped in
    well_grouped grouped' /\
    Permutation (List.concat (map snd grouped'))
                (List.concat (map snd grouped) ++ accepted_pairs accepted_map).
Proof.
  induction accepted_map as [|[tgt [doc|]] rest IH]; intros grouped Hwell;
    cbn [fold_left snd fst accepted_pairs flat_map].
  - split; [exact Hwell|]. rewrite app_nil_r. apply Permutation_refl.
  - destruct (IH _ (group_add_well grouped tgt doc Hwell)) as [Hw Hperm].
    split; [exact Hw|].
    eapply Permutation_trans; [exact Hperm|].
    eapply Permutation_trans;
      [apply Permutation_app_tail; apply group_add_perm|].
    cbn [app]. apply Permutation_middle.
  - cbn [app]. apply IH. exact Hwell.
Qed.

Lemma read_store_same (fs : files) (path text : string) :
  read_file (store fs path text) path = Ok text.
Proof.
  induction fs as [|[p old] fs IH]; cbn [store read_file].
  - rewrite String.eqb_refl. reflexivity.
  - destruct (String.eqb p path) eqn:E; cbn [read_file]; rewrite E;
      [reflexivity | exact IH].
Qed.

Lemma read_store_other (fs : files) (path path' text : string) :
  path <> path' ->
  read_file (store fs path text) path' = read_file fs path'.
Proof.
  intros Hne. induction fs as [|[p old] fs IH]; cbn [store read_file].
  - destruct (String.eqb_spec path path'); [congruence | reflexivity].
  - destruct (String.eqb_spec p path) as [->|Hp]; cbn [read_file].
    + destruct (String.eqb_spec path path'); [congruence | reflexivity].
    + destruct (String.eqb p path'); [reflexivity | exact IH].
Qed.

Section DiskFacts.
Variable disk : string -> string -> write_end.

(** A call of [write_text] touches no other file. *)
Lemma write_other_files (fs : files) (path path' text : string) :
  path <> path' ->
  read_file (fst (write_file disk fs path text)) path' = read_file fs path'.
Proof.
  intros Hne. unfold write_file.
  destruct (disk path text); cbn [fst];
    [apply read_store_other; exact Hne | reflexivity
     | apply read_store_other; exact Hne].
Qed.

(** The three ways for a call of [write_text] to end. *)
Lemma write_file_ends (fs : files) (path text : string) :
  (disk path text = Written /\
   write_file disk fs path text = (store fs path text, Ok tt)) \/
  (exists e, disk path text = OpenRaises e /\
             write_file disk fs path text = (fs, Raise e)) \/
  (exists e reached, disk path text = WriteRaises e reached /\
                     write_file disk fs path text = (store fs path reached, Raise e)).
Proof.
  unfold write_file. destruct (disk path text) as [|e|e reached].
  - left. split; reflexivity.
  - right. left. exists e. split; reflexivity.
  - right. right. exists e, reached. split; reflexivity.
Qed.

Lemma flush_other_files (grouped : list (string * list (Target * string))) :
  forall fs path,
    ~ In path (map fst grouped) ->
    read_file (fst (flush_grouped disk fs grouped)) path = read_file fs path.
Proof.
  induction grouped as [|[p tds] grouped IH]; intros fs path Hnotin;
    cbn [flush_grouped].
  - reflexivity.
  - cbn [map fst In] in Hnotin.
    destruct (read_file fs p) as [text|e]; [|reflexivity].
    destruct (update_file text tds) as [text'|e]; [|reflexivity].
    assert (Hw : read_file (fst (write_file disk fs p text')) path = read_file fs path)
      by (apply write_other_files; tauto).
    destruct (write_file disk fs p text') as [fs1 [u|e]]; cbn [fst] in *.
    + rewrite IH by tauto. exact Hw.
    + exact Hw.
Qed.

End DiskFacts.

End GroupFacts.

(** X6.  The grouping loop of [main] puts every accepted pair, and only
    those, into the list of its own file: the lists together hold the pairs
    of the map that carry a documentation string, each as often as the map
    does; no list is empty, every list holds targets of one file only, and no
    file has two lists. *)
Theorem group_by_file_partitions (accepted_map : results_t) :
  well_grouped (group_by_file accepted_map) /\
  Permutation (List.concat (map snd (group_by_file accepted_map)))
              (accepted_pairs accepted_map).
Proof.
  assert (Hwell : well_grouped []) by (split; constructor).
  destruct (GroupFacts.group_fold accepted_map [] Hwell) as [Hw Hperm].
  split; [exact Hw | exact Hperm].
Qed.

(** What the loop over the groups leaves in the files. *)
Lemma flush_grouped_spec
    (disk : string -> string -> write_end)
    (fs : files) (grouped : list (string * list (Target * string))) :
  NoDup (map fst grouped) ->
  let fs' := fst (flush_grouped disk fs grouped) in
  let ended := snd (flush_grouped disk fs grouped) in
  (forall path, ~ In path (map fst grouped) ->
                read_file fs' path = read_file fs path) /\
  (forall path td_list,
      In (path, td_list) grouped ->
      read_file fs' path = read_file fs path \/
      exists text text',
        read_file fs path = Ok text /\
        update_file text td_list = Ok text' /\
        ((disk path text' = Written /\ read_file fs' path = Ok text') \/
         (exists e reached,
             disk path text' = WriteRaises e reached /\
             ended = Raise e /\
             read_file fs' path = Ok reached))) /\
  (ended = Ok tt ->
   forall path td_list,
     In (path, td_list) grouped ->
     exists text text',
       read_file fs path = Ok text /\
       update_file text td_list = Ok text' /\
       disk path text' = Written /\
       read_file fs' path = Ok text').
Proof.
  intros Hnd. cbv zeta.
  split; [intros path Hp; apply GroupFacts.flush_other_files; exact Hp|].
  revert fs Hnd. induction grouped as [|[p tds] grouped IH]; intros fs Hnd.
  - split; [intros ? ? [] | intros _ ? ? []].
  - cbn [map fst] in Hnd. apply NoDup_cons_iff in Hnd. destruct Hnd as [Hnotin Hnd].
    cbn [flush_grouped].
    destruct (read_file fs p) as [text|e] eqn:Hread.
    2:{ cbn [fst snd]. split; [intros; left; reflexivity | discriminate]. }
    destruct (update_file text tds) as [text'|e] eqn:Hup.
    2:{ cbn [fst snd]. split; [intros; left; reflexivity | discriminate]. }
    assert (Hrest : forall path td_list,
               In (path, td_list) grouped -> p <> path).
    { intros path td_list Hin ->. apply Hnotin.
      apply (in_map fst) in Hin. exact Hin. }
    destruct (GroupFacts.write_file_ends disk fs p text')
      as [[Hd ->]|[[e [Hd ->]]|[e [reached [Hd ->]]]]].
    + destruct (IH (store fs p text') Hnd) as [IH1 IH2].
      assert (Hhere : read_file (fst (flush_grouped disk (store fs p text') grouped)) p
                      = Ok text').
      { rewrite GroupFacts.flush_other_files by exact Hnotin.
        apply GroupFacts.read_store_same. }
      assert (Hother : forall path td_list,
                 In (path, td_list) grouped ->
                 read_file (store fs p text') path = read_file fs path).
      { intros path td_list Hin. apply GroupFacts.read_store_other.
        eapply Hrest. exact Hin. }
      split.
      * intros path td_list [Heq|Hin].
        -- injection Heq as <- <-. right. exists text, text'. auto.
        -- destruct (IH1 path td_list Hin) as [Hsame|[t [t' [Hr [Hu Hw]]]]].
           ++ left. rewrite Hsame. eapply Hother; eauto.
           ++ right. exists t, t'. rewrite <- (Hother path td_list Hin). auto.
      * intros Hok path td_list [Heq|Hin].
        -- injection Heq as <- <-. exists text, text'. auto.
        -- destruct (IH2 Hok path td_list Hin) as [t [t' [Hr [Hu Hw]]]].
           exists t, t'. rewrite <- (Hother path td_list Hin). auto.
    + cbn [fst snd]. split; [intros; left; reflexivity | discriminate].
    + cbn [fst snd]. split; [|discriminate].
      intros path td_list [Heq|Hin].
      * injection Heq as <- <-. right. exists text, text'.
        split; [exact Hread|]. split; [exact Hup|]. right.
        exists e, reached. split; [exact Hd|]. split; [reflexivity|].
        apply GroupFacts.read_store_same.
      * left. apply GroupFacts.read_store_other. eapply Hrest. exact Hin.
Qed.

(** X7.  No file receives a part of the documentation accepted for it.  For
    groups of distinct files, whatever way the loop ends, the file of each
    group is in one of three states: it holds its old text; or its writing
    succeeded and it holds [update_file] of that text, with every insertion
    of the group; or its writing raised after the file was opened, which
    ended the loop with that exception, and it holds what had reached it by
    then.  When the loop ends without an exception every file of a group
    was written whole.  A file that has no group is never touched. *)
Theorem flush_leaves_old_whole_or_failed_write
    (disk : string -> string -> write_end)
    (fs : files) (grouped : list (string * list (Target * string))) :
  NoDup (map fst grouped) ->
  let fs' := fst (flush_grouped disk fs grouped) in
  let ended := snd (flush_grouped disk fs grouped) in
  (forall path, ~ In path (map fst grouped) ->
                read_file fs' path = read_file fs path) /\
  (forall path td_list,
      In (path, td_list) grouped ->
      read_file fs' path = read_file fs path \/
      exists text text',
        read_file fs path = Ok text /\
        update_file text td_list = Ok text' /\
        ((disk path text' = Written /\ read_file fs' path = Ok text') \/
         (exists e reached,
             disk path text' = WriteRaises e reached /\
             ended = Raise e /\
             read_file fs' path = Ok reached))) /\
  (ended = Ok tt ->
   forall path td_list,
     In (path, td_list) grouped ->
     exists text text',
       read_file fs path = Ok text /\
       update_file text td_list = Ok text' /\
       disk path text' = Written /\
       read_file fs' path = Ok text').
Proof.
  apply flush_grouped_spec.
Qed.

Lemma flush_leaves_old_whole_or_failed_write_witness :
  let grouped := [("a.py", [(tgt_a, "F")]); ("b.py", [(tgt_h, "H")]);
                  ("c.py", [(tgt_c, "C")])] in
  snd (flush_grouped full_disk three_files grouped)
  = Raise (OtherException "OSError") /\
  read_file (fst (flush_grouped full_disk three_files grouped)) "a.py"
  = Ok (lines_text ["def f(x):"; "    F"; ""; "    return x"] +s+ PyStr.NL) /\
  read_file (fst (flush_grouped full_disk three_files grouped)) "b.py" = Ok "" /\
  read_file (fst (flush_grouped full_disk three_files grouped)) "c.py"
  = read_file three_files "c.py".
Proof.
  cbv zeta.
  assert (Hnd : NoDup (map fst [("a.py", [(tgt_a, "F")]); ("b.py", [(tgt_h, "H")]);
                                ("c.py", [(tgt_c, "C")])])).
  { cbn. repeat constructor; cbn; intuition discriminate. }
  pose proof (flush_leaves_old_whole_or_failed_write full_disk three_files _ Hnd)
    as [_ [Heach _]].
  split; [vm_compute; reflexivity|]. split; [vm_compute; reflexivity|]. split.
  - destruct (Heach "b.py" [(tgt_h, "H")]) as [Hsame|[t [t' [Hr [Hu Hw]]]]].
    + right. left. reflexivity.
    + vm_compute. reflexivity.
    + destruct Hw as [[Hd _]|[e [reached [Hd [_ Hleft]]]]].
      * injection Hr as <-. vm_compute in Hu. injection Hu as <-.
        vm_compute in Hd. discriminate Hd.
      * injection Hr as <-. vm_compute in Hu. injection Hu as <-.
        vm_compute in Hd. injection Hd as _ <-. exact Hleft.
  - vm_compute. reflexivity.
Defined.

(* ===================================================================== *)
(** * More on the interactive session *)
(* ===================================================================== *)

Module SessionFacts.

Lemma prompt_lines_step (valid : list ascii) (line : string) (rest : list string) :
  prompt_lines valid (line :: rest)
  = match answer_of valid line with
    | Some c => Ok (c, rest)
    | None => prompt_lines valid rest
    end.
Proof.
  cbn [prompt_lines]. unfold answer_of.
  destruct (PyStr.lower (PyStr.strip line)) as [|c s]; [reflexivity|].
  destruct (existsb (Ascii.eqb c) valid); reflexivity.
Qed.





End SessionFacts.



Module SessionInv.

Lemma Target_eqb_eq (a b : Target) : Target_eqb a b = true -> a = b.
Proof.
  unfold Target_eqb. intros H.
  apply andb_true_iff in H. destruct H as [H Hsrc].
  apply andb_true_iff in H. destruct H as [H Hname].
  apply andb_true_iff in H. destruct H as [Hpath Hline].
  apply String.eqb_eq in Hsrc, Hname, Hpath. apply Z.eqb_eq in Hline.
  destruct a, b. cbn in *. congruence.
Qed.

Lemma set_forall (P : Target * option string -> Prop) (results : results_t)
    (tgt : Target) (v : option string) :
  Forall P results -> P (tgt, v) ->
  Forall P (PyDict.set Target_eqb results tgt v).
Proof.
  intros Hall Hnew. induction Hall as [|[k v'] results Hk Hrest IH];
    cbn [PyDict.set].
  - constructor; [exact Hnew | constructor].
  - destruct (Target_eqb k tgt) eqn:E.
    + apply Target_eqb_eq in E. subst k. constructor; assumption.
    + constructor; assumption.
Qed.

Lemma set_keys (results : results_t) (tgt : Target) (v : option string) :
  NoDup (map fst results) ->
  NoDup (map fst (PyDict.set Target_eqb results tgt v)) /\
  forall k, In k (map fst (PyDict.set Target_eqb results tgt v)) <->
            k = tgt \/ In k (map fst results).
Proof.
  induction results as [|[k0 v0] results IH]; intros Hnd; cbn [PyDict.set].
  - split; [repeat constructor; intros []|]. cbn. intuition congruence.
  - cbn [map fst] in Hnd. apply NoDup_cons_iff in Hnd. destruct Hnd as [Hnotin Hnd].
    destruct (Target_eqb k0 tgt) eqn:E.
    + apply Target_eqb_eq in E. subst k0. cbn [map fst].
      split; [constructor; assumption|]. cbn. intuition congruence.
    + destruct (IH Hnd) as [Hnd' Hkeys]. cbn [map fst]. split.
      * constructor; [|exact Hnd']. rewrite Hkeys. intros [->|Hin].
        -- rewrite Target_eqb_refl in E. discriminate.
        -- contradiction.
      * intros k. cbn [In]. rewrite Hkeys. intuition congruence.
Qed.

Lemma prompt_done (valid : list ascii) (w w' : World) (c : ascii) :
  _prompt valid w = Done c w' -> exists rest, w' = with_stdin w rest.
Proof.
  unfold _prompt. destruct (prompt_lines valid (stdin w)) as [[k rest]|e];
    [|discriminate].
  intros H. injection H as _ <-. exists rest. reflexivity.
Qed.

Lemma edit_done (initial : string) (w w' : World) (doc : string) :
  _edit_docstring initial w = Done doc w' ->
  llm w' = llm w /\ delimited doc = true.
Proof.
  intros H. split.
  - revert H. unfold _edit_docstring, bind, _edit_with_editor, _inline_multiline, ret.
    destruct (editor w) as [|[[content|]|e0] more]; cbn;
      try (destruct (read_until_blank (stdin w)) as [[lines rest]|e]; cbn);
      try discriminate; intros H; injection H as _ <-; reflexivity.
  - destruct (edit_docstring_normalizes _ _ _ _ H) as [text [_ ->]].
    apply normalized_delimited.
Qed.

Lemma tail_of_refl {A} (l : list A) : tail_of l l.
Proof. exists []. reflexivity. Qed.

Lemma tail_of_next {A} (answers : list A) (x : A) (rest : list A) :
  tail_of answers (x :: rest) -> tail_of answers rest /\ In x answers.
Proof.
  intros [used ->]. split.
  - exists (used ++ [x]). rewrite <- app_assoc. reflexivity.
  - apply in_or_app. right. left. reflexivity.
Qed.

Section Invariant.
Variable targets : list Target.
Variable answers : list (result string).

Lemma review_loop_inv (fuel : nat) :
  forall tgt results w step w',
    review_loop fuel tgt results w = Done step w' ->
    tail_of answers (llm w) ->
    In tgt targets ->
    Forall (entry_ok targets answers) results ->
    NoDup (map fst results) ->
    Forall (entry_ok targets answers) (snd step) /\
    NoDup (map fst (snd step)) /\
    tail_of answers (llm w').
Proof.
  induction fuel as [|fuel IH]; intros tgt results w step w' Hrun Htail Hin Hall Hnd;
    [discriminate|].
  cbn [review_loop] in Hrun. unfold bind, _generate_docstring in Hrun.
  assert (Hset : forall v, recorded_ok answers v ->
             Forall (entry_ok targets answers) (PyDict.set Target_eqb results tgt v) /\
             NoDup (map fst (PyDict.set Target_eqb results tgt v))).
  { intros v Hv. split; [apply set_forall; [exact Hall | split; assumption]|].
    apply set_keys. exact Hnd. }
  assert (Hretry : forall w1,
             tail_of answers (llm w1) ->
             (retry <~ _prompt ["r"; "s"; "q"]%char ;;
              if is_key retry "r" then review_loop fuel tgt results
              else if is_key retry "s" then ret (NextTarget, results)
              else ret (EndSession, results)) w1 = Done step w' ->
             Forall (entry_ok targets answers) (snd step) /\
             NoDup (map fst (snd step)) /\ tail_of answers (llm w')).
  { intros w1 Ht1 H. unfold bind in H.
    destruct (_prompt _ w1) as [c w2| |] eqn:Hp; try discriminate.
    destruct (prompt_done _ _ _ _ Hp) as [rest ->].
    destruct (is_key c "r").
    - eapply IH; eauto.
    - destruct (is_key c "s"); unfold ret in H; injection H as <- <-; auto. }
  destruct (llm w) as [|[output|e] more] eqn:Hllm.
  - cbn [is_Exception] in Hrun.
    apply (Hretry w); [rewrite Hllm; exact Htail | exact Hrun].
  - destruct (tail_of_next _ _ _ Htail) as [Htail' Hout].
    destruct (_prompt _ (with_llm w more)) as [c w2| |] eqn:Hp; try discriminate.
    destruct (prompt_done _ _ _ _ Hp) as [rest ->].
    destruct (is_key c "a").
    { unfold ret in Hrun. injection Hrun as <- <-. cbn [snd llm with_stdin with_llm].
      destruct (Hset (Some (PyStr.strip output))) as [H1 H2];
        [right; exists output; auto | auto]. }
    destruct (is_key c "e").
    { unfold bind in Hrun.
      destruct (_edit_docstring _ _) as [edited w3| |] eqn:Hedit; try discriminate.
      unfold ret in Hrun. injection Hrun as <- <-.
      destruct (edit_done _ _ _ _ Hedit) as [Hl Hd].
      destruct (Hset (Some edited)) as [H1 H2]; [left; exact Hd|].
      cbn [snd]. rewrite Hl. auto. }
    destruct (is_key c "s").
    { unfold ret in Hrun. injection Hrun as <- <-.
      destruct (Hset None) as [H1 H2]; [exact I | auto]. }
    destruct (is_key c "q").
    { unfold ret in Hrun. injection Hrun as <- <-. auto. }
    eapply IH; eauto.
  - destruct (tail_of_next _ _ _ Htail) as [Htail' _].
    destruct (is_Exception e); [|discriminate].
    apply (Hretry (with_llm w more)); [exact Htail' | exact Hrun].
Qed.

Lemma negotiate_inv (show_body : bool) (tgt : Target) (results : results_t)
    (w w' : World) (step : flow * results_t) :
  negotiate show_body tgt results w = Done step w' ->
  tail_of answers (llm w) ->
  In tgt targets ->
  Forall (entry_ok targets answers) results ->
  NoDup (map fst results) ->
  Forall (entry_ok targets answers) (snd step) /\
  NoDup (map fst (snd step)) /\
  tail_of answers (llm w').
Proof.
  intros Hrun Htail Hin Hall Hnd. unfold negotiate, bind, lift in Hrun.
  destruct (if show_body then Ok (src tgt) else signature tgt); [|discriminate].
  destruct (_prompt _ w) as [c w1| |] eqn:Hp; try discriminate.
  destruct (prompt_done _ _ _ _ Hp) as [rest ->].
  destruct (is_key c "q").
  { unfold ret in Hrun. injection Hrun as <- <-. auto. }
  destruct (is_key c "s").
  { unfold ret in Hrun. injection Hrun as <- <-. cbn [snd]. split; [|split].
    - apply set_forall; [exact Hall | split; [exact Hin | exact I]].
    - apply set_keys. exact Hnd.
    - exact Htail. }
  destruct (is_key c "m").
  { destruct (_edit_docstring "" _) as [doc w2| |] eqn:Hedit; try discriminate.
    unfold ret in Hrun. injection Hrun as <- <-.
    destruct (edit_done _ _ _ _ Hedit) as [Hl Hd]. cbn [snd]. split; [|split].
    - apply set_forall; [exact Hall | split; [exact Hin | left; exact Hd]].
    - apply set_keys. exact Hnd.
    - rewrite Hl. exact Htail. }
  eapply review_loop_inv; eauto.
Qed.

Lemma session_from_inv (show_body : bool) (todo : list Target) :
  forall results w results' w',
    session_from show_body todo results w = Done results' w' ->
    tail_of answers (llm w) ->
    incl todo targets ->
    Forall (entry_ok targets answers) results ->
    NoDup (map fst results) ->
    Forall (entry_ok targets answers) results' /\ NoDup (map fst results').
Proof.
  induction todo as [|tgt todo IH]; intros results w results' w' Hrun Htail Hincl Hall Hnd.
  - cbn in Hrun. injection Hrun as <- _. auto.
  - cbn [session_from] in Hrun. unfold bind in Hrun.
    destruct (negotiate show_body tgt results w) as [[fl results1] w1| |] eqn:Hneg;
      try discriminate.
    destruct (negotiate_inv _ _ _ _ _ _ Hneg Htail (Hincl tgt (or_introl eq_refl))
                Hall Hnd) as [Hall1 [Hnd1 Htail1]].
    cbn [fst snd] in *. destruct fl.
    + eapply IH; eauto. intros x Hx. apply Hincl. right. exact Hx.
    + unfold ret in Hrun. injection Hrun as <- _. auto.
Qed.

End Invariant.

End SessionInv.

(** X9.  Whatever map the session returns, each of its entries is for one
    of the targets presented, no target has two entries, and the value of an
    entry is [None], or a text that starts and ends with the delimiter, or
    the stripped output of one of the answers of the model, unchanged. *)
Theorem session_records_only_what_was_negotiated
    (targets : list Target) (show_body : bool) (w w' : World) (results : results_t) :
  _interactive_session targets show_body w = Done results w' ->
  Forall (fun entry => In (fst entry) targets /\ recorded_ok (llm w) (snd entry))
         results /\
  NoDup (map fst results).
Proof.
  intros Hrun. unfold _interactive_session in Hrun.
  apply (SessionInv.session_from_inv targets (llm w) show_body targets [] w results w'
           Hrun (SessionInv.tail_of_refl _) (incl_refl _)); constructor.
Qed.

Lemma session_records_only_what_was_negotiated_witness :
  _interactive_session [tgt_f] true failing_world
  = Done [(tgt_f, Some "Second try.")] (mkWorld [] [] []) /\
  Forall (fun entry => In (fst entry) [tgt_f] /\
                       recorded_ok (llm failing_world) (snd entry))
         [(tgt_f, Some "Second try.")].
Proof.
  assert (Hrun : _interactive_session [tgt_f] true failing_world
                 = Done [(tgt_f, Some "Second try.")] (mkWorld [] [] []))
    by reflexivity.
  split; [exact Hrun|].
  exact (proj1 (session_records_only_what_was_negotiated _ _ _ _ _ Hrun)).
Defined.

Module SessionEnds.

Lemma session_from_steps (show_body : bool) (targets : list Target) :
  forall results w,
    session_from show_body targets results w
    = match session_steps show_body targets results w with
      | Done step w' => Done (snd step) w'
      | Raised e => Raised e
      | OutOfFuel => OutOfFuel
      end.
Proof.
  induction targets as [|tgt targets IH]; intros results w;
    cbn [session_from session_steps].
  - reflexivity.
  - unfold bind. destruct (negotiate show_body tgt results w) as [[fl r] w1| |];
      try reflexivity.
    cbn [fst snd]. destruct fl; [apply IH | reflexivity].
Qed.

Lemma session_steps_app (show_body : bool) (l1 l2 : list Target) :
  forall results w,
    session_steps show_body (l1 ++ l2) results w
    = match session_steps show_body l1 results w with
      | Done (NextTarget, results1) w1 => session_steps show_body l2 results1 w1
      | other => other
      end.
Proof.
  induction l1 as [|tgt l1 IH]; intros results w; cbn [app session_steps].
  - reflexivity.
  - unfold bind. destruct (negotiate show_body tgt results w) as [[fl r] w1| |];
      try reflexivity.
    cbn [fst snd]. destruct fl; [apply IH | reflexivity].
Qed.

End SessionEnds.

(** X11.  A quit loses nothing.  When the operator answers [q] to the first
    prompt for a target, the session on the longer list of targets returns
    the very map that it returns on the targets before that one: what was
    recorded so far is kept, and nothing is recorded for the targets from
    there on. *)
Theorem quit_keeps_what_was_recorded
    (done more : list Target) (tgt : Target) (show_body : bool)
    (w w1 : World) (results : results_t) (rest : list string) :
  _interactive_session done show_body w = Done results w1 ->
  showable show_body tgt ->
  prompt_lines ["g"; "m"; "s"; "q"]%char (stdin w1) = Ok ("q"%char, rest) ->
  exists w2,
    _interactive_session (done ++ tgt :: more) show_body w = Done results w2.
Proof.
  unfold _interactive_session. intros Hdone Hshow Hq.
  rewrite SessionEnds.session_from_steps in Hdone.
  rewrite SessionEnds.session_from_steps, SessionEnds.session_steps_app.
  destruct (session_steps show_body done [] w) as [[fl r] w'| |]; try discriminate.
  cbn [snd] in Hdone. injection Hdone as -> ->.
  destruct fl.
  - cbn [session_steps]. unfold bind, negotiate, bind, lift.
    assert (Hsnip : exists snippet,
               (if show_body then Ok (src tgt) else signature tgt) = Ok snippet).
    { destruct Hshow as [->|[header Hsig]]; [eexists; reflexivity|].
      destruct show_body; eexists; [reflexivity | exact Hsig]. }
    destruct Hsnip as [snippet ->].
    rewrite (prompt_ok _ _ _ _ Hq). cbn. eexists. reflexivity.
  - eexists. reflexivity.
Qed.

Lemma quit_keeps_what_was_recorded_witness :
  exists w2,
    _interactive_session ([tgt_f] ++ tgt_g :: [tgt_h]) true
      (mkWorld ["g"; "a"; "q"; "m"] [] [Ok "F."])
    = Done [(tgt_f, Some "F.")] w2.
Proof.
  apply (quit_keeps_what_was_recorded [tgt_f] [tgt_h] tgt_g true
           (mkWorld ["g"; "a"; "q"; "m"] [] [Ok "F."]) (mkWorld ["q"; "m"] [] [])
           [(tgt_f, Some "F.")] ["m"]).
  - reflexivity.
  - left. reflexivity.
  - reflexivity.
Defined.

Module SessionRuns.

Lemma prompt_first_answer (valid : list ascii) (w : World) (line : string)
    (rest : list string) (c : ascii) :
  stdin w = line :: rest ->
  answer_of valid line = Some c ->
  _prompt valid w = Done c (with_stdin w rest).
Proof.
  intros Hs Ha. unfold _prompt.
  rewrite Hs, SessionFacts.prompt_lines_step, Ha. reflexivity.
Qed.

Lemma group_none (accepted_map : results_t) :
  Forall (fun entry => snd entry = None) accepted_map ->
  forall grouped,
    fold_left (fun grouped item =>
                 match snd item with
                 | None => grouped
                 | Some doc => group_add grouped (fst item) doc
                 end) accepted_map grouped = grouped.
Proof.
  induction 1 as [|[tgt v] rest Hv _ IH]; intros grouped; cbn [fold_left].
  - reflexivity.
  - cbn [snd] in Hv. subst v. cbn [snd]. apply IH.
Qed.

Lemma read_until_blank_split (typed : list string) (blank : string)
    (rest : list string) :
  Forall (fun l => is_blank l = false) typed ->
  is_blank blank = true ->
  read_until_blank (typed ++ blank :: rest) = Ok (typed, rest).
Proof.
  unfold is_blank. intros Htyped Hblank.
  induction Htyped as [|l typed Hl _ IH]; cbn [app read_until_blank].
  - rewrite Hblank. reflexivity.
  - rewrite Hl, IH. reflexivity.
Qed.

Lemma read_until_blank_none (lines : list string) :
  Forall (fun l => is_blank l = false) lines ->
  read_until_blank lines = Raise EOFError.
Proof.
  unfold is_blank. induction 1 as [|l lines Hl _ IH]; cbn [read_until_blank].
  - reflexivity.
  - rewrite Hl, IH. reflexivity.
Qed.

End SessionRuns.

(** X10.  A failed generation is left to the operator, unless the failure
    is no [Exception].  Let the generator raise any number of times, each
    time an instance of [Exception], with the operator answering [r] each
    time, and let the next call raise too.  When that last exception is no
    instance of [Exception], the loop raises it, whatever standard input
    still holds: the handler does not catch it.  When it is one and the
    operator answers [s] or [q], the loop ends for this target with the map
    as it was, without an entry for the target, and the session goes on to
    the next target for [s] and ends for [q]. *)
Theorem failed_generation_is_left_to_the_operator
    (failures : list exn) (retries : list string) :
  forall (fuel : nat) (tgt : Target) (results : results_t) (w : World)
         (last : exn) (more : list (result string)),
    llm w = map Raise failures ++ Raise last :: more ->
    Forall (fun e => is_Exception e = true) failures ->
    List.length retries = List.length failures ->
    Forall (fun l => answer_of retry_keys l = Some "r"%char) retries ->
    (List.length failures < fuel)%nat ->
    (forall rest,
        stdin w = retries ++ rest ->
        is_Exception last = false ->
        review_loop fuel tgt results w = Raised last) /\
    (forall answer rest c,
        stdin w = retries ++ answer :: rest ->
        is_Exception last = true ->
        answer_of retry_keys answer = Some c ->
        c <> "r"%char ->
        review_loop fuel tgt results w
        = Done (if is_key c "s" then NextTarget else EndSession, results)
               (mkWorld rest (editor w) more)).
Proof.
  revert retries. induction failures as [|e failures IH];
    intros retries fuel tgt results w last more Hllm Hcaught Hlen Hretries Hfuel.
  - destruct retries; [|discriminate]. cbn [map app] in *.
    destruct fuel as [|fuel]; [cbn in Hfuel; lia|]. split.
    + intros rest _ Hlast. cbn [review_loop]. unfold bind, _generate_docstring.
      rewrite Hllm, Hlast. reflexivity.
    + intros answer rest c Hstdin Hlast Hanswer Hc.
      cbn [review_loop]. unfold bind, _generate_docstring. rewrite Hllm, Hlast.
      rewrite (SessionRuns.prompt_first_answer ["r"; "s"; "q"]%char
                 (with_llm w more) answer rest c) by assumption.
      unfold is_key at 1. apply Ascii.eqb_neq in Hc. rewrite Hc.
      destruct (is_key c "s"); reflexivity.
  - destruct retries as [|retry retries]; [discriminate|].
    cbn [map app List.length] in *.
    apply Forall_cons_iff in Hretries. destruct Hretries as [Hr Hretries].
    apply Forall_cons_iff in Hcaught. destruct Hcaught as [He Hcaught].
    destruct fuel as [|fuel]; [lia|].
    assert (Hstep : forall rest,
               stdin w = retry :: retries ++ rest ->
               review_loop (S fuel) tgt results w
               = review_loop fuel tgt results
                   (with_stdin (with_llm w (map Raise failures ++ Raise last :: more))
                               (retries ++ rest))).
    { intros rest Hstdin. cbn [review_loop]. unfold bind, _generate_docstring.
      rewrite Hllm, He.
      rewrite (SessionRuns.prompt_first_answer ["r"; "s"; "q"]%char
                 (with_llm w (map Raise failures ++ Raise last :: more))
                 retry (retries ++ rest) "r") by assumption.
      reflexivity. }
    split.
    + intros rest Hstdin Hlast. rewrite (Hstep rest Hstdin).
      apply (proj1 (IH retries fuel tgt results
                      (with_stdin (with_llm w (map Raise failures ++ Raise last :: more))
                                  (retries ++ rest))
                      last more eq_refl Hcaught (eq_add_S _ _ Hlen) Hretries
                      (proj2 (Nat.succ_lt_mono _ _) Hfuel)) rest eq_refl Hlast).
    + intros answer rest c Hstdin Hlast Hanswer Hc.
      rewrite (Hstep (answer :: rest) Hstdin).
      apply (proj2 (IH retries fuel tgt results
                      (with_stdin (with_llm w (map Raise failures ++ Raise last :: more))
                                  (retries ++ answer :: rest))
                      last more eq_refl Hcaught (eq_add_S _ _ Hlen) Hretries
                      (proj2 (Nat.succ_lt_mono _ _) Hfuel))
               answer rest c eq_refl Hlast Hanswer Hc).
Qed.

Lemma failed_generation_is_left_to_the_operator_witness :
  review_loop 3 tgt_f [] interrupted_world = Raised KeyboardInterrupt /\
  review_loop 3 tgt_f [(tgt_g, None)] giving_up_world
  = Done (NextTarget, [(tgt_g, None)]) (mkWorld ["q"] [] [Ok "Late."]).
Proof.
  assert (Hcaught : Forall (fun e => is_Exception e = true) [OtherException "timeout"])
    by (repeat constructor).
  assert (Hfuel : (List.length [OtherException "timeout"] < 3)%nat)
    by (simpl; lia).
  split.
  - assert (Hretries : Forall (fun l => answer_of retry_keys l = Some "r"%char) ["r"])
      by (repeat constructor).
    apply (proj1 (failed_generation_is_left_to_the_operator
                    [OtherException "timeout"] ["r"] 3 tgt_f [] interrupted_world
                    KeyboardInterrupt [Ok "Never asked."]
                    eq_refl Hcaught eq_refl Hretries Hfuel)
             ["a"]); reflexivity.
  - assert (Hretries : Forall (fun l => answer_of retry_keys l = Some "r"%char) [" R"])
      by (repeat constructor).
    apply (proj2 (failed_generation_is_left_to_the_operator
                    [OtherException "timeout"] [" R"] 3 tgt_f [(tgt_g, None)]
                    giving_up_world (RuntimeError "no model") [Ok "Late."]
                    eq_refl Hcaught eq_refl Hretries Hfuel)
             "skip" ["q"] "s"%char); try reflexivity.
    discriminate.
Defined.

(** X12.  The suggestion that is accepted is the one of the call that
    succeeded.  When the generator raises any number of times, each time an
    instance of [Exception], the operator answers [r] to each failure, the
    next call returns [output] and the operator answers [a], the loop
    records [output.strip()] for the target and goes on to the next target,
    with one answer of the model and one line of input used per call. *)
Theorem retry_records_the_successful_output
    (failures : list exn) (retries : list string) :
  forall (fuel : nat) (tgt : Target) (results : results_t) (w : World)
         (output : string) (more : list (result string))
         (accept : string) (rest : list string),
    llm w = map Raise failures ++ Ok output :: more ->
    Forall (fun e => is_Exception e = true) failures ->
    stdin w = retries ++ accept :: rest ->
    List.length retries = List.length failures ->
    Forall (fun l => answer_of retry_keys l = Some "r"%char) retries ->
    answer_of review_keys accept = Some "a"%char ->
    (List.length failures < fuel)%nat ->
    review_loop fuel tgt results w
    = Done (NextTarget, PyDict.set Target_eqb results tgt (Some (PyStr.strip output)))
           (mkWorld rest (editor w) more).
Proof.
  revert retries. induction failures as [|e failures IH];
    intros retries fuel tgt results w output more accept rest
           Hllm Hcaught Hstdin Hlen Hretries Haccept Hfuel.
  - destruct retries; [|discriminate]. cbn [map app] in *.
    destruct fuel as [|fuel]; [cbn in Hfuel; lia|].
    cbn [review_loop]. unfold bind, _generate_docstring. rewrite Hllm.
    rewrite (SessionRuns.prompt_first_answer ["a"; "r"; "e"; "s"; "q"]%char
               (with_llm w more) accept rest "a") by assumption.
    reflexivity.
  - destruct retries as [|retry retries]; [discriminate|].
    cbn [map app List.length] in *.
    apply Forall_cons_iff in Hretries. destruct Hretries as [Hr Hretries].
    apply Forall_cons_iff in Hcaught. destruct Hcaught as [He Hcaught].
    destruct fuel as [|fuel]; [lia|].
    cbn [review_loop]. unfold bind, _generate_docstring. rewrite Hllm, He.
    rewrite (SessionRuns.prompt_first_answer ["r"; "s"; "q"]%char
               (with_llm w (map Raise failures ++ Ok output :: more))
               retry (retries ++ accept :: rest) "r") by assumption.
    cbn [is_key Ascii.eqb Bool.eqb].
    apply (IH retries fuel tgt results
              (with_stdin (with_llm w (map Raise failures ++ Ok output :: more))
                          (retries ++ accept :: rest))
              output more accept rest);
      try assumption; try reflexivity; lia.
Qed.

Lemma retry_records_the_successful_output_witness :
  review_loop 3 tgt_f []
    (mkWorld ["r"; "Retry"; "a"] []
       [Raise (OtherException "timeout"); Raise EOFError; Ok " Third. "])
  = Done (NextTarget, [(tgt_f, Some "Third.")]) (mkWorld [] [] []).
Proof.
  apply (retry_records_the_successful_output
           [OtherException "timeout"; EOFError] ["r"; "Retry"] 3 tgt_f []
           (mkWorld ["r"; "Retry"; "a"] []
              [Raise (OtherException "timeout"); Raise EOFError; Ok " Third. "])
           " Third. " [] "a" []);
    try reflexivity; [repeat constructor | repeat constructor | simpl; lia].
Defined.

(** X13.  When the operator skips every target, every target is in the map
    with [None], and [main] then writes no file: the files are as before,
    whatever the file system would make of a writing. *)
Theorem skipping_every_target_changes_no_file
    (targets : list Target) (show_body : bool) (w : World)
    (disk : string -> string -> write_end) (fs : files)
    (skips rest : list string) :
  Forall (showable show_body) targets ->
  stdin w = skips ++ rest ->
  List.length skips = List.length targets ->
  Forall (fun l => answer_of first_keys l = Some "s"%char) skips ->
  exists results,
    _interactive_session targets show_body w = Done results (with_stdin w rest) /\
    Forall (fun entry => snd entry = None) results /\
    (forall tgt, In tgt (map fst results) <-> In tgt targets) /\
    apply_accepted disk fs results = (fs, Ok tt).
Proof.
  unfold _interactive_session.
  assert (Hgen : forall results0,
             Forall (fun entry => snd entry = None) results0 ->
             NoDup (map fst results0) ->
             Forall (showable show_body) targets ->
             forall w skips,
               stdin w = skips ++ rest ->
               List.length skips = List.length targets ->
               Forall (fun l => answer_of first_keys l = Some "s"%char) skips ->
               exists results,
                 session_from show_body targets results0 w
                 = Done results (with_stdin w rest) /\
                 Forall (fun entry => snd entry = None) results /\
                 (forall tgt, In tgt (map fst results) <->
                              In tgt (map fst results0) \/ In tgt targets)).
  { clear w skips. induction targets as [|tgt targets IH];
      intros results0 Hnone Hnd Hshow w skips Hstdin Hlen Hskips.
    - destruct skips; [|discriminate]. cbn [app] in Hstdin.
      exists results0. split; [|split; [exact Hnone | cbn; tauto]].
      cbn. unfold ret. destruct w. cbn in *. subst. reflexivity.
    - destruct skips as [|skip skips]; [discriminate|].
      apply Forall_cons_iff in Hshow. destruct Hshow as [Hshow Hshows].
      apply Forall_cons_iff in Hskips. destruct Hskips as [Hskip Hskips].
      cbn [List.length app] in *.
      assert (Hstep : negotiate show_body tgt results0 w
                      = Done (NextTarget, PyDict.set Target_eqb results0 tgt None)
                             (with_stdin w (skips ++ rest))).
      { unfold negotiate, bind, lift.
        assert (Hsnip : exists snippet,
                   (if show_body then Ok (src tgt) else signature tgt) = Ok snippet).
        { destruct Hshow as [->|[header Hsig]]; [eexists; reflexivity|].
          destruct show_body; eexists; [reflexivity | exact Hsig]. }
        destruct Hsnip as [snippet ->].
        rewrite (SessionRuns.prompt_first_answer ["g"; "m"; "s"; "q"]%char
                   w skip (skips ++ rest) "s") by assumption.
        reflexivity. }
      destruct (SessionInv.set_keys results0 tgt None Hnd) as [Hnd' Hkeys].
      destruct (IH (PyDict.set Target_eqb results0 tgt None)
                  (SessionInv.set_forall _ _ _ _ Hnone eq_refl) Hnd' Hshows
                  (with_stdin w (skips ++ rest)) skips eq_refl
                  (eq_add_S _ _ Hlen) Hskips) as [results [Hrun [Hres Hk]]].
      exists results. split; [|split; [exact Hres|]].
      + cbn [session_from]. unfold bind. rewrite Hstep. cbn [fst snd]. exact Hrun.
      + intros t. rewrite Hk, Hkeys. cbn [In]. intuition congruence. }
  intros Hshow Hstdin Hlen Hskips.
  destruct (Hgen [] (Forall_nil _) (NoDup_nil _) Hshow w skips Hstdin Hlen Hskips)
    as [results [Hrun [Hnone Hkeys]]].
  exists results. split; [exact Hrun|]. split; [exact Hnone|]. split.
  - intros t. rewrite Hkeys. cbn. tauto.
  - unfold apply_accepted, group_by_file. destruct results as [|entry results'];
      [reflexivity|].
    rewrite (SessionRuns.group_none _ Hnone). reflexivity.
Qed.

Lemma skipping_every_target_changes_no_file_witness :
  exists results,
    _interactive_session [tgt_f; tgt_g; tgt_h] true skipping_world
    = Done results (with_stdin skipping_world []) /\
    Forall (fun entry => snd entry = None) results /\
    apply_accepted full_disk some_files results = (some_files, Ok tt).
Proof.
  destruct (skipping_every_target_changes_no_file [tgt_f; tgt_g; tgt_h] true
              skipping_world full_disk some_files ["s"; "S "; "skip"] [])
    as [results [Hrun [Hnone [_ Hfiles]]]].
  - repeat constructor; left; reflexivity.
  - reflexivity.
  - reflexivity.
  - repeat constructor.
  - exists results. auto.
Defined.

(** X14.  [_edit_docstring] leaves standard input alone when the editor
    returns a text; otherwise it reads the lines up to the first blank one,
    which it consumes too, and raises [EOFError] when no blank line comes.
    The text entered is stripped and wrapped if need be; entering nothing (a
    blank line at once) gives the two delimiters around an empty line.  What
    the editor helper raises, the call raises, with standard input left
    alone. *)
Theorem edit_docstring_reads_until_blank (initial : string) (w : World) :
  (forall content more,
      editor w = Ok (Some content) :: more ->
      _edit_docstring initial w
      = Done (normalized (PyStr.strip content)) (with_editor w more))
  /\
  (forall typed blank rest,
      (editor w = [] \/ exists more, editor w = Ok None :: more) ->
      stdin w = typed ++ blank :: rest ->
      Forall (fun l => is_blank l = false) typed ->
      is_blank blank = true ->
      exists w',
        _edit_docstring initial w
        = Done (normalized (PyStr.strip (PyStr.join PyStr.NL typed))) w' /\
        stdin w' = rest /\ llm w' = llm w)
  /\
  ((editor w = [] \/ exists more, editor w = Ok None :: more) ->
   Forall (fun l => is_blank l = false) (stdin w) ->
   _edit_docstring initial w = Raised EOFError)
  /\
  (forall e more,
      editor w = Raise e :: more ->
      _edit_docstring initial w = Raised e).
Proof.
  unfold _edit_docstring, bind, _edit_with_editor, _inline_multiline, ret, normalized.
  split; [|split; [|split]].
  - intros content more ->. cbn. destruct (delimited _); reflexivity.
  - intros typed blank rest Hed Hstdin Htyped Hblank.
    destruct Hed as [->|[more ->]]; cbn; rewrite Hstdin;
      rewrite (SessionRuns.read_until_blank_split _ _ _ Htyped Hblank);
      cbn; eexists;
      (split; [destruct (delimited _); reflexivity | split; reflexivity]).
  - intros Hed Hall.
    destruct Hed as [->|[more ->]]; cbn;
      rewrite (SessionRuns.read_until_blank_none _ Hall); reflexivity.
  - intros e more ->. reflexivity.
Qed.

Lemma edit_docstring_reads_until_blank_witness :
  exists w',
    _edit_docstring "" (mkWorld ["  "; "q"] [Ok None] [])
    = Done (TQ +s+ PyStr.NL +s+ PyStr.NL +s+ TQ) w' /\
    stdin w' = ["q"].
Proof.
  destruct (proj1 (proj2 (edit_docstring_reads_until_blank ""
                            (mkWorld ["  "; "q"] [Ok None] [])))
              [] "  " ["q"]) as [w' [Hrun [Hstdin _]]].
  - right. exists []. reflexivity.
  - reflexivity.
  - constructor.
  - reflexivity.
  - exists w'. split; [exact Hrun | exact Hstdin].
Defined.

(* ===================================================================== *)
(** * More on the extractor and on [signature] *)
(* ===================================================================== *)

Section ExtractorExact.
Variable ast_parse : string -> result Ast.node.
Variable cleandoc : string -> string.

Lemma target_of_spec (lines : list string) (file_path : string)
    (n : Ast.node) (t : Target) :
  In t (target_of lines file_path n) <->
  exists name args body decorators returns first last,
    n = Ast.FunctionDef name args body decorators returns first last /\
    Ast.get_docstring cleandoc n = Ok None /\
    t = mkTarget file_path first name (_extract_function_src lines first last).
Proof.
  split.
  - destruct n as [body|nm a body decos rt ln eln|nm a body decos rt ln eln
                   |nm bases kws body decos ln eln|v|c|cs];
      try (intros []).
    intros H. exists nm, a, body, decos, rt, ln, eln.
    split; [reflexivity|].
    cbn [target_of Ast.get_docstring] in *.
    destruct body as [|[| | | |v| |] body']; cbn [In] in H;
      try (destruct H as [<-|[]]; split; reflexivity).
    destruct v as [| | | | |[text|]|]; cbn [In] in H;
      try (destruct H as [<-|[]]; split; reflexivity).
    destruct H.
  - intros [nm [a [body [decos [rt [ln [eln [-> [Hdoc ->]]]]]]]]].
    cbn [target_of Ast.get_docstring] in *.
    destruct body as [|[| | | |v| |] body']; try (left; reflexivity).
    destruct v as [| | | | |[text|]|]; try (left; reflexivity).
    discriminate Hdoc.
Qed.

(** X15.  On a text that parses, the extractor raises nothing and returns,
    in ascending order of start line, exactly the targets of the
    [FunctionDef] nodes of the tree, at any depth, for which
    [ast.get_docstring] is [None]: each with the path given, the start line
    and the name of its node, and the lines from the start line to the end
    line of the node as source.  No class, no coroutine function and no
    documented function gives a target. *)
Theorem extractor_reports_exactly_undocumented_defs
    (source file_path : string) (tree : Ast.node) :
  ast_parse source = Ok tree ->
  exists targets,
    find_missing_docstrings ast_parse cleandoc source file_path = Ok targets /\
    StronglySorted (fun a b => lineno a <= lineno b) targets /\
    forall t,
      In t targets <->
      exists name args body decorators returns first last,
        reach tree (Ast.FunctionDef name args body decorators returns first last) /\
        Ast.get_docstring cleandoc
          (Ast.FunctionDef name args body decorators returns first last) = Ok None /\
        t = mkTarget file_path first name
              (_extract_function_src (PyStr.splitlines source) first last).
Proof.
  intros Hparse. unfold find_missing_docstrings. rewrite Hparse.
  rewrite collect_targets_spec. cbn [rbind].
  eexists. split; [reflexivity|]. split;
    [apply (SortFacts.sorted_sorted lineno false)|].
  intros t. split.
  - intros Hin.
    apply (Permutation_in _ (SortFacts.sorted_perm lineno false _)) in Hin.
    apply in_flat_map in Hin. destruct Hin as [n [Hn Ht]].
    apply AstFacts.walk_spec in Hn.
    apply target_of_spec in Ht.
    destruct Ht as [nm [a [body [decos [rt [ln [eln [-> [Hdoc ->]]]]]]]]].
    exists nm, a, body, decos, rt, ln, eln. auto.
  - intros [nm [a [body [decos [rt [ln [eln [Hreach [Hdoc ->]]]]]]]]].
    eapply Permutation_in; [apply Permutation_sym, SortFacts.sorted_perm|].
    apply in_flat_map. eexists. split; [apply AstFacts.walk_spec; exact Hreach|].
    apply target_of_spec. exists nm, a, body, decos, rt, ln, eln. auto.
Qed.

End ExtractorExact.

Lemma extractor_reports_exactly_undocumented_defs_witness :
  exists targets,
    find_missing_docstrings sample_parse (fun s => s) good_source "a.py" = Ok targets /\
    In (mkTarget "a.py" 1 "f" good_source) targets.
Proof.
  assert (Hparse : sample_parse good_source = Ok good_tree) by reflexivity.
  destruct (extractor_reports_exactly_undocumented_defs sample_parse (fun s => s)
              good_source "a.py" good_tree Hparse) as [targets [Hrun [_ Hin]]].
  exists targets. split; [exact Hrun|].
  apply Hin.
  exists "f", (Ast.Other []), [Ast.Other [Ast.Constant Ast.CNotStr]], [], None, 1, 2.
  split; [|split; reflexivity].
  eapply reach_child; [left; reflexivity | apply reach_self].
Defined.

Module SrcFacts.

Lemma splitlines_single (x : string) :
  no_linebreak x = true -> x <> "" -> PyStr.splitlines x = [x].
Proof.
  unfold PyStr.splitlines. induction x as [|c x IH]; intros Hx Hne; [congruence|].
  cbn [no_linebreak] in Hx. apply andb_true_iff in Hx. destruct Hx as [Hc Hx].
  apply negb_true_iff in Hc.
  cbn [PyStr.splitlines_from andb]. rewrite Hc.
  destruct x as [|d x]; [reflexivity|].
  rewrite IH; [reflexivity | exact Hx | discriminate].
Qed.

(** Lines without line boundaries, the last of them not empty, joined by
    line feeds, split into the same lines again. *)
Lemma splitlines_join_open (ls : list string) :
  Forall (fun l => no_linebreak l = true) ls ->
  last ls "x" <> "" ->
  PyStr.splitlines (PyStr.join PyStr.NL ls) = ls.
Proof.
  unfold PyStr.join, PyStr.NL.
  induction ls as [|x ls IH]; intros Hall Hlast; [reflexivity|].
  apply Forall_cons_iff in Hall. destruct Hall as [Hx Hls].
  destruct ls as [|y ls].
  - cbn [String.concat]. apply splitlines_single; assumption.
  - cbn [String.concat]. cbn [String.concat] in IH.
    change (String PyStr.LF "" +s+ ?r) with (String PyStr.LF r).
    unfold PyStr.splitlines in *.
    rewrite LineFacts.splitlines_line_then_feed by exact Hx.
    f_equal. apply IH; [exact Hls | exact Hlast].
Qed.

End SrcFacts.

(** X16.  The source text of a target splits into the very lines of the
    file from which it was taken: when the span of the node in the file is
    not closed by an empty line, [src.splitlines()] is
    [lines[lineno - 1 : end_lineno]]. *)
Theorem target_source_splits_into_the_span
    (source : string) (first last_line : Z) :
  let lines := PyStr.splitlines source in
  let span := PyList.getslice lines (first - 1) last_line in
  List.last span "x" <> "" ->
  PyStr.splitlines (_extract_function_src lines first last_line) = span.
Proof.
  cbv zeta. intros Hlast. unfold _extract_function_src.
  apply SrcFacts.splitlines_join_open; [|exact Hlast].
  unfold PyList.getslice.
  apply LineFacts.Forall_firstn, LineFacts.Forall_skipn,
    LineFacts.splitlines_no_linebreak.
Qed.

Lemma target_source_splits_into_the_span_witness :
  PyStr.splitlines
    (_extract_function_src (PyStr.splitlines (lines_text two_defs)) 5 6)
  = ["    def g(self):"; "        return 1"].
Proof.
  apply (target_source_splits_into_the_span (lines_text two_defs) 5 6).
  discriminate.
Defined.

Lemma grab_until_colon_spec (it : list string) :
  grab_until_colon it = map PyStr.rstrip (take_through ends_with_colon it).
Proof.
  induction it as [|line it IH]; cbn [grab_until_colon take_through map].
  - reflexivity.
  - unfold ends_with_colon at 1.
    destruct (PyStr.endswith (PyStr.rstrip line) ":"); [reflexivity|].
    f_equal. exact IH.
Qed.

Lemma take_through_spec {A} (p : A -> bool) (l : list A) :
  exists dropped,
    l = take_through p l ++ dropped /\
    Forall (fun x => p x = false) (removelast (take_through p l)) /\
    (dropped <> [] -> exists x, last (take_through p l) x = x /\ p x = true).
Proof.
  induction l as [|x l IH]; cbn [take_through].
  - exists []. repeat split; [constructor | congruence].
  - destruct (p x) eqn:Ex.
    + exists l. repeat split; [constructor|]. intros _. exists x. auto.
    + destruct IH as [dropped [Heq [Hall Hlast]]].
      exists dropped. split; [cbn; f_equal; exact Heq|].
      destruct (take_through p l) as [|y taken] eqn:Et.
      * destruct l; [|discriminate Et]. cbn in Heq. subst dropped.
        split; [constructor | congruence].
      * split.
        -- change (removelast (x :: y :: taken)) with (x :: removelast (y :: taken)).
           constructor; assumption.
        -- intros Hd. destruct (Hlast Hd) as [z [Hz Hp]].
           exists z. split; [exact Hz | exact Hp].
Qed.

(** X17.  What [signature] returns.  When the lines of the source before
    some line do not match the pattern and that line does, the result is
    that line followed by the lines after it up to and including the first
    one that ends with a colon (all of them when none does), each stripped
    on the right and joined by line feeds.  The lines before the match
    never appear, and no line after that first colon line does. *)
Theorem signature_is_def_line_and_lines_through_colon
    (tgt : Target) (skipped : list string) (def_line : string) (it : list string) :
  PyStr.splitlines (src tgt) = skipped ++ def_line :: it ->
  Forall (fun l => ~ Re.re_match Re.def_pattern l) skipped ->
  Re.re_match Re.def_pattern def_line ->
  signature tgt
  = Ok (PyStr.join PyStr.NL
          (map PyStr.rstrip (def_line :: take_through ends_with_colon it))) /\
  exists dropped,
    it = take_through ends_with_colon it ++ dropped /\
    Forall (fun l => ends_with_colon l = false)
           (removelast (take_through ends_with_colon it)) /\
    (dropped <> [] ->
     exists l, last (take_through ends_with_colon it) l = l /\
               ends_with_colon l = true).
Proof.
  intros Hsplit Hskipped Hdef. split; [|apply take_through_spec].
  rewrite (signature_of_def_line tgt skipped def_line it Hsplit).
  - rewrite grab_until_colon_spec. reflexivity.
  - eapply Forall_impl; [|exact Hskipped].
    intros l Hl. apply ReFacts.match_def_false. exact Hl.
  - apply ReFacts.match_def_correct. exact Hdef.
Qed.

Lemma signature_is_def_line_and_lines_through_colon_witness :
  signature decorated = Ok (lines_text ["def f(a,"; "      b):"]).
Proof.
  assert (Hs : PyStr.splitlines (src decorated)
               = ["@cache"] ++ "def f(a," :: ["      b):   "; "    if a:"; "        pass"])
    by (vm_compute; reflexivity).
  assert (Hsk : Forall (fun l => ~ Re.re_match Re.def_pattern l) ["@cache"]).
  { constructor; [|constructor].
    apply ReFacts.match_def_false. vm_compute. reflexivity. }
  assert (Hd : Re.re_match Re.def_pattern "def f(a,").
  { apply ReFacts.match_def_correct. vm_compute. reflexivity. }
  rewrite (proj1 (signature_is_def_line_and_lines_through_colon
                    decorated _ _ _ Hs Hsk Hd)).
  vm_compute. reflexivity.
Defined.

(* ===================================================================== *)
(** * The earlier scripts against [docsgen.py] *)
(* ===================================================================== *)

Module VariantFacts.

Lemma map_enumerate_same {A B} (f g : A -> B) (l : list A) (c : Z * A -> bool) :
  (forall x, f x = g x) ->
  forall start,
    map (fun p => if c p then f (snd p) else g (snd p))
        (combine (map Z.of_nat (seq start (List.length l))) l)
    = map f l.
Proof.
  intros Hfg. induction l as [|x l IH]; intros start; cbn; [reflexivity|].
  rewrite IH. destruct (c _); [reflexivity | rewrite Hfg; reflexivity].
Qed.

Lemma add_docstrings_insert_eq (lines : list string) (tgt : Target) (doc : string) :
  AddDocstrings._insert_docstring lines tgt doc
  = PyList.setslice lines (lineno tgt) (lineno tgt)
      (map (fun ln => "    " +s+ ln) (PyStr.splitlines doc) ++ [""]).
Proof.
  unfold AddDocstrings._insert_docstring, enumerate.
  rewrite (map_enumerate_same (fun ln => PyStr.mul " " 4 +s+ ln)
             (fun ln => PyStr.mul " " 4 +s+ ln)) by reflexivity.
  reflexivity.
Qed.

Lemma in_place_insert_eq (lines : list string) (tgt : InPlace.Target) (doc : string) :
  InPlace.insert_docstring lines tgt doc
  = PyList.setslice lines (InPlace.lineno tgt) (InPlace.lineno tgt)
      (map (fun ln => PyStr.mul " " (InPlace.col tgt + 4) +s+ ln)
           (PyStr.splitlines doc) ++ [""]).
Proof.
  unfold InPlace.insert_docstring, enumerate.
  rewrite (map_enumerate_same (fun ln => PyStr.mul " " (InPlace.col tgt + 4) +s+ ln)
             (fun ln => PyStr.mul " " (InPlace.col tgt + 4) +s+ ln)) by reflexivity.
  reflexivity.
Qed.

Lemma append_inj_r (a b x : string) : a +s+ x = b +s+ x -> a = b.
Proof.
  revert b. induction a as [|c a IH]; intros b H.
  - destruct b as [|d b]; [reflexivity|]. exfalso.
    apply (f_equal String.length) in H. cbn in H.
    rewrite PyFacts.length_append in H. lia.
  - destruct b as [|d b].
    + exfalso. apply (f_equal String.length) in H. cbn in H.
      rewrite PyFacts.length_append in H. lia.
    + cbn in H. injection H as -> H. f_equal. apply IH. exact H.
Qed.

Lemma block_eq_iff (p q : string) (doc_lines : list string) :
  doc_lines <> [] ->
  (map (fun ln => p +s+ ln) doc_lines ++ [""]
   = map (fun ln => q +s+ ln) doc_lines ++ [""]) <-> p = q.
Proof.
  intros Hne. split; [|intros ->; reflexivity].
  destruct doc_lines as [|ln rest]; [congruence|].
  cbn. intros H. injection H as H _. eapply append_inj_r. exact H.
Qed.

Lemma spliced_block_inj (lines : list string) (k : nat) (b1 b2 : list string) :
  List.length b1 = List.length b2 ->
  spliced lines k b1 = spliced lines k b2 -> b1 = b2.
Proof.
  unfold spliced. intros Hlen H.
  apply app_inv_head in H.
  apply (f_equal (firstn (List.length b1))) in H.
  rewrite firstn_app, firstn_all, Nat.sub_diag in H. cbn [firstn] in H.
  rewrite app_nil_r in H. rewrite H, Hlen, firstn_app, firstn_all, Nat.sub_diag.
  cbn [firstn]. apply app_nil_r.
Qed.

Lemma splitlines_nil (s : string) : PyStr.splitlines s = [] <-> s = "".
Proof.
  split; [|intros ->; reflexivity].
  unfold PyStr.splitlines. destruct s as [|c s]; [reflexivity|].
  cbn [PyStr.splitlines_from andb].
  destruct (PyStr.is_linebreak c); [discriminate|].
  destruct (PyStr.splitlines_from false s); discriminate.
Qed.

End VariantFacts.

(** X18.  The insertion of [add_docstrings.py] indents by four spaces
    whatever the [def] line.  On a target valid in the buffer and a
    documentation of at least one line, it gives the same buffer as the
    insertion of [docsgen.py] exactly when the [def] line has no leading
    white space: for a method or a nested function the two differ. *)
Theorem old_insertion_agrees_only_on_unindented_defs
    (lines : list string) (tgt : Target) (doc def_line : string) :
  valid_in lines tgt ->
  nth_error lines (Z.to_nat (lineno tgt - 1)) = Some def_line ->
  PyStr.splitlines doc <> [] ->
  (_insert_docstring lines tgt doc = Ok (AddDocstrings._insert_docstring lines tgt doc)
   <-> leading_whitespace def_line = "").
Proof.
  intros Hv Hnth Hdoc. pose proof Hv as [Hlo Hhi].
  destruct (insert_docstring_valid lines tgt doc Hv) as [d [Hd Hins]].
  rewrite Hnth in Hd. injection Hd as <-.
  rewrite Hins, VariantFacts.add_docstrings_insert_eq.
  rewrite PyFacts.setslice_inside by lia.
  change (firstn (Z.to_nat (lineno tgt)) lines
          ++ (map (fun ln => "    " +s+ ln) (PyStr.splitlines doc) ++ [""])
          ++ skipn (Z.to_nat (lineno tgt)) lines)
    with (spliced lines (Z.to_nat (lineno tgt))
            (map (fun ln => "    " +s+ ln) (PyStr.splitlines doc) ++ [""])).
  unfold doc_block, indent_unit. split.
  - intros H. injection H as H.
    apply VariantFacts.spliced_block_inj in H;
      [|rewrite !length_app, !length_map; reflexivity].
    pose proof (proj1 (VariantFacts.block_eq_iff
                         (leading_whitespace def_line +s+ "    ") "    "
                         _ Hdoc) H) as Hp.
    apply (VariantFacts.append_inj_r _ "" "    "). exact Hp.
  - intros ->. reflexivity.
Qed.

Lemma old_insertion_agrees_only_on_unindented_defs_witness :
  _insert_docstring nested_lines tgt_nested "doc"
  <> Ok (AddDocstrings._insert_docstring nested_lines tgt_nested "doc").
Proof.
  assert (Hv : valid_in nested_lines tgt_nested) by (unfold valid_in; simpl; lia).
  assert (Hdoc : PyStr.splitlines "doc" <> []) by discriminate.
  intros H.
  apply (proj1 (old_insertion_agrees_only_on_unindented_defs nested_lines tgt_nested
                  "doc" "    def g(self):" Hv eq_refl Hdoc)) in H.
  discriminate H.
Defined.

(** X19.  The insertion of [in_place.py] indents by the recorded column of
    the [def] plus four, whatever the buffer holds.  For a target of the same
    start line, valid in the buffer, and a documentation of at least one
    line, it gives the same buffer as the insertion of [docsgen.py] exactly
    when the leading white space of the current [def] line is that many
    spaces; after a change of the indentation, or with a tab, the two
    differ. *)
Theorem column_insertion_agrees_only_on_space_indent
    (lines : list string) (tgt : Target) (old : InPlace.Target)
    (doc def_line : string) :
  valid_in lines tgt ->
  InPlace.lineno old = lineno tgt ->
  nth_error lines (Z.to_nat (lineno tgt - 1)) = Some def_line ->
  PyStr.splitlines doc <> [] ->
  (_insert_docstring lines tgt doc = Ok (InPlace.insert_docstring lines old doc)
   <-> leading_whitespace def_line +s+ "    " = PyStr.mul " " (InPlace.col old + 4)).
Proof.
  intros Hv Hline Hnth Hdoc. pose proof Hv as [Hlo Hhi].
  destruct (insert_docstring_valid lines tgt doc Hv) as [d [Hd Hins]].
  rewrite Hnth in Hd. injection Hd as <-.
  rewrite Hins, VariantFacts.in_place_insert_eq, Hline.
  rewrite PyFacts.setslice_inside by lia.
  change (firstn (Z.to_nat (lineno tgt)) lines
          ++ (map (fun ln => PyStr.mul " " (InPlace.col old + 4) +s+ ln)
                  (PyStr.splitlines doc) ++ [""])
          ++ skipn (Z.to_nat (lineno tgt)) lines)
    with (spliced lines (Z.to_nat (lineno tgt))
            (map (fun ln => PyStr.mul " " (InPlace.col old + 4) +s+ ln)
                 (PyStr.splitlines doc) ++ [""])).
  unfold doc_block, indent_unit. split.
  - intros H. injection H as H.
    apply VariantFacts.spliced_block_inj in H;
      [|rewrite !length_app, !length_map; reflexivity].
    exact (proj1 (VariantFacts.block_eq_iff
                    (leading_whitespace def_line +s+ "    ")
                    (PyStr.mul " " (InPlace.col old + 4)) _ Hdoc) H).
  - intros ->. reflexivity.
Qed.

Lemma column_insertion_agrees_only_on_space_indent_witness :
  _insert_docstring nested_lines tgt_nested "doc"
  = Ok (InPlace.insert_docstring nested_lines tgt_nested_col "doc").
Proof.
  assert (Hv : valid_in nested_lines tgt_nested) by (unfold valid_in; simpl; lia).
  assert (Hdoc : PyStr.splitlines "doc" <> []) by discriminate.
  apply (proj2 (column_insertion_agrees_only_on_space_indent nested_lines tgt_nested
                  tgt_nested_col "doc" "    def g(self):" Hv eq_refl eq_refl Hdoc)).
  reflexivity.
Defined.

(** X20.  The [signature] of [add_docstrings.py] is the first line of the
    source, stripped on the right; it raises [IndexError] exactly when the
    source is the empty string.  When the first line matches the pattern of
    [docsgen.py], the [signature] of [docsgen.py] starts with that same line
    and goes on with the lines that its second loop takes. *)
Theorem old_signature_is_first_line (tgt : Target) :
  (src tgt = "" -> AddDocstrings.signature tgt = Raise IndexError) /\
  (src tgt <> "" ->
   exists line rest,
     PyStr.splitlines (src tgt) = line :: rest /\
     AddDocstrings.signature tgt = Ok (PyStr.rstrip line) /\
     (Re.re_match Re.def_pattern line ->
      signature tgt
      = Ok (PyStr.join PyStr.NL (PyStr.rstrip line :: grab_until_colon rest)))).
Proof.
  unfold AddDocstrings.signature. split.
  - intros ->. reflexivity.
  - intros Hne. destruct (PyStr.splitlines (src tgt)) as [|line rest] eqn:Hs.
    + apply VariantFacts.splitlines_nil in Hs. contradiction.
    + exists line, rest. split; [reflexivity|]. split; [reflexivity|].
      intros Hm.
      apply (signature_of_def_line tgt [] line rest Hs (Forall_nil _)).
      apply ReFacts.match_def_correct. exact Hm.
Qed.

Lemma old_signature_is_first_line_witness :
  exists line rest,
    PyStr.splitlines (src one_line_header) = line :: rest /\
    AddDocstrings.signature one_line_header = Ok (PyStr.rstrip line).
Proof.
  assert (Hne : src one_line_header <> "") by discriminate.
  destruct (proj2 (old_signature_is_first_line one_line_header) Hne)
    as [line [rest [Hs [Hsig _]]]].
  exists line, rest. split; [exact Hs | exact Hsig].
Defined.

(* ===================================================================== *)
(** * From the scan to the files *)
(* ===================================================================== *)

Section ScanFacts.
Variable ast_parse : string -> result Ast.node.
Variable cleandoc : string -> string.

Lemma target_of_filepath (lines : list string) (file_path : string)
    (n : Ast.node) (t : Target) :
  In t (target_of lines file_path n) -> filepath t = file_path.
Proof.
  destruct n as [body|nm a body decos rt ln eln|nm a body decos rt ln eln
                 |nm bases kws body decos ln eln|v|c|cs]; try (intros []).
  cbn [target_of].
  destruct body as [|[| | | |v| |] body']; cbn [In];
    try (intros [<-|[]]; reflexivity).
  destruct v as [| | | | |[text|]|]; cbn [In];
    try (intros [<-|[]]; reflexivity).
  intros [].
Qed.

Lemma find_filepath (source file_path : string) (targets : list Target) :
  find_missing_docstrings ast_parse cleandoc source file_path = Ok targets ->
  Forall (fun t => filepath t = file_path) targets.
Proof.
  unfold find_missing_docstrings.
  destruct (ast_parse source) as [tree|e].
  - rewrite collect_targets_spec. cbn [rbind]. intros H. injection H as <-.
    eapply Permutation_Forall;
      [apply Permutation_sym, (SortFacts.sorted_perm lineno false)|].
    apply Forall_forall. intros t Ht. apply in_flat_map in Ht.
    destruct Ht as [n [_ Ht]]. eapply target_of_filepath. exact Ht.
  - destruct e; try discriminate. intros H. injection H as <-. constructor.
Qed.

(** X21.  Every target of a scan comes from one of the files scanned and
    carries the path of that file: it is among the targets that the
    extractor returns for the text of that file, so that the grouping by
    [filepath] sends its documentation to the file in which it was found.  A
    file on which [ast.parse] raises [SyntaxError] contributes nothing. *)
Theorem scan_targets_carry_their_file
    (py_files : list (string * string)) (missing : list Target) :
  scan_files ast_parse cleandoc py_files = Ok missing ->
  forall t,
    In t missing ->
    exists src_text found,
      In (filepath t, src_text) py_files /\
      find_missing_docstrings ast_parse cleandoc src_text (filepath t) = Ok found /\
      In t found /\
      ast_parse src_text <> Raise SyntaxError.
Proof.
  revert missing. induction py_files as [|[file text] py_files IH];
    intros missing Hscan t Ht.
  - cbn in Hscan. injection Hscan as <-. destruct Ht.
  - cbn [scan_files] in Hscan.
    destruct (find_missing_docstrings ast_parse cleandoc text file) as [found|e] eqn:Hfind;
      [|discriminate].
    cbn [rbind] in Hscan.
    destruct (scan_files ast_parse cleandoc py_files) as [others|e] eqn:Hrest;
      [|discriminate].
    cbn [rbind] in Hscan. injection Hscan as <-.
    apply in_app_or in Ht. destruct Ht as [Ht|Ht].
    + pose proof (find_filepath _ _ _ Hfind) as Hpath.
      rewrite Forall_forall in Hpath. rewrite (Hpath t Ht).
      exists text, found. split; [left; reflexivity|]. split; [exact Hfind|].
      split; [exact Ht|].
      intros Hsyn. unfold find_missing_docstrings in Hfind. rewrite Hsyn in Hfind.
      injection Hfind as <-. destruct Ht.
    + destruct (IH others eq_refl t Ht) as [text' [found' [Hin [Hf [Hfound Hsyn]]]]].
      exists text', found'. split; [right; exact Hin | auto].
Qed.

End ScanFacts.

Lemma scan_targets_carry_their_file_witness :
  exists src_text found,
    In ("a.py", src_text) [("bad.py", broken_source); ("a.py", good_source)] /\
    find_missing_docstrings sample_parse (fun s => s) src_text "a.py" = Ok found /\
    In (mkTarget "a.py" 1 "f" good_source) found.
Proof.
  assert (Hscan : scan_files sample_parse (fun s => s)
                    [("bad.py", broken_source); ("a.py", good_source)]
                  = Ok [mkTarget "a.py" 1 "f" good_source])
    by (vm_compute; reflexivity).
  destruct (scan_targets_carry_their_file sample_parse (fun s => s) _ _ Hscan
              (mkTarget "a.py" 1 "f" good_source) (or_introl eq_refl))
    as [text [found [Hin [Hfind [Hfound _]]]]].
  exists text, found. auto.
Defined.




(* ===================================================================== *)
(** * Applying the map of a session *)
(* ===================================================================== *)

Module ApplyFacts.







End ApplyFacts.


